(** * Data-Pipeline: the fetch stage (extract.py) and the transform stage
    (transform.py), embedded as state-passing programs over a store of files
    and a log of printed lines.

    Layout of the development:
    - Python values, text and exceptions;
    - the [json] encoder and decoder the two repositories call;
    - the storage capability ([os.makedirs], [open], [os.path.exists]);
    - the table built by [pandas.DataFrame];
    - module [Extract] (extract.py) and module [Transform] (transform.py);
    - the properties of the pipeline. *)

From Stdlib Require Import ZArith NArith Ascii String List Bool Lia.
From Stdlib Require Import Decimal.
From Stdlib Require DecimalFacts DecimalN.
From stdpp Require Import base option list gmap.

Local Open Scope N_scope.

(** ** Text

    A Python [str] is a sequence of code points; files are opened in text
    mode, so a file's content is a [str] as well.

    The code points the definitions below name by their number:
    9 tab, 10 line feed, 12 form feed, 13 carriage return, 32 space,
    34 double quote, 43 plus, 44 comma, 45 minus, 46 dot, 47 slash,
    48 to 57 the digits, 58 colon, 69 E, 73 I, 78 N, 91 and 93 the square
    brackets, 92 backslash, 98 b, 101 e, 102 f, 110 n, 114 r, 116 t, 117 u,
    123 and 125 the braces, 55296 to 57343 the surrogates, 65279 the
    byte-order mark. *)

Abbreviation text := (list N).

(** [txt] turns an ASCII literal into text. *)
Definition txt (s : string) : text := map N_of_ascii (list_ascii_of_string s).

(** ** Python values

    The values [json.load] and [response.json()] produce.  A [dict] keeps its
    insertion order, so it is an association list; the keys of a [dict] are
    distinct (see [dict_set]).

    A finite [float] is identified with the decimal number [float.__repr__]
    prints for it: a sign, the significant digits (as digit characters, no
    leading and no trailing zero; none at all for zero) and the position of
    the decimal point, value = 0.d1d2...dn * 10^decpt.  The pipeline only
    moves floats between text and tables, it never computes with them; the
    rounding of a longer literal to binary64 is outside this model. *)

Inductive pyfloat :=
| FFinite (neg : bool) (digits : text) (decpt : Z)
| FInf (neg : bool)
| FNaN.

#[local] Unset Elimination Schemes.

Inductive pyval :=
| PNone
| PBool (b : bool)
| PInt (n : Z)
| PFloat (x : pyfloat)
| PStr (s : text)
| PList (l : list pyval)
| PDict (d : list (text * pyval)).

#[local] Set Elimination Schemes.

(** Induction over values, with the hypotheses for the elements of a list and
    for the values of a dict. *)
Definition pyval_induction (P : pyval → Prop)
    (HNone : P PNone)
    (HBool : ∀ b, P (PBool b))
    (HInt : ∀ n, P (PInt n))
    (HFloat : ∀ x, P (PFloat x))
    (HStr : ∀ s, P (PStr s))
    (HList : ∀ l, Forall P l → P (PList l))
    (HDict : ∀ d, Forall (λ kv, P kv.2) d → P (PDict d)) :
  ∀ v, P v :=
  fix go (v : pyval) : P v :=
    match v with
    | PNone => HNone
    | PBool b => HBool b
    | PInt n => HInt n
    | PFloat x => HFloat x
    | PStr s => HStr s
    | PList l =>
        HList l ((fix elems (l : list pyval) : Forall P l :=
                    match l with
                    | [] => Forall_nil_2 P
                    | x :: l' => Forall_cons_2 P x l' (go x) (elems l')
                    end) l)
    | PDict d =>
        HDict d ((fix items (d : list (text * pyval)) : Forall (λ kv, P kv.2) d :=
                    match d with
                    | [] => Forall_nil_2 _
                    | kv :: d' => Forall_cons_2 _ kv d' (go kv.2) (items d')
                    end) d)
    end.

(** [d[k] = v] on a dict: an existing key keeps its place, a new key goes to
    the end. *)
Fixpoint dict_set (k : text) (v : pyval) (d : list (text * pyval)) : list (text * pyval) :=
  match d with
  | [] => [(k, v)]
  | (k', v') :: d' => if decide (k' = k) then (k, v) :: d' else (k', v') :: dict_set k v d'
  end.

(** [d.get(k)]. *)
Fixpoint dict_get (k : text) (d : list (text * pyval)) : option pyval :=
  match d with
  | [] => None
  | (k', v) :: d' => if decide (k' = k) then Some v else dict_get k d'
  end.

(** [dict(pairs)]: later pairs overwrite earlier ones with the same key. *)
Definition dict_of_pairs (pairs : list (text * pyval)) : list (text * pyval) :=
  foldl (λ d kv, dict_set kv.1 kv.2 d) [] pairs.

(** ** Exceptions

    The classes the pipeline's code and the library calls it makes can
    raise; all of them derive from [Exception]. *)

Inductive exn :=
| KeyError (key : text)
| TypeError
| ValueError
| JSONDecodeError
| FileNotFoundError (path : text)
| FileExistsError (path : text)
| NotADirectoryError (path : text)
| IsADirectoryError (path : text)
| ConnectionError.

(** ** json: the encoder ([json.dump] with [indent=4])

    With an indent the separators are [","] and [": "], [ensure_ascii] is on,
    keys are not sorted.  Integers are unbounded and values nest without
    limit: the limits the interpreter puts on the recursion depth and on the
    number of digits of an integer conversion are settings of the run, not of
    the program, and are left out. *)

Definition hexdigit (d : N) : N := if d <? 10 then 48 + d else 87 + d.

(** ['{0:04x}'.format(n)] for [n < 0x10000]. *)
Definition hex4 (n : N) : text :=
  [hexdigit (N.shiftr n 12 mod 16); hexdigit (N.shiftr n 8 mod 16);
   hexdigit (N.shiftr n 4 mod 16); hexdigit (n mod 16)].

Definition uescape (n : N) : text := 92 :: 117 :: hex4 n.

(** The replacement of one character by [py_encode_basestring_ascii]: the
    short escapes, a character from space to tilde as it is, anything else
    as [\uXXXX], above the basic plane as a surrogate pair. *)
Definition escape_char (c : N) : text :=
  if c =? 34 then [92; 34]
  else if c =? 92 then [92; 92]
  else if c =? 10 then [92; 110]
  else if c =? 13 then [92; 114]
  else if c =? 9 then [92; 116]
  else if c =? 8 then [92; 98]
  else if c =? 12 then [92; 102]
  else if (32 <=? c) && (c <=? 126) then [c]
  else if c <? 65536 then uescape c
  else
    let n := c - 65536 in
    let s1 := N.lor 55296 (N.land (N.shiftr n 10) 1023) in
    let s2 := N.lor 56320 (N.land n 1023) in
    uescape s1 ++ uescape s2.

Definition encode_basestring_ascii (s : text) : text :=
  34 :: flat_map escape_char s ++ [34].

Fixpoint uint_digits (u : uint) : text :=
  match u with
  | Nil => []
  | D0 u => 48 :: uint_digits u
  | D1 u => 49 :: uint_digits u
  | D2 u => 50 :: uint_digits u
  | D3 u => 51 :: uint_digits u
  | D4 u => 52 :: uint_digits u
  | D5 u => 53 :: uint_digits u
  | D6 u => 54 :: uint_digits u
  | D7 u => 55 :: uint_digits u
  | D8 u => 56 :: uint_digits u
  | D9 u => 57 :: uint_digits u
  end.

(** The decimal digits of a natural number. *)
Definition N_digits (n : N) : text := uint_digits (N.to_uint n).

(** A number literal from its parts: the sign, the digits of the integer
    part, the digits of the fraction if there is one, and the sign and the
    digits of the exponent if there is one. *)
Definition number_literal (neg : bool) (ip : text) (frac : option text)
    (ex : option (bool * text)) : text :=
  (if neg then [45] else []) ++ ip ++
  match frac with Some f => 46 :: f | None => [] end ++
  match ex with Some (sg, ds) => 101 :: (if sg then 45 else 43) :: ds | None => [] end.

(** [int.__repr__]. *)
Definition int_repr (z : Z) : text :=
  number_literal (z <? 0)%Z (N_digits (Z.abs_N z)) None None.

Definition zeros (n : nat) : text := replicate n 48.

(** The exponent of [float.__repr__]: its sign, and at least two digits. *)
Definition exp_parts (e : Z) : bool * text :=
  ((e <? 0)%Z,
   if Z.abs_N e <? 10 then 48 :: N_digits (Z.abs_N e) else N_digits (Z.abs_N e)).

(** The parts of [float.__repr__] for the digits [ds] and the decimal point
    at [decpt]: positional notation when [-4 < decpt <= 16], with the zeros
    that pad the digits up to the point and [.0] after an integer; exponent
    notation otherwise, the point after the first digit. *)
Definition float_parts (ds : text) (decpt : Z) : text * option text * option (bool * text) :=
  match ds with
  | [] => ([48], Some [48], None)
  | c1 :: rest =>
      if ((-4 <? decpt) && (decpt <=? 16))%Z then
        if (decpt <=? 0)%Z then ([48], Some (zeros (Z.to_nat (- decpt)) ++ ds), None)
        else if (decpt <? Z.of_nat (length ds))%Z then
          (take (Z.to_nat decpt) ds, Some (drop (Z.to_nat decpt) ds), None)
        else (ds ++ zeros (Z.to_nat decpt - length ds), Some [48], None)
      else
        ([c1], match rest with [] => None | _ => Some rest end, Some (exp_parts (decpt - 1)))
  end.

(** [float.__repr__] of a finite float. *)
Definition float_repr (neg : bool) (ds : text) (decpt : Z) : text :=
  let '(ip, frac, ex) := float_parts ds decpt in number_literal neg ip frac ex.

(** [floatstr] of the encoder ([allow_nan] is on). *)
Definition floatstr (x : pyfloat) : text :=
  match x with
  | FNaN => txt "NaN"
  | FInf false => txt "Infinity"
  | FInf true => txt "-Infinity"
  | FFinite neg ds decpt => float_repr neg ds decpt
  end.

(** A line break followed by the indentation of a nesting level. *)
Definition newline_indent (level : nat) : text := 10 :: replicate (4 * level) 32.

(** [sep.join(chunks)]. *)
Fixpoint join (sep : text) (chunks : list text) : text :=
  match chunks with
  | [] => []
  | [c] => c
  | c :: cs => c ++ sep ++ join sep cs
  end.

Fixpoint iterencode (level : nat) (o : pyval) : text :=
  match o with
  | PStr s => encode_basestring_ascii s
  | PNone => txt "null"
  | PBool true => txt "true"
  | PBool false => txt "false"
  | PInt n => int_repr n
  | PFloat x => floatstr x
  | PList [] => txt "[]"
  | PList l =>
      91 :: newline_indent (S level) ++
      join (44 :: newline_indent (S level)) (map (iterencode (S level)) l) ++
      newline_indent level ++ [93]
  | PDict [] => txt "{}"
  | PDict d =>
      123 :: newline_indent (S level) ++
      join (44 :: newline_indent (S level))
           (map (λ kv, encode_basestring_ascii kv.1 ++ txt ": " ++ iterencode (S level) kv.2) d) ++
      newline_indent level ++ [125]
  end.

(** The text [json.dump(data, f, indent=4)] writes to [f]. *)
Definition json_dumps (data : pyval) : text := iterencode 0 data.

(** ** json: the decoder ([json.load])

    A failure of the decoder is [None] here; [json_loads] turns it into
    [JSONDecodeError]. *)

Definition is_ws (c : N) : bool := (c =? 32) || (c =? 9) || (c =? 10) || (c =? 13).

Fixpoint skip_ws (s : text) : text :=
  match s with
  | c :: r => if is_ws c then skip_ws r else s
  | [] => []
  end.

Definition hexval (c : N) : option N :=
  if (48 <=? c) && (c <=? 57) then Some (c - 48)
  else if (97 <=? c) && (c <=? 102) then Some (c - 87)
  else if (65 <=? c) && (c <=? 70) then Some (c - 55)
  else None.

(** The four hexadecimal digits of a [\uXXXX] escape. *)
Definition decode_uXXXX (a b c d : N) : option N :=
  match hexval a, hexval b, hexval c, hexval d with
  | Some x3, Some x2, Some x1, Some x0 => Some (((x3 * 16 + x2) * 16 + x1) * 16 + x0)
  | _, _, _, _ => None
  end.

(** The table [BACKSLASH] of the one-character escapes. *)
Definition backslash (e : N) : option N :=
  if e =? 34 then Some 34
  else if e =? 92 then Some 92
  else if e =? 47 then Some 47
  else if e =? 98 then Some 8
  else if e =? 102 then Some 12
  else if e =? 110 then Some 10
  else if e =? 114 then Some 13
  else if e =? 116 then Some 9
  else None.

Definition is_high_surrogate (u : N) : bool := (55296 <=? u) && (u <=? 56319).
Definition is_low_surrogate (u : N) : bool := (56320 <=? u) && (u <=? 57343).

Definition join_surrogates (u u2 : N) : N :=
  65536 + N.lor (N.shiftl (u - 55296) 10) (u2 - 56320).

(** [scanstring] (strict): the text after an opening quote, up to the
    closing quote; the result is the string and the text after it. *)
Fixpoint scanstring (s : text) (acc : text) : option (text * text) :=
  match s with
  | [] => None
  | c :: r =>
      if c =? 34 then Some (rev acc, r)
      else if c =? 92 then
        match r with
        | [] => None
        | e :: r1 =>
            if e =? 117 then
              match r1 with
              | a :: b :: c' :: d :: r2 =>
                  match decode_uXXXX a b c' d with
                  | None => None
                  | Some uni =>
                      if is_high_surrogate uni then
                        match r2 with
                        | b1 :: u1 :: a2 :: b2 :: c2 :: e2 :: r3 =>
                            if (b1 =? 92) && (u1 =? 117) then
                              match decode_uXXXX a2 b2 c2 e2 with
                              | None => None
                              | Some uni2 =>
                                  if is_low_surrogate uni2
                                  then scanstring r3 (join_surrogates uni uni2 :: acc)
                                  else scanstring r2 (uni :: acc)
                              end
                            else scanstring r2 (uni :: acc)
                        | _ => scanstring r2 (uni :: acc)
                        end
                      else scanstring r2 (uni :: acc)
                  end
              | _ => None
              end
            else
              match backslash e with
              | Some ch => scanstring r1 (ch :: acc)
              | None => None
              end
        end
      else if c <? 32 then None
      else scanstring r (c :: acc)
  end.

Definition is_digit (c : N) : bool := (48 <=? c) && (c <=? 57).

(** Whether the first character of a text passes a test. *)
Definition head_is (P : N → bool) (s : text) : bool :=
  match s with
  | c :: _ => P c
  | [] => false
  end.

(** The longest run of digits at the head of a text, and what follows. *)
Fixpoint span_digits (s : text) : text * text :=
  match s with
  | c :: r =>
      if is_digit c then let '(ds, r') := span_digits r in (c :: ds, r') else ([], s)
  | [] => ([], [])
  end.

Fixpoint digits_uint (ds : text) : uint :=
  match ds with
  | [] => Nil
  | c :: r =>
      let u := digits_uint r in
      if c =? 48 then D0 u else if c =? 49 then D1 u else if c =? 50 then D2 u
      else if c =? 51 then D3 u else if c =? 52 then D4 u else if c =? 53 then D5 u
      else if c =? 54 then D6 u else if c =? 55 then D7 u else if c =? 56 then D8 u
      else D9 u
  end.

(** The number a run of decimal digits denotes. *)
Definition digits_N (ds : text) : N := N.of_uint (digits_uint ds).

(** [int(numstr)]. *)
Definition int_of_literal (neg : bool) (ds : text) : Z :=
  if neg then (- Z.of_N (digits_N ds))%Z else Z.of_N (digits_N ds).

Definition is_zero_digit (c : N) : bool := c =? 48.

Fixpoint strip_zeros (ds : text) : text :=
  match ds with
  | c :: r => if is_zero_digit c then strip_zeros r else ds
  | [] => []
  end.

(** [float(numstr)]: the digits of the integer and fraction parts with the
    zeros at both ends removed, and the position of the decimal point. *)
Definition float_of_literal (neg : bool) (ip : text) (frac : option text)
    (ex : option (bool * text)) : pyfloat :=
  let all := ip ++ default [] frac in
  let e := match ex with
           | Some (sg, ds) => int_of_literal sg ds
           | None => 0%Z
           end in
  let lead := (length all - length (strip_zeros all))%nat in
  let ds := rev (strip_zeros (rev (strip_zeros all))) in
  match ds with
  | [] => FFinite neg [] 0
  | _ => FFinite neg ds (Z.of_nat (length ip) + e - Z.of_nat lead)
  end.

(** The pieces of [NUMBER_RE]: an optional minus sign; an integer part,
    either a single 0 or a digit from 1 to 9 followed by digits; an optional
    fraction, a dot and at least one digit; an optional exponent, e or E, an
    optional sign and at least one digit.  Each piece returns what it
    matched and the text after it. *)
Definition scan_minus (s : text) : bool * text :=
  match s with
  | c :: r => if c =? 45 then (true, r) else (false, s)
  | [] => (false, s)
  end.

Definition scan_intpart (s : text) : option (text * text) :=
  match s with
  | [] => None
  | c :: r =>
      if negb (is_digit c) then None
      else if c =? 48 then Some ([c], r)
      else let '(ds, r') := span_digits r in Some (c :: ds, r')
  end.

Definition scan_frac (s : text) : option text * text :=
  match s with
  | dot :: c :: r =>
      if (dot =? 46) && is_digit c
      then let '(ds, r') := span_digits (c :: r) in (Some ds, r')
      else (None, s)
  | _ => (None, s)
  end.

Definition scan_exp_sign (s : text) : bool * text :=
  match s with
  | c :: r => if c =? 45 then (true, r) else if c =? 43 then (false, r) else (false, s)
  | [] => (false, s)
  end.

Definition scan_exponent (s : text) : option (bool * text) * text :=
  match s with
  | e :: r =>
      if (e =? 101) || (e =? 69) then
        let '(sg, r') := scan_exp_sign r in
        let '(ds, r'') := span_digits r' in
        match ds with
        | [] => (None, s)
        | _ => (Some (sg, ds), r'')
        end
      else (None, s)
  | [] => (None, s)
  end.

(** The number at the head of a text: an [int] when there is neither a
    fraction nor an exponent, a [float] otherwise. *)
Definition match_number (s : text) : option (pyval * text) :=
  let '(neg, s1) := scan_minus s in
  match scan_intpart s1 with
  | None => None
  | Some (ip, r1) =>
      let '(frac, r2) := scan_frac r1 in
      let '(ex, r3) := scan_exponent r2 in
      match frac, ex with
      | None, None => Some (PInt (int_of_literal neg ip), r3)
      | _, _ => Some (PFloat (float_of_literal neg ip frac ex), r3)
      end
  end.

(** [s] without the prefix [p], when it starts with it. *)
Fixpoint strip_prefix (p s : text) : option text :=
  match p, s with
  | [], _ => Some s
  | a :: p', b :: s' => if a =? b then strip_prefix p' s' else None
  | _ :: _, [] => None
  end.

(** [scan_once], [JSONArray] and [JSONObject].  The recursion of the decoder
    follows the nesting of the text; [fuel] bounds it.  [json_loads] supplies
    one unit more than the text has characters, which is enough for every
    text the encoder writes ([size_le_length] and [scan_once_iterencode]
    below). *)
Fixpoint scan_once (fuel : nat) (s : text) : option (pyval * text) :=
  match fuel with
  | O => None
  | S fuel =>
      match s with
      | [] => None
      | c :: r =>
          if c =? 34 then
            match scanstring r [] with
            | Some (str, r') => Some (PStr str, r')
            | None => None
            end
          else if c =? 123 then
            let r := skip_ws r in
            match r with
            | c' :: r' =>
                if c' =? 125 then Some (PDict [], r')
                else if c' =? 34 then
                  match object_items fuel r' [] with
                  | Some (pairs, r'') => Some (PDict (dict_of_pairs pairs), r'')
                  | None => None
                  end
                else None
            | [] => None
            end
          else if c =? 91 then
            let r := skip_ws r in
            match r with
            | c' :: r' =>
                if c' =? 93 then Some (PList [], r')
                else
                  match array_items fuel r [] with
                  | Some (values, r'') => Some (PList values, r'')
                  | None => None
                  end
            | [] => None
            end
          else
            match strip_prefix (txt "null") s with
            | Some r' => Some (PNone, r')
            | None =>
            match strip_prefix (txt "true") s with
            | Some r' => Some (PBool true, r')
            | None =>
            match strip_prefix (txt "false") s with
            | Some r' => Some (PBool false, r')
            | None =>
            match match_number s with
            | Some res => Some res
            | None =>
            match strip_prefix (txt "NaN") s with
            | Some r' => Some (PFloat FNaN, r')
            | None =>
            match strip_prefix (txt "Infinity") s with
            | Some r' => Some (PFloat (FInf false), r')
            | None =>
            match strip_prefix (txt "-Infinity") s with
            | Some r' => Some (PFloat (FInf true), r')
            | None => None
            end end end end end end end
      end
  end

(** The loop of [JSONArray]: a value, then ["]"] or [","]. *)
with array_items (fuel : nat) (s : text) (acc : list pyval) : option (list pyval * text) :=
  match fuel with
  | O => None
  | S fuel =>
      match scan_once fuel s with
      | None => None
      | Some (value, r) =>
          match skip_ws r with
          | c :: r' =>
              if c =? 93 then Some (rev (value :: acc), r')
              else if c =? 44 then array_items fuel (skip_ws r') (value :: acc)
              else None
          | [] => None
          end
      end
  end

(** The loop of [JSONObject], entered after the opening quote of a key:
    the key, [":"], a value, then ["}"] or [","] and the next quote. *)
with object_items (fuel : nat) (s : text) (acc : list (text * pyval))
    : option (list (text * pyval) * text) :=
  match fuel with
  | O => None
  | S fuel =>
      match scanstring s [] with
      | None => None
      | Some (key, r) =>
          match skip_ws r with
          | c :: r1 =>
              if c =? 58 then
                match scan_once fuel (skip_ws r1) with
                | None => None
                | Some (value, r2) =>
                    match skip_ws r2 with
                    | c' :: r3 =>
                        if c' =? 125 then Some (rev ((key, value) :: acc), r3)
                        else if c' =? 44 then
                          match skip_ws r3 with
                          | q :: r4 =>
                              if q =? 34 then object_items fuel r4 ((key, value) :: acc)
                              else None
                          | [] => None
                          end
                        else None
                    | [] => None
                    end
                end
              else None
          | [] => None
          end
      end
  end.

(** [json.loads]: a leading byte-order mark is refused; one value, with
    white space around it and nothing else. *)
Definition json_loads (s : text) : option pyval :=
  if head_is (N.eqb 65279) s then None
  else
    match scan_once (S (length s)) (skip_ws s) with
    | Some (obj, r) =>
        match skip_ws r with
        | [] => Some obj
        | _ :: _ => None
        end
    | None => None
    end.

(** ** Well-formed documents

    The values a JSON text denotes: strings of Unicode scalar values (no
    lone surrogate code points), floats in the normal form described above
    and other than NaN (the one float that is not equal to itself), dicts
    with distinct keys. *)

Definition scalar_value (c : N) : bool :=
  (c <? 55296) || ((57343 <? c) && (c <? 1114112)).

Definition wf_str (s : text) : bool := forallb scalar_value s.

Definition wf_float (x : pyfloat) : bool :=
  match x with
  | FFinite _ [] decpt => (decpt =? 0)%Z
  | FFinite _ (c :: ds) _ =>
      forallb is_digit (c :: ds) && negb (c =? 48) && negb (List.last (c :: ds) 48 =? 48)
  | FInf _ => true
  | FNaN => false
  end.

Fixpoint distinct (ks : list text) : bool :=
  match ks with
  | [] => true
  | k :: ks' => forallb (λ k', negb (bool_decide (k' = k))) ks' && distinct ks'
  end.

Fixpoint json_value (v : pyval) : bool :=
  match v with
  | PNone | PBool _ | PInt _ => true
  | PFloat x => wf_float x
  | PStr s => wf_str s
  | PList l => forallb json_value l
  | PDict d => forallb (λ kv, wf_str kv.1 && json_value kv.2) d && distinct (map fst d)
  end.

(** ** The world: the store of files, and what was printed

    A path names a regular file with its text, or a directory.  Paths are
    compared as they are written. *)

Inductive node :=
| File (content : text)
| Dir.

(** The lines the pipeline prints, one constructor for each [print] of the
    source, with the value the line is formatted with. *)
Inductive line :=
| FetchedAndSaved                     (* Weather data successfully fetched and saved! *)
| FailedToFetch (status_code : Z)      (* Failed to fetch data. Status code: ... *)
| TransformationSuccessful            (* Data transformation successful! *)
| MissingKeyInData (e : exn)           (* Missing key in data: ... *)
| ProcessedDataSaved (output_path : text) (* Processed data saved to ... *)
| ErrorDuringTransformation (e : exn). (* Error during transformation: ... *)

Record world := World {
  files : gmap text node;
  stdout : list line;   (* the printed lines, oldest first *)
  stderr : list exn     (* the exceptions reported by [threading.excepthook] *)
}.

(** ** Computations: a state, and a value or a raised exception *)

Inductive outcome (A : Type) :=
| Return (a : A)
| Raise (e : exn).
Arguments Return {A} a.
Arguments Raise {A} e.

Definition M (A : Type) : Type := world → outcome A * world.

#[global] Instance M_ret : MRet M := λ A a w, (Return a, w).

#[global] Instance M_bind : MBind M := λ A B f m w,
  match m w with
  | (Return a, w') => f a w'
  | (Raise e, w') => (Raise e, w')
  end.

Definition raise {A} (e : exn) : M A := λ w, (Raise e, w).

(** The outcome of a call that does not touch the world. *)
Definition lift {A} (o : outcome A) : M A := λ w, (o, w).

Definition print (l : line) : M unit :=
  λ w, (Return (), World (files w) (stdout w ++ [l]) (stderr w)).

(** [try: body / except C as e: handler e], [catches] telling the instances
    of the class [C]. *)
Definition try_except {A} (body : M A) (catches : exn → bool) (handler : exn → M A) : M A :=
  λ w,
    match body w with
    | (Return a, w') => (Return a, w')
    | (Raise e, w') => if catches e then handler e w' else (Raise e, w')
    end.

Definition isinstance_KeyError (e : exn) : bool :=
  match e with KeyError _ => true | _ => false end.

(** Every class of [exn] derives from [Exception]. *)
Definition isinstance_Exception (e : exn) : bool := true.

(** ** The storage capability *)

Definition is_sep (c : N) : bool := c =? 47.

(** [p[:p.rfind('/') + 1]]. *)
Fixpoint upto_last_sep (p : text) : text :=
  match p with
  | [] => []
  | c :: r =>
      match upto_last_sep r with
      | [] => if is_sep c then [c] else []
      | h => c :: h
      end
  end.

Fixpoint drop_seps (p : text) : text :=
  match p with
  | c :: r => if is_sep c then drop_seps r else p
  | [] => []
  end.

(** [p.rstrip('/')]. *)
Definition rstrip_sep (p : text) : text := rev (drop_seps (rev p)).

(** [posixpath.split]: the directory part, without its trailing separators
    unless it is made of separators only, and the last component. *)
Definition path_split (p : text) : text * text :=
  let head := upto_last_sep p in
  (if forallb is_sep head then head else rstrip_sep head, drop (length head) p).

(** [os.path.dirname]. *)
Definition dirname (p : text) : text := (path_split p).1.

(** The root directory always exists; a relative path with an empty
    directory part lies in the current directory, which exists as well. *)
Definition is_root (p : text) : bool := negb (bool_decide (p = [])) && forallb is_sep p.

Definition lookup_node (p : text) (w : world) : option node :=
  if is_root p then Some Dir else files w !! p.

(** [os.path.exists]. *)
Definition path_exists (p : text) : M bool :=
  λ w, (Return (bool_decide (is_Some (lookup_node p w))), w).

Definition set_node (p : text) (n : node) : M unit :=
  λ w, (Return (), World (<[p := n]> (files w)) (stdout w) (stderr w)).

(** What creating an entry at [p] asks of the directory it lies in. *)
Definition check_parent (p : text) : M unit :=
  λ w,
    if bool_decide (dirname p = []) then (Return (), w)
    else match lookup_node (dirname p) w with
         | Some Dir => (Return (), w)
         | Some (File _) => (Raise (NotADirectoryError p), w)
         | None => (Raise (FileNotFoundError p), w)
         end.

(** The directories [os.makedirs] walks through for [name]: [name] and the
    directories above it, the outermost first, up to the root or the current
    directory.  [fuel] bounds the walk; a path has fewer components than
    characters. *)
Fixpoint ancestors_from (fuel : nat) (name : text) : list text :=
  match fuel with
  | O => []
  | S fuel =>
      if bool_decide (name = []) || is_root name then []
      else ancestors_from fuel (dirname name) ++ [name]
  end.

Definition ancestors (name : text) : list text := ancestors_from (S (length name)) name.

(** The directories of a chain, made one after the other: an existing
    directory is kept ([exist_ok]), a missing one is created, and a regular
    file in the way is an error: [FileExistsError] for the file when it is
    the last of the chain, and, when it is above it, the [NotADirectoryError]
    of [os.mkdir] for the directory that was to be made inside it. *)
Fixpoint mkdir_chain (chain : list text) : M unit :=
  match chain with
  | [] => mret ()
  | name :: below =>
      λ w,
        match lookup_node name w with
        | Some Dir => mkdir_chain below w
        | Some (File _) =>
            (Raise (match below with
                    | [] => FileExistsError name
                    | inside :: _ => NotADirectoryError inside
                    end), w)
        | None => (set_node name Dir ;; mkdir_chain below) w
        end
  end.

(** [os.makedirs(name, exist_ok=True)]; an empty name is refused with
    [FileNotFoundError]. *)
Definition makedirs (name : text) : M unit :=
  if bool_decide (name = []) then raise (FileNotFoundError name)
  else mkdir_chain (ancestors name).

(** [with open(p, "w") as f: f.write(content)]: the file is created or
    truncated, then holds [content]. *)
Definition open_write (p : text) (content : text) : M unit :=
  λ w,
    if bool_decide (p = []) then (Raise (FileNotFoundError p), w)
    else match lookup_node p w with
         | Some Dir => (Raise (IsADirectoryError p), w)
         | _ => (check_parent p ;; set_node p (File content)) w
         end.

(** [with open(p, "r") as f: f.read()]. *)
Definition open_read (p : text) : M text :=
  λ w,
    match lookup_node p w with
    | Some (File content) => (Return content, w)
    | Some Dir => (Raise (IsADirectoryError p), w)
    | None => (Raise (FileNotFoundError p), w)
    end.

(** ** Subscription and tables *)

(** [o[key]] with a string key: a dict looks the key up; a list, a string
    and every other value refuse the subscript with [TypeError]. *)
Definition getitem (o : pyval) (key : text) : outcome pyval :=
  match o with
  | PDict d =>
      match dict_get key d with
      | Some v => Return v
      | None => Raise (KeyError key)
      end
  | _ => Raise TypeError
  end.

(** A cell of a table: a value, or the NaN pandas puts where a column has
    no entry for a label. *)
Inductive cell :=
| Val (v : pyval)
| Missing.

Inductive axis :=
| RangeIndex (n : nat)
| LabelIndex (labels : list text).

(** A [pandas.DataFrame]: the row index and the named columns in order,
    every column as long as the index.  The cells are the objects the
    columns were built from: the model does not follow pandas in giving a
    column one dtype (an integer among floats becomes a float, a null among
    numbers NaN), so what is said of cells is said for columns of one
    kind. *)
Record DataFrame := {
  df_index : axis;
  df_columns : list (text * list cell)
}.

Definition axis_length (a : axis) : nat :=
  match a with
  | RangeIndex n => n
  | LabelIndex labels => length labels
  end.

(** The lengths of the list-valued columns, and the keys of the dict-valued
    ones. *)
Definition raw_lengths (data : list (text * pyval)) : list nat :=
  omap (λ kv, match kv.2 with PList l => Some (length l) | _ => None end) data.

Definition dict_indexes (data : list (text * pyval)) : list (list text) :=
  omap (λ kv, match kv.2 with PDict d => Some (map fst d) | _ => None end) data.

(** The labels of several indexes, each once, in the order of their first
    occurrence. *)
Definition union_indexes (indexes : list (list text)) : list text :=
  foldl (λ acc k, if bool_decide (k ∈ acc) then acc else acc ++ [k]) [] (concat indexes).

(** [_extract_index]: all scalars is an error; list-valued columns must
    have one length and cannot be mixed with dict-valued ones. *)
Definition extract_index (data : list (text * pyval)) : outcome axis :=
  match raw_lengths data, dict_indexes data with
  | [], [] => Raise ValueError
  | [], indexes => Return (LabelIndex (union_indexes indexes))
  | n :: lengths, indexes =>
      if negb (forallb (Nat.eqb n) lengths) then Raise ValueError
      else match indexes with
           | [] => Return (RangeIndex n)
           | _ => Raise ValueError
           end
  end.

(** A column over an index: a list as it is, a dict looked up at every
    label, a scalar repeated. *)
Definition column_cells (index : axis) (v : pyval) : list cell :=
  match v with
  | PList l => map Val l
  | PDict d =>
      match index with
      | LabelIndex labels =>
          map (λ k, match dict_get k d with Some x => Val x | None => Missing end) labels
      | RangeIndex n => replicate n Missing
      end
  | _ => replicate (axis_length index) (Val v)
  end.

(** [pd.DataFrame(data)] for a dict [data] of columns. *)
Definition DataFrame_of_dict (data : list (text * pyval)) : outcome DataFrame :=
  match extract_index data with
  | Raise e => Raise e
  | Return index =>
      Return {| df_index := index;
                df_columns := map (λ kv, (kv.1, column_cells index kv.2)) data |}
  end.

(** The rows of three arrays taken position by position. *)
Fixpoint zip_rows (ts temps precs : list pyval) : list (list cell) :=
  match ts, temps, precs with
  | a :: ts', b :: temps', c :: precs' => [Val a; Val b; Val c] :: zip_rows ts' temps' precs'
  | _, _, _ => []
  end.

(** The rows of a table, each with one cell for every column. *)
Definition df_rows (df : DataFrame) : list (list cell) :=
  map (λ i, omap (λ col, col.2 !! i) (df_columns df)) (seq 0 (axis_length (df_index df))).

Definition df_column_names (df : DataFrame) : list text := map fst (df_columns df).

(** The storage accepts a write at [p]: the directory of [p] can be made,
    and [p] can then be opened for writing. *)
Definition storage_accepts (p : text) (w : world) : bool :=
  match (makedirs (dirname p) ;; open_write p []) w with
  | (Return _, _) => true
  | (Raise _, _) => false
  end.

(** No regular file lies where [makedirs] has to find or make a
    directory. *)
Definition no_file_at (w : world) (a : text) : Prop :=
  ∀ content, lookup_node a w ≠ Some (File content).

(** ** Threads

    [thread = threading.Thread(target=task); thread.start(); thread.join()]:
    the task runs to its end before [join] returns; an exception that leaves
    the task ends the thread, is reported on the error stream by
    [threading.excepthook], and does not reach the caller of [join]. *)
Definition thread_start_join (task : M unit) : M unit :=
  λ w,
    match task w with
    | (Return _, w') => (Return (), w')
    | (Raise e, w') => (Return (), World (files w') (stdout w') (stderr w' ++ [e]))
    end.

(** [future = executor.submit(fn); future.result()]: [result] returns what
    [fn] returned, or raises what it raised. *)
Definition submit_result {A} (fn : M A) : M A := fn.

(** Calls that do not touch the world sequence in [outcome]. *)
#[global] Instance outcome_ret : MRet outcome := λ A a, Return a.

#[global] Instance outcome_bind : MBind outcome := λ A B f o,
  match o with
  | Return a => f a
  | Raise e => Raise e
  end.

(** ** extract.py *)

Module Extract.

(** A [requests.Response]: its status code, and what [response.json()]
    gives, the parsed body or the exception for a body that is not JSON. *)
Record Response := {
  status_code : Z;
  json : outcome pyval
}.

(** [HttpClient.create_client().get(url, params=params)]: the transport
    capability, a response or a network exception. *)
Definition transport : Type := text → list (text * pyval) → outcome Response.

(** The strategy interface [WeatherDataFetcher]. *)
Record WeatherDataFetcher := {
  fetch : pyval → pyval → outcome Response
}.

Definition OpenMeteoFetcher (get : transport) : WeatherDataFetcher :=
  {| fetch latitude longitude :=
       let url := txt "https://api.open-meteo.com/v1/forecast" in
       let params := [(txt "latitude", latitude);
                      (txt "longitude", longitude);
                      (txt "hourly", PStr (txt "temperature_2m,precipitation"))] in
       get url params |}.

Record WeatherDataRepository := {
  storage_path : text
}.

Definition default_storage_path : text := txt "data/weather_data.json".

Definition save (self : WeatherDataRepository) (data : pyval) : M unit :=
  makedirs (dirname (storage_path self)) ;;
  open_write (storage_path self) (json_dumps data).

Record WeatherService := {
  fetcher : WeatherDataFetcher;
  repository : WeatherDataRepository
}.

(** The function [task] that [fetch_and_save_weather_data] hands to the
    thread. *)
Definition task (self : WeatherService) (latitude longitude : pyval) : M unit :=
  response ← lift (fetch (fetcher self) latitude longitude);
  if (status_code response =? 200)%Z then
    data ← lift (json response);
    save (repository self) data ;;
    print FetchedAndSaved
  else
    print (FailedToFetch (status_code response)).

Definition fetch_and_save_weather_data (self : WeatherService)
    (latitude longitude : pyval) : M unit :=
  thread_start_join (task self latitude longitude).

(** The default arguments, 40.71 and -74.01. *)
Definition default_latitude : pyval := PFloat (FFinite false (txt "4071") 2).
Definition default_longitude : pyval := PFloat (FFinite true (txt "7401") 2).

End Extract.

(** ** transform.py *)

Module Transform.

Section Csv.

(** The text [df.to_csv(path, index=False)] writes for a table; the
    pipeline does not depend on how pandas lays it out.  The write of a
    table can fail of its own accord, on a cell with a character that
    cannot be encoded; [to_csv] below has the failures of the storage only,
    and what is said of the text a processed save leaves is said of a save
    that returns, or of a table made from a well-formed document. *)
Variable to_csv_text : DataFrame → text.

Record WeatherDataRepository := {
  storage_path : text
}.

Definition default_storage_path : text := txt "data/weather_data.json".
Definition default_output_path : text := txt "data/processed_weather.csv".

Definition load (self : WeatherDataRepository) : M pyval :=
  found ← path_exists (storage_path self);
  if negb found then raise (FileNotFoundError (storage_path self))
  else
    s ← open_read (storage_path self);
    match json_loads s with
    | Some data => mret data
    | None => raise JSONDecodeError
    end.

Definition to_csv (df : DataFrame) (path : text) : M unit :=
  open_write path (to_csv_text df).

Definition save (self : WeatherDataRepository) (df : DataFrame) (output_path : text) : M unit :=
  makedirs (dirname output_path) ;;
  to_csv df output_path ;;
  print (ProcessedDataSaved output_path).

(** The strategy interface [WeatherDataTransformer]. *)
Record WeatherDataTransformer := {
  transform : pyval → M (option DataFrame)
}.

Definition Timestamp : text := txt "Timestamp".
Definition Temperature : text := txt "Temperature (" ++ [176] ++ txt "C)".
Definition Precipitation : text := txt "Precipitation (mm)".

Definition OpenMeteoTransformer : WeatherDataTransformer :=
  {| transform raw_data :=
       try_except
         (timestamps ← lift (getitem raw_data (txt "hourly") ≫= λ h, getitem h (txt "time"));
          temperatures ← lift (getitem raw_data (txt "hourly") ≫= λ h, getitem h (txt "temperature_2m"));
          precipitation ← lift (getitem raw_data (txt "hourly") ≫= λ h, getitem h (txt "precipitation"));
          df ← lift (DataFrame_of_dict [(Timestamp, timestamps);
                                        (Temperature, temperatures);
                                        (Precipitation, precipitation)]);
          print TransformationSuccessful ;;
          mret (Some df))
         isinstance_KeyError
         (λ e, print (MissingKeyInData e) ;; mret None) |}.

Record WeatherTransformationCommand := {
  repository : WeatherDataRepository;
  transformer : WeatherDataTransformer
}.

(** The body of the [try] of [execute]. *)
Definition load_transform_save (self : WeatherTransformationCommand) : M unit :=
  raw_data ← load (repository self);
  df ← transform (transformer self) raw_data;
  match df with
  | Some df => save (repository self) df default_output_path
  | None => mret ()
  end.

Definition execute (self : WeatherTransformationCommand) : M unit :=
  try_except (load_transform_save self) isinstance_Exception
    (λ e, print (ErrorDuringTransformation e)).

Definition transform_and_save (self : WeatherTransformationCommand) : M unit :=
  submit_result (execute self).

End Csv.

End Transform.

(** ** The shapes of a raw document *)

(** The key [transform] finds missing, when the document is a mapping that
    lacks "hourly", or whose "hourly" is a mapping that lacks one of "time",
    "temperature_2m" and "precipitation": the first one in the order the
    keys are read. *)
Definition first_missing_key (raw_data : pyval) : option text :=
  match raw_data with
  | PDict d =>
      match dict_get (txt "hourly") d with
      | None => Some (txt "hourly")
      | Some (PDict h) =>
          match dict_get (txt "time") h, dict_get (txt "temperature_2m") h,
                dict_get (txt "precipitation") h with
          | None, _, _ => Some (txt "time")
          | Some _, None, _ => Some (txt "temperature_2m")
          | Some _, Some _, None => Some (txt "precipitation")
          | Some _, Some _, Some _ => None
          end
      | Some _ => None
      end
  | _ => None
  end.

(** The document does not have a mapping where [transform] subscripts one:
    it is not a mapping itself, or its "hourly" is not one. *)
Definition non_mapping_level (raw_data : pyval) : bool :=
  match raw_data with
  | PDict d =>
      match dict_get (txt "hourly") d with
      | Some (PDict _) | None => false
      | Some _ => true
      end
  | _ => true
  end.

(** ** Sample data *)

(** The document of the happy path:
    hourly.time = 2024-01-01T00:00, temperature_2m = 5.0, precipitation = 0.0. *)
Definition happy_doc : pyval :=
  PDict [(txt "hourly",
          PDict [(txt "time", PList [PStr (txt "2024-01-01T00:00")]);
                 (txt "temperature_2m", PList [PFloat (FFinite false (txt "5") 1)]);
                 (txt "precipitation", PList [PFloat (FFinite false [] 0)])])].

(** A document whose arrays have two, one and one entries. *)
Definition uneven_doc : pyval :=
  PDict [(txt "hourly",
          PDict [(txt "time", PList [PStr (txt "2024-01-01T00:00"); PStr (txt "2024-01-01T01:00")]);
                 (txt "temperature_2m", PList [PFloat (FFinite false (txt "5") 1)]);
                 (txt "precipitation", PList [PFloat (FFinite false [] 0)])])].

(** The document of the missing-key scenario: hourly.time is an empty
    list, the two other arrays are absent. *)
Definition partial_doc : pyval :=
  PDict [(txt "hourly", PDict [(txt "time", PList [])])].

(** A world with no file and nothing printed. *)
Definition empty_world : world := World ∅ [] [].

(** A transport stub that answers every request with a given status code
    and an empty JSON object. *)
Definition stub_service (code : Z) : Extract.WeatherService :=
  {| Extract.fetcher :=
       Extract.OpenMeteoFetcher
         (λ _ _, Return {| Extract.status_code := code; Extract.json := Return (PDict []) |});
     Extract.repository := {| Extract.storage_path := Extract.default_storage_path |} |}.

(** The world in which the raw file holds the document of the missing-key
    scenario. *)
Definition partial_world : world :=
  (Extract.save {| Extract.storage_path := Extract.default_storage_path |}
     partial_doc empty_world).2.

(** ** Notions for the round trip of the json codec *)

(** The integer part of a literal: digits, at least one, and no leading
    zero unless it is the only digit. *)
Definition canonical_int (ds : text) : Prop :=
  forallb is_digit ds = true ∧
  match ds with
  | [] => False
  | c :: r => c = 48 → r = []
  end.

(** The text after a number: not a digit, a dot or an exponent mark. *)
Definition number_end (c : N) : bool :=
  negb (is_digit c || (c =? 46) || (c =? 101) || (c =? 69)).

Definition ends_number (rest : text) : Prop :=
  match rest with
  | [] => True
  | c :: _ => number_end c = true
  end.

(** What [match_number] makes of the parts of a literal. *)
Definition number_value (neg : bool) (ip : text) (frac : option text)
    (ex : option (bool * text)) : pyval :=
  match frac, ex with
  | None, None => PInt (int_of_literal neg ip)
  | _, _ => PFloat (float_of_literal neg ip frac ex)
  end.

Definition digits_part (p : option text) : Prop :=
  match p with
  | Some ds => ds ≠ [] ∧ forallb is_digit ds = true
  | None => True
  end.

(** The significant digits of a float: at least one, all of them digits,
    neither the first nor the last a zero. *)
Definition significant (ds : text) : Prop :=
  ds ≠ [] ∧ forallb is_digit ds = true ∧ hd 48 ds ≠ 48 ∧ List.last ds 48 ≠ 48.

Definition exp_value (ex : option (bool * text)) : Z :=
  match ex with
  | Some (sg, ds) => int_of_literal sg ds
  | None => 0%Z
  end.

(** The text that follows a value inside what the encoder writes: nothing,
    a comma, or a line break. *)
Definition delimited (rest : text) : Prop :=
  match rest with
  | [] => True
  | c :: _ => c = 44 ∨ c = 10
  end.

(** The characters a value can start with. *)
Definition value_start (c : N) : bool :=
  (c =? 34) || (c =? 123) || (c =? 91) || (c =? 110) || (c =? 116) || (c =? 102)
  || (c =? 45) || is_digit c || (c =? 78) || (c =? 73).

(** The number of steps of the decoder a value asks for. *)
Fixpoint size (v : pyval) : nat :=
  match v with
  | PList l => S (list_sum (map (λ x, S (size x)) l))
  | PDict d => S (list_sum (map (λ kv, S (size kv.2)) d))
  | _ => 1
  end.

(** What the round trip asks of one value. *)
Definition reads_back (x : pyval) : Prop :=
  json_value x = true →
  ∀ level fuel rest, (size x ≤ fuel)%nat → delimited rest →
    scan_once fuel (iterencode level x ++ rest) = Some (x, rest).

(** A key and its value, as the encoder writes them. *)
Definition item_text (level : nat) (kv : text * pyval) : text :=
  encode_basestring_ascii kv.1 ++ txt ": " ++ iterencode level kv.2.

(** ** The two scripts

    What the files do when they are run, the block under
    [if __name__ == "__main__"] of each. *)

(** extract.py: the Open-Meteo fetcher over a transport, the repository at
    its default path, and the default coordinates. *)
Definition extract_main (get : Extract.transport) : M unit :=
  let fetcher := Extract.OpenMeteoFetcher get in
  let repository := {| Extract.storage_path := Extract.default_storage_path |} in
  let service := {| Extract.fetcher := fetcher; Extract.repository := repository |} in
  Extract.fetch_and_save_weather_data service Extract.default_latitude Extract.default_longitude.

(** transform.py: the repository at its default path and the Open-Meteo
    transformer. *)
Definition transform_main (to_csv_text : DataFrame → text) : M unit :=
  let repository := {| Transform.storage_path := Transform.default_storage_path |} in
  let transformer := Transform.OpenMeteoTransformer in
  Transform.transform_and_save to_csv_text
    {| Transform.repository := repository; Transform.transformer := transformer |}.

(** The request [OpenMeteoFetcher.fetch] sends for the default
    coordinates. *)
Definition open_meteo_url : text := txt "https://api.open-meteo.com/v1/forecast".

Definition default_params : list (text * pyval) :=
  [(txt "latitude", Extract.default_latitude);
   (txt "longitude", Extract.default_longitude);
   (txt "hourly", PStr (txt "temperature_2m,precipitation"))].

(** ** Notions for the properties of the storage, the texts and the tables *)

(** A text of ASCII characters. *)
Definition ascii_text (s : text) : bool := forallb (λ c, c <? 128) s.

(** A text of white space only, the empty text included. *)
Definition blank (s : text) : bool := forallb is_ws s.

(** A path with no separator: a bare file name, or the empty path. *)
Definition bare_name (p : text) : bool := forallb (λ c, negb (is_sep c)) p.

(** The two classes [os.makedirs] raises when a regular file lies where it
    needs a directory. *)
Definition in_the_way (e : exn) : bool :=
  match e with
  | FileExistsError _ | NotADirectoryError _ => true
  | _ => false
  end.

(** The table [transform] builds from three lists. *)
Definition table_of (ts temps precs : list pyval) : DataFrame :=
  {| df_index := RangeIndex (length ts);
     df_columns := [(Transform.Timestamp, map Val ts);
                    (Transform.Temperature, map Val temps);
                    (Transform.Precipitation, map Val precs)] |}.

(** The three arrays of a document, when each level is a mapping and has
    the key. *)
Definition hourly_arrays (raw_data : pyval) : outcome (pyval * pyval * pyval) :=
  hourly ← getitem raw_data (txt "hourly");
  timestamps ← getitem hourly (txt "time");
  temperatures ← getitem hourly (txt "temperature_2m");
  precipitation ← getitem hourly (txt "precipitation");
  mret (timestamps, temperatures, precipitation).

(** A value that is neither a list nor a mapping: [None], a boolean, a
    number or a string. *)
Definition is_scalar (v : pyval) : bool :=
  match v with
  | PList _ | PDict _ => false
  | _ => true
  end.

(** A value a table of [n] rows can take as a column without a label
    index: a scalar, or a list of [n] entries. *)
Definition fits (n : nat) (v : pyval) : bool :=
  match v with
  | PList l => bool_decide (length l = n)
  | PDict _ => false
  | _ => true
  end.

(** A list pandas makes a column of without converting its entries: all
    of them strings, all of them floats, or all of them integers of 64
    bits. *)
Definition one_kind (l : list pyval) : bool :=
  forallb (λ v, match v with PStr _ => true | _ => false end) l
  || forallb (λ v, match v with PFloat _ => true | _ => false end) l
  || forallb (λ v, match v with
                   | PInt n => (- 2 ^ 63 <=? n)%Z && (n <? 2 ^ 63)%Z
                   | _ => false
                   end) l.

(** No mapping of the value, at any depth, has the same key twice. *)
Fixpoint keys_distinct (v : pyval) : bool :=
  match v with
  | PList l => forallb keys_distinct l
  | PDict d => forallb (λ kv, keys_distinct kv.2) d && distinct (map fst d)
  | _ => true
  end.

(** ** More sample data *)

(** A store with one file of somebody else's in the data directory. *)
Definition notes_world : world :=
  World {[ txt "data/notes.txt" := File (txt "keep") ]} [] [].

(** A store in which a regular file has the name of the data directory. *)
Definition blocked_world : world := World {[ txt "data" := File [] ]} [] [].

(** The worlds in which the raw file holds the document of the happy path,
    and the document with arrays of unequal lengths. *)
Definition happy_world : world :=
  (Extract.save {| Extract.storage_path := Extract.default_storage_path |}
     happy_doc empty_world).2.

Definition uneven_world : world :=
  (Extract.save {| Extract.storage_path := Extract.default_storage_path |}
     uneven_doc empty_world).2.

(** A document with two readings, and the world in which the raw file
    holds it. *)
Definition two_hours_doc : pyval :=
  PDict [(txt "latitude", PFloat (FFinite false (txt "4071") 2));
         (txt "hourly",
          PDict [(txt "time", PList [PStr (txt "2024-01-01T00:00");
                                     PStr (txt "2024-01-01T01:00")]);
                 (txt "temperature_2m", PList [PFloat (FFinite false (txt "5") 1);
                                               PFloat (FFinite true (txt "15") 1)]);
                 (txt "precipitation", PList [PInt 0; PInt 2])])].

Definition two_hours_world : world :=
  (Extract.save {| Extract.storage_path := Extract.default_storage_path |}
     two_hours_doc empty_world).2.

(** The command of the default repository and the Open-Meteo transformer. *)
Definition default_command : Transform.WeatherTransformationCommand :=
  {| Transform.repository := {| Transform.storage_path := Transform.default_storage_path |};
     Transform.transformer := Transform.OpenMeteoTransformer |}.

(** A transport that answers every request with status 200 and a given
    body. *)
Definition answering (body : pyval) : Extract.transport :=
  λ _ _, Return {| Extract.status_code := 200; Extract.json := Return body |}.


(** * The definitions on small inputs *)

Example dumps_nested :
  json_dumps (PList [PInt 1; PFloat (FFinite false (txt "5") 1); PNone; PList []; PDict []])
  = txt "[
    1,
    5.0,
    null,
    [],
    {}
]".
Proof. reflexivity. Qed.

Example dumps_escapes :
  encode_basestring_ascii [176; 67; 10; 128512]
  = 34 :: txt "\u00b0C\n\ud83d\ude00" ++ [34].
Proof. reflexivity. Qed.

Example repr_positional : floatstr (FFinite false (txt "4071") 2) = txt "40.71".
Proof. reflexivity. Qed.

Example repr_small : floatstr (FFinite true (txt "15") (-4)) = txt "-1.5e-05".
Proof. reflexivity. Qed.

Example repr_large : floatstr (FFinite false (txt "1") 17) = txt "1e+16".
Proof. reflexivity. Qed.

Example repr_integral : floatstr (FFinite false (txt "1") 16) = txt "1000000000000000.0".
Proof. reflexivity. Qed.

Example loads_numbers :
  json_loads (txt " [1, 2.50, -0.0, 1E2, -7] ")
  = Some (PList [PInt 1; PFloat (FFinite false (txt "25") 1); PFloat (FFinite true [] 0);
                 PFloat (FFinite false (txt "1") 3); PInt (-7)]).
Proof. reflexivity. Qed.

Example loads_trailing_comma : json_loads (txt "[1,]") = None.
Proof. reflexivity. Qed.

Example loads_leading_zero : json_loads (txt "01") = None.
Proof. reflexivity. Qed.

Example dirname_default : dirname Extract.default_storage_path = txt "data".
Proof. reflexivity. Qed.

Example dirname_nested : dirname (txt "/var/data/raw/weather.json") = txt "/var/data/raw".
Proof. reflexivity. Qed.

Example dirname_bare : dirname (txt "weather.json") = [].
Proof. reflexivity. Qed.

Example makedirs_inside_a_file :
  makedirs (txt "data/raw/2024") blocked_world
  = (Raise (NotADirectoryError (txt "data/raw")), blocked_world).
Proof. vm_compute. reflexivity. Qed.

Example makedirs_onto_a_file :
  makedirs (txt "data") blocked_world = (Raise (FileExistsError (txt "data")), blocked_world).
Proof. vm_compute. reflexivity. Qed.

Example ancestors_nested :
  ancestors (txt "var/data/raw") = [txt "var"; txt "var/data"; txt "var/data/raw"].
Proof. reflexivity. Qed.

Example table_of_scalars :
  DataFrame_of_dict [(txt "a", PInt 1); (txt "b", PStr (txt "x"))] = Raise ValueError.
Proof. reflexivity. Qed.

Example table_broadcasts_scalar :
  (DataFrame_of_dict [(txt "a", PList [PInt 1; PInt 2]); (txt "b", PNone)]
     ≫= λ df, mret (df_rows df))
  = Return [[Val (PInt 1); Val PNone]; [Val (PInt 2); Val PNone]].
Proof. reflexivity. Qed.

Example table_of_uneven_lists :
  DataFrame_of_dict [(txt "a", PList [PInt 1; PInt 2]); (txt "b", PList [PInt 3])]
  = Raise ValueError.
Proof. reflexivity. Qed.

(** ** Round trip of the json codec: strings *)

Ltac euclid := zify; Z.to_euclidean_division_equations; lia.

(** Case analysis on the comparisons of a goal about boolean tests. *)
Ltac cmp_cases :=
  repeat match goal with
         | |- context [N.leb ?a ?b] => destruct (N.leb_spec a b)
         | |- context [N.ltb ?a ?b] => destruct (N.ltb_spec a b)
         | |- context [N.eqb ?a ?b] => destruct (N.eqb_spec a b)
         | H : context [N.leb ?a ?b] |- _ => destruct (N.leb_spec a b)
         | H : context [N.ltb ?a ?b] |- _ => destruct (N.ltb_spec a b)
         | H : context [N.eqb ?a ?b] |- _ => destruct (N.eqb_spec a b)
         end;
  cbn [andb orb negb] in *; try done; try lia.

Lemma hexval_hexdigit d : d < 16 → hexval (hexdigit d) = Some d.
Proof.
  intros Hd. destruct d as [|p]; [reflexivity|].
  do 4 (destruct p as [p|p|]; try reflexivity; try lia).
Qed.

Lemma decode_hex4 n :
  n < 65536 →
  decode_uXXXX (hexdigit (N.shiftr n 12 mod 16)) (hexdigit (N.shiftr n 8 mod 16))
               (hexdigit (N.shiftr n 4 mod 16)) (hexdigit (n mod 16)) = Some n.
Proof.
  intros Hn. unfold decode_uXXXX.
  rewrite !hexval_hexdigit by (apply N.mod_lt; lia). f_equal.
  rewrite !N.shiftr_div_pow2.
  change (2 ^ 12) with 4096. change (2 ^ 8) with 256. change (2 ^ 4) with 16.
  replace (n / 4096) with (n / 16 / 16 / 16) by (rewrite !N.Div0.div_div; reflexivity).
  replace (n / 256) with (n / 16 / 16) by (rewrite !N.Div0.div_div; reflexivity).
  euclid.
Qed.

Lemma testbit_small b k i : b < 2 ^ k → k ≤ i → N.testbit b i = false.
Proof.
  intros Hb Hi. destruct (N.eq_dec b 0) as [->|Hnz]; [apply N.bits_0|].
  apply N.bits_above_log2. apply N.lt_le_trans with k; [|done].
  apply N.log2_lt_pow2; lia.
Qed.

Lemma lor_shifted a b k : b < 2 ^ k → N.lor (a * 2 ^ k) b = a * 2 ^ k + b.
Proof.
  intros Hb.
  assert (Hland : N.land (a * 2 ^ k) b = 0).
  { apply N.bits_inj. intros i. rewrite N.land_spec, N.bits_0, <- N.shiftl_mul_pow2.
    destruct (N.lt_ge_cases i k) as [Hlt|Hge].
    - by rewrite N.shiftl_spec_low.
    - rewrite (testbit_small b k i) by done. apply andb_false_r. }
  by rewrite N.add_nocarry_lxor, N.lxor_lor.
Qed.

Lemma surrogate_pair c :
  65536 ≤ c → c < 1114112 →
  let n := c - 65536 in
  let s1 := N.lor 55296 (N.land (N.shiftr n 10) 1023) in
  let s2 := N.lor 56320 (N.land n 1023) in
  s1 < 65536 ∧ s2 < 65536 ∧
  is_high_surrogate s1 = true ∧ is_low_surrogate s2 = true ∧
  join_surrogates s1 s2 = c.
Proof.
  intros Hlo Hhi n s1 s2.
  assert (Hs1 : s1 = 55296 + n / 1024).
  { unfold s1. change 1023 with (N.ones 10). rewrite N.land_ones, N.shiftr_div_pow2.
    change 55296 with (54 * 2 ^ 10). rewrite lor_shifted by (apply N.mod_lt; by apply N.pow_nonzero).
    change (2 ^ 10) with 1024. subst n. euclid. }
  assert (Hs2 : s2 = 56320 + n mod 1024).
  { unfold s2. change 1023 with (N.ones 10). rewrite N.land_ones.
    change 56320 with (55 * 2 ^ 10). rewrite lor_shifted by (apply N.mod_lt; by apply N.pow_nonzero).
    reflexivity. }
  assert (Hj : join_surrogates s1 s2 = c).
  { unfold join_surrogates. rewrite Hs1, Hs2, N.shiftl_mul_pow2.
    replace (55296 + n / 1024 - 55296) with (n / 1024) by euclid.
    replace (56320 + n mod 1024 - 56320) with (n mod 1024) by euclid.
    rewrite lor_shifted by (apply N.mod_lt; by apply N.pow_nonzero).
    change (2 ^ 10) with 1024. subst n. euclid. }
  unfold is_high_surrogate, is_low_surrogate.
  repeat split; try done; subst n; rewrite ?Hs1, ?Hs2;
    try (apply andb_true_iff; split; apply N.leb_le); euclid.
Qed.

(** One step of [scanstring] for each kind of chunk. *)

Lemma scanstring_quote r acc : scanstring (34 :: r) acc = Some (rev acc, r).
Proof. reflexivity. Qed.

Lemma scanstring_plain c r acc :
  c ≠ 34 → c ≠ 92 → 32 ≤ c → scanstring (c :: r) acc = scanstring r (c :: acc).
Proof.
  intros H1 H2 H3. cbn [scanstring].
  rewrite (proj2 (N.eqb_neq c 34)), (proj2 (N.eqb_neq c 92)) by done.
  by rewrite (proj2 (N.ltb_ge c 32)).
Qed.

Lemma scanstring_backslash e ch r acc :
  e ≠ 117 → backslash e = Some ch →
  scanstring (92 :: e :: r) acc = scanstring r (ch :: acc).
Proof.
  intros H1 H2. cbn [scanstring]. change (92 =? 34) with false. change (92 =? 92) with true.
  cbv iota. rewrite (proj2 (N.eqb_neq e 117)) by done. by rewrite H2.
Qed.

Lemma scanstring_uXXXX a b c d uni r acc :
  decode_uXXXX a b c d = Some uni → is_high_surrogate uni = false →
  scanstring (92 :: 117 :: a :: b :: c :: d :: r) acc = scanstring r (uni :: acc).
Proof.
  intros H1 H2. cbn [scanstring]. change (92 =? 34) with false. change (92 =? 92) with true.
  change (117 =? 117) with true. cbv iota. by rewrite H1, H2.
Qed.

Lemma scanstring_pair a b c d a2 b2 c2 e2 hi lo r acc :
  decode_uXXXX a b c d = Some hi → is_high_surrogate hi = true →
  decode_uXXXX a2 b2 c2 e2 = Some lo → is_low_surrogate lo = true →
  scanstring (92 :: 117 :: a :: b :: c :: d :: 92 :: 117 :: a2 :: b2 :: c2 :: e2 :: r) acc
  = scanstring r (join_surrogates hi lo :: acc).
Proof.
  intros H1 H2 H3 H4. cbn [scanstring]. change (92 =? 34) with false.
  change (92 =? 92) with true. change (117 =? 117) with true. cbv iota.
  rewrite H1, H2. cbn [andb]. by rewrite H3, H4.
Qed.

Lemma scanstring_escape_char c r acc :
  scalar_value c = true →
  scanstring (escape_char c ++ r) acc = scanstring r (c :: acc).
Proof.
  intros Hc. unfold escape_char.
  repeat match goal with
         | |- context [if ?x =? ?k then _ else _] =>
             destruct (N.eqb_spec x k) as [->|?]; [reflexivity|]
         end.
  destruct (_ && _) eqn:Hp.
  - apply andb_true_iff in Hp as [Hp1%N.leb_le Hp2]. by apply scanstring_plain.
  - destruct (N.ltb_spec c 65536) as [Hlt|Hge].
    + apply scanstring_uXXXX; [by apply decode_hex4|].
      unfold scalar_value, is_high_surrogate in *. cmp_cases.
    + assert (c < 1114112) by (unfold scalar_value in Hc; cmp_cases).
      destruct (surrogate_pair c) as (Hs1 & Hs2 & Hh & Hl & Hj); [lia..|].
      cbv zeta in *. unfold uescape, hex4. cbn [app].
      erewrite scanstring_pair; [by rewrite Hj|by apply decode_hex4|done|by apply decode_hex4|done].
Qed.

Lemma scanstring_flat_map s rest acc :
  wf_str s = true →
  scanstring (flat_map escape_char s ++ 34 :: rest) acc = Some (rev acc ++ s, rest).
Proof.
  revert acc. induction s as [|c s IH]; intros acc Hs.
  - cbn. by rewrite app_nil_r.
  - cbn in Hs. apply andb_true_iff in Hs as [Hc Hs].
    cbn [flat_map]. rewrite <- app_assoc, scanstring_escape_char by done.
    rewrite IH by done. cbn [rev]. by rewrite <- app_assoc.
Qed.

(** A string read back after [encode_basestring_ascii]. *)
Lemma scanstring_encode s rest :
  wf_str s = true →
  scanstring (flat_map escape_char s ++ 34 :: rest) [] = Some (s, rest).
Proof. intros Hs. by rewrite scanstring_flat_map. Qed.

(** ** Round trip of the json codec: numbers *)

Lemma span_digits_app ds rest :
  forallb is_digit ds = true → head_is is_digit rest = false →
  span_digits (ds ++ rest) = (ds, rest).
Proof.
  intros Hds Hrest. induction ds as [|c ds IH]; cbn [app span_digits].
  - destruct rest as [|c r]; [done|]. cbn [head_is] in Hrest.
    cbn [span_digits]. by rewrite Hrest.
  - cbn [forallb] in Hds. apply andb_true_iff in Hds as [Hc Hds]. by rewrite Hc, IH.
Qed.

Lemma uint_digits_are_digits u : forallb is_digit (uint_digits u) = true.
Proof. induction u; cbn; by rewrite ?IHu. Qed.

Lemma digits_uint_digits u : digits_uint (uint_digits u) = u.
Proof. induction u; cbn; by rewrite ?IHu. Qed.

Lemma digits_N_digits n : digits_N (N_digits n) = n.
Proof.
  unfold digits_N, N_digits. rewrite digits_uint_digits. apply DecimalN.Unsigned.of_to.
Qed.

Lemma N_digits_are_digits n : forallb is_digit (N_digits n) = true.
Proof. apply uint_digits_are_digits. Qed.

(** The digits of a number are written without a leading zero, apart from
    the single digit of zero. *)
Lemma N_to_uint_canonical n :
  N.to_uint n ≠ Nil ∧ ∀ u, N.to_uint n = D0 u → u = Nil.
Proof.
  assert (Hn : unorm (N.to_uint n) = N.to_uint n).
  { by rewrite <- DecimalN.Unsigned.to_of, DecimalN.Unsigned.of_to. }
  split.
  - rewrite <- Hn. apply DecimalFacts.unorm_nonnil.
  - intros u Hu. rewrite Hu in Hn. unfold unorm in Hn. cbn [nzhead] in Hn.
    destruct (nzhead u) eqn:Hz; try by inversion Hn.
    by destruct (DecimalFacts.nzhead_nonzero u u0).
Qed.


Lemma N_digits_canonical n : canonical_int (N_digits n).
Proof.
  split; [apply N_digits_are_digits|].
  unfold N_digits. destruct (N_to_uint_canonical n) as [Hnil H0].
  destruct (N.to_uint n) eqn:Hu; cbn; try done.
  intros _. by rewrite (H0 u).
Qed.

Lemma canonical_int_head ds :
  canonical_int ds → ∃ c r, ds = c :: r ∧ is_digit c = true.
Proof.
  intros [Hd Hc]. destruct ds as [|c r]; [done|]. exists c, r.
  cbn in Hd. by apply andb_true_iff in Hd as [? _].
Qed.

Lemma scan_intpart_canonical ds rest :
  canonical_int ds → head_is is_digit rest = false →
  scan_intpart (ds ++ rest) = Some (ds, rest).
Proof.
  intros [Hd Hc] Hrest. destruct ds as [|c r]; [done|].
  cbn in Hd. apply andb_true_iff in Hd as [Hd1 Hd2].
  cbn [app scan_intpart]. rewrite Hd1. cbn [negb].
  destruct (N.eqb_spec c 48) as [->|Hne].
  - by rewrite (Hc eq_refl).
  - by rewrite span_digits_app.
Qed.



Lemma ends_number_no_digit rest : ends_number rest → head_is is_digit rest = false.
Proof.
  destruct rest as [|c r]; [done|]. unfold ends_number, number_end. cbn.
  by destruct (is_digit c).
Qed.

Lemma scan_frac_none rest : ends_number rest → scan_frac rest = (None, rest).
Proof.
  destruct rest as [|c [|c' r]]; try done. unfold ends_number, number_end. cbn.
  destruct (N.eqb_spec c 46) as [->|?]; [done|]. done.
Qed.

Lemma scan_frac_exp_mark s : scan_frac (101 :: s) = (None, 101 :: s).
Proof. by destruct s. Qed.

Lemma scan_frac_some ds rest :
  ds ≠ [] → forallb is_digit ds = true → head_is is_digit rest = false →
  scan_frac (46 :: ds ++ rest) = (Some ds, rest).
Proof.
  intros Hne Hd Hrest. destruct ds as [|c r]; [done|].
  pose proof Hd as Hd'. cbn in Hd'. apply andb_true_iff in Hd' as [Hc _].
  cbn [app scan_frac]. change (46 =? 46) with true. rewrite Hc. cbn [andb].
  change (c :: r ++ rest) with ((c :: r) ++ rest). by rewrite span_digits_app.
Qed.

Lemma scan_exponent_none rest : ends_number rest → scan_exponent rest = (None, rest).
Proof.
  destruct rest as [|c r]; [done|]. unfold ends_number, number_end. cbn.
  destruct (N.eqb_spec c 101) as [->|?]; [done|].
  destruct (N.eqb_spec c 69) as [->|?]; [done|]. done.
Qed.

Lemma scan_exponent_some (sg : bool) ds rest :
  ds ≠ [] → forallb is_digit ds = true → head_is is_digit rest = false →
  scan_exponent (101 :: (if sg then 45 else 43) :: ds ++ rest) = (Some (sg, ds), rest).
Proof.
  intros Hne Hd Hrest. cbn [scan_exponent]. change (101 =? 101) with true. cbn [orb].
  assert (Hs : scan_exp_sign ((if sg then 45 else 43) :: ds ++ rest) = (sg, ds ++ rest))
    by by destruct sg.
  rewrite Hs, span_digits_app by done. by destruct ds.
Qed.



(** A literal written from its parts is matched back into them. *)
Lemma match_number_literal neg ip frac ex rest :
  canonical_int ip → digits_part frac → digits_part (snd <$> ex) → ends_number rest →
  match_number (number_literal neg ip frac ex ++ rest)
  = Some (number_value neg ip frac ex, rest).
Proof.
  intros Hip Hfrac Hex Hrest. unfold match_number, number_literal.
  pose proof (ends_number_no_digit _ Hrest) as Hnd.
  destruct (canonical_int_head _ Hip) as (c & r & -> & Hc).
  set (extxt := match ex with
                | Some (sg, ds) => 101 :: (if sg then 45 else 43) :: ds
                | None => []
                end).
  set (ftxt := match frac with Some f => 46 :: f | None => [] end).
  assert (Hminus : scan_minus (((if neg then [45] else []) ++ (c :: r) ++ ftxt ++ extxt) ++ rest)
                   = (neg, (c :: r) ++ (ftxt ++ extxt ++ rest))).
  { rewrite <- !app_assoc. destruct neg; cbn; [done|].
    destruct (N.eqb_spec c 45) as [->|?]; done. }
  rewrite Hminus.
  assert (Hexd : head_is is_digit (extxt ++ rest) = false).
  { subst extxt. destruct ex as [[sg ds]|]; done. }
  assert (Hfd : head_is is_digit (ftxt ++ extxt ++ rest) = false).
  { subst ftxt. destruct frac; done. }
  rewrite scan_intpart_canonical by done.
  assert (Hf : scan_frac (ftxt ++ extxt ++ rest) = (frac, extxt ++ rest)).
  { subst ftxt. destruct frac as [f|]; cbn [app].
    - destruct Hfrac. by apply scan_frac_some.
    - subst extxt. destruct ex as [[sg ds]|]; cbn [app].
      + apply scan_frac_exp_mark.
      + by apply scan_frac_none. }
  rewrite Hf.
  assert (He : scan_exponent (extxt ++ rest) = (ex, rest)).
  { subst extxt. destruct ex as [[sg ds]|]; cbn [app].
    - destruct Hex. by apply scan_exponent_some.
    - by apply scan_exponent_none. }
  rewrite He. unfold number_value. by destruct frac, ex.
Qed.

Lemma match_number_int z rest :
  ends_number rest → match_number (int_repr z ++ rest) = Some (PInt z, rest).
Proof.
  intros Hrest. unfold int_repr.
  rewrite match_number_literal; [|apply N_digits_canonical|done..].
  unfold number_value, int_of_literal. rewrite digits_N_digits.
  do 3 f_equal. destruct (Z.ltb_spec z 0); lia.
Qed.

(** *** Floats *)

Lemma strip_zeros_head c r : c ≠ 48 → strip_zeros (c :: r) = c :: r.
Proof.
  intros Hc. cbn [strip_zeros]. unfold is_zero_digit.
  by rewrite (proj2 (N.eqb_neq c 48)).
Qed.

Lemma strip_zeros_zeros k s : strip_zeros (zeros k ++ s) = strip_zeros s.
Proof. induction k as [|k IH]; [done|]. cbn. apply IH. Qed.

Lemma zeros_snoc k : zeros k ++ [48] = zeros (S k).
Proof. induction k as [|k IH]; [done|]. cbn. f_equal. apply IH. Qed.

Lemma rev_zeros k : rev (zeros k) = zeros k.
Proof.
  induction k as [|k IH]; [done|].
  change (zeros (S k)) with (48 :: zeros k) at 1. cbn [rev].
  by rewrite IH, zeros_snoc.
Qed.

Lemma zeros_are_digits k : forallb is_digit (zeros k) = true.
Proof. induction k as [|k IH]; [done|]. cbn. apply IH. Qed.

Lemma forallb_take_drop (P : N → bool) n (l : text) :
  forallb P l = true → forallb P (take n l) = true ∧ forallb P (drop n l) = true.
Proof.
  intros H. rewrite <- (take_drop n l), forallb_app in H.
  by apply andb_true_iff in H.
Qed.

Lemma length_zeros k : length (zeros k) = k.
Proof. apply length_replicate. Qed.


Lemma wf_float_significant neg c ds decpt :
  wf_float (FFinite neg (c :: ds) decpt) = true → significant (c :: ds).
Proof.
  cbn [wf_float]. intros H.
  apply andb_true_iff in H as [H H3]. apply andb_true_iff in H as [H1 H2].
  repeat split; try done.
  - cbn [hd]. by destruct (N.eqb_spec c 48).
  - by destruct (N.eqb_spec (List.last (c :: ds) 48) 48).
Qed.

Lemma significant_strip ds s : significant ds → strip_zeros (ds ++ s) = ds ++ s.
Proof.
  intros (Hne & _ & Hhd & _). destruct ds as [|c r]; [done|].
  by apply strip_zeros_head.
Qed.

Lemma significant_rev_strip ds : significant ds → strip_zeros (rev ds) = rev ds.
Proof.
  intros (Hne & _ & _ & Hlast).
  rewrite (app_removelast_last 48 Hne), rev_unit.
  by apply strip_zeros_head.
Qed.


(** The float of a literal whose digits are the significant digits between
    two runs of zeros. *)
Lemma float_of_literal_padded neg ip frac ex ds a b :
  significant ds →
  ip ++ default [] frac = zeros a ++ ds ++ zeros b →
  float_of_literal neg ip frac ex
  = FFinite neg ds (Z.of_nat (length ip) + exp_value ex - Z.of_nat a).
Proof.
  intros Hds Hall. unfold float_of_literal. rewrite Hall.
  rewrite strip_zeros_zeros, significant_strip by done.
  rewrite rev_app_distr, rev_zeros, strip_zeros_zeros, significant_rev_strip by done.
  rewrite rev_involutive.
  replace (length (zeros a ++ ds ++ zeros b) - length (ds ++ zeros b))%nat with a
    by (rewrite !length_app, length_zeros; lia).
  destruct Hds as (Hne & _). destruct ds; [done|].
  by destruct ex as [[sg e]|].
Qed.

Lemma exp_parts_spec e :
  let '(sg, ds) := exp_parts e in
  ds ≠ [] ∧ forallb is_digit ds = true ∧ int_of_literal sg ds = e.
Proof.
  unfold exp_parts.
  assert (Hv : ∀ b : bool,
    int_of_literal (e <? 0)%Z (if b then 48 :: N_digits (Z.abs_N e) else N_digits (Z.abs_N e)) = e).
  { intros b. unfold int_of_literal.
    assert (Hd : digits_N (if b then 48 :: N_digits (Z.abs_N e) else N_digits (Z.abs_N e))
                 = Z.abs_N e).
    { destruct b; [|apply digits_N_digits].
      rewrite <- (digits_N_digits (Z.abs_N e)) at 2. reflexivity. }
    rewrite Hd. destruct (Z.ltb_spec e 0); lia. }
  destruct (N_digits_canonical (Z.abs_N e)) as [Hd Hc].
  split; [|split; [|apply Hv]].
  - destruct (_ <? 10); [done|]. by destruct (N_digits (Z.abs_N e)).
  - destruct (_ <? 10); [|done]. cbn [forallb]. by rewrite Hd.
Qed.

Lemma number_value_exp neg ip frac e :
  number_value neg ip frac (Some e) = PFloat (float_of_literal neg ip frac (Some e)).
Proof. by destruct frac. Qed.

(** The parts [float.__repr__] writes are those of a literal, and the
    literal denotes the float. *)
Lemma float_parts_spec neg ds decpt :
  wf_float (FFinite neg ds decpt) = true →
  let '(ip, frac, ex) := float_parts ds decpt in
  canonical_int ip ∧ digits_part frac ∧ digits_part (snd <$> ex) ∧
  number_value neg ip frac ex = PFloat (FFinite neg ds decpt).
Proof.
  intros Hwf. destruct ds as [|c1 rest].
  { cbn [wf_float] in Hwf. apply Z.eqb_eq in Hwf as ->. cbn. by repeat split. }
  pose proof (wf_float_significant _ _ _ _ Hwf) as Hsig.
  destruct Hsig as (Hne & Hdig & Hhd & Hlast). cbn [hd] in Hhd.
  pose proof (conj Hne (conj Hdig (conj Hhd Hlast)) : significant (c1 :: rest)) as Hsig.
  unfold float_parts.
  destruct ((-4 <? decpt)%Z && (decpt <=? 16)%Z) eqn:Hrange.
  - destruct (Z.leb_spec decpt 0) as [Hle|Hgt].
    + (* 0.000ddd *)
      repeat split; try done.
      * by destruct (zeros _).
      * rewrite forallb_app, zeros_are_digits. apply Hdig.
      * unfold number_value.
        rewrite (float_of_literal_padded _ _ _ _ (c1 :: rest) (S (Z.to_nat (- decpt))) 0);
          [|done|cbn [default from_option id zeros replicate app]; by rewrite app_nil_r].
        do 2 f_equal. cbn [length exp_value]. lia.
    + destruct (Z.ltb_spec decpt (Z.of_nat (length (c1 :: rest)))) as [Hlt|Hge].
      * (* ddd.ddd *)
        assert (Hk : (0 < Z.to_nat decpt < length (c1 :: rest))%nat) by lia.
        repeat split.
        -- by apply forallb_take_drop.
        -- destruct (Z.to_nat decpt) as [|k]; [lia|]. cbn [take]. by intros ->.
        -- intros Hnil. apply (f_equal length) in Hnil. rewrite length_drop in Hnil.
           cbn [length] in *. lia.
        -- by apply forallb_take_drop.
        -- unfold number_value.
           rewrite (float_of_literal_padded _ _ _ _ (c1 :: rest) 0 0);
             [|done|cbn [default from_option id zeros replicate app]; by rewrite app_nil_r, take_drop].
           do 2 f_equal. rewrite length_take. cbn [exp_value]. lia.
      * (* ddd000.0 *)
        repeat split; try done.
        -- rewrite forallb_app, zeros_are_digits, andb_true_r. apply Hdig.
        -- cbn [app]. by intros ->.
        -- unfold number_value.
           rewrite (float_of_literal_padded _ _ _ _ (c1 :: rest) 0
                      (S (Z.to_nat decpt - length (c1 :: rest)))).
           ++ do 2 f_equal. rewrite length_app, length_zeros. cbn [exp_value]. lia.
           ++ done.
           ++ cbn [default from_option id]. by rewrite <- app_assoc, zeros_snoc.
  - (* d.ddde+XX *)
    pose proof (exp_parts_spec (decpt - 1)) as Hexp.
    destruct (exp_parts (decpt - 1)) as [sg eds]. destruct Hexp as (He1 & He2 & He3).
    assert (Hrest : forallb is_digit rest = true).
    { cbn [forallb] in Hdig. by apply andb_true_iff in Hdig as [? ?]. }
    assert (Hc1 : is_digit c1 = true).
    { cbn [forallb] in Hdig. by apply andb_true_iff in Hdig as [? ?]. }
    repeat split; try done.
    + cbn [forallb]. by rewrite Hc1.
    + destruct rest; [done|]. by split.
    + rewrite number_value_exp.
      rewrite (float_of_literal_padded _ _ _ _ (c1 :: rest) 0 0).
      * do 2 f_equal. cbn [length exp_value]. lia.
      * done.
      * cbn [default from_option id zeros replicate app]. rewrite app_nil_r. by destruct rest.
Qed.

Lemma match_number_float neg ds decpt rest :
  wf_float (FFinite neg ds decpt) = true → ends_number rest →
  match_number (float_repr neg ds decpt ++ rest)
  = Some (PFloat (FFinite neg ds decpt), rest).
Proof.
  intros Hwf Hrest. unfold float_repr.
  pose proof (float_parts_spec neg ds decpt Hwf) as Hparts.
  destruct (float_parts ds decpt) as [[ip frac] ex].
  destruct Hparts as (H1 & H2 & H3 & H4).
  by rewrite match_number_literal, H4.
Qed.

(** ** Round trip of the json codec: values *)




Lemma delimited_ends_number rest : delimited rest → ends_number rest.
Proof. destruct rest as [|c r]; [done|]. by intros [-> | ->]. Qed.

Lemma skip_ws_head c s : is_ws c = false → skip_ws (c :: s) = c :: s.
Proof. intros H. cbn [skip_ws]. by rewrite H. Qed.

Lemma skip_ws_spaces n s : skip_ws (replicate n 32 ++ s) = skip_ws s.
Proof. induction n as [|n IH]; [done|]. cbn. apply IH. Qed.

Lemma skip_ws_newline_indent level s : skip_ws (newline_indent level ++ s) = skip_ws s.
Proof. unfold newline_indent. cbn [app skip_ws]. apply skip_ws_spaces. Qed.

Lemma value_start_not_ws c : value_start c = true → is_ws c = false.
Proof.
  intros H. unfold is_ws.
  repeat match goal with
         | |- context [N.eqb c ?k] =>
             destruct (N.eqb_spec c k) as [->|?]; [by vm_compute in H|]
         end.
  done.
Qed.

Lemma number_literal_head neg ip frac ex :
  canonical_int ip →
  ∃ c r, number_literal neg ip frac ex = c :: r ∧ (is_digit c || (c =? 45)) = true.
Proof.
  intros Hip. destruct (canonical_int_head _ Hip) as (c & r & -> & Hc).
  unfold number_literal. destruct neg; cbn [app]; eauto.
  eexists _, _. split; [done|]. by rewrite Hc.
Qed.

(** A value is written starting with one of the characters of
    [value_start]. *)
Lemma iterencode_head level d :
  json_value d = true → ∃ c r, iterencode level d = c :: r ∧ value_start c = true.
Proof.
  intros Hd. destruct d as [|[]|z|x|s|[|y l]|[|kv d]];
    try (eexists _, _; split; [reflexivity|reflexivity]).
  - destruct (number_literal_head (z <? 0)%Z (N_digits (Z.abs_N z)) None None)
      as (c & r & Hr & Hc); [apply N_digits_canonical|].
    exists c, r. split; [done|]. unfold value_start.
    apply orb_true_iff in Hc as [-> | ->]; by rewrite ?orb_true_r.
  - destruct x as [neg ds decpt|[]|]; try (eexists _, _; split; [reflexivity|reflexivity]).
    cbn [iterencode floatstr]. unfold float_repr.
    pose proof (float_parts_spec neg ds decpt Hd) as Hparts.
    destruct (float_parts ds decpt) as [[ip frac] ex]. destruct Hparts as (Hip & _).
    destruct (number_literal_head neg ip frac ex Hip) as (c & r & Hr & Hc).
    exists c, r. split; [done|]. unfold value_start.
    apply orb_true_iff in Hc as [-> | ->]; by rewrite ?orb_true_r.
Qed.

(** The decoder on a text that starts with a number. *)
Lemma scan_once_number fuel s res :
  head_is (λ c, is_digit c || (c =? 45)) s = true →
  match_number s = Some res →
  scan_once (S fuel) s = Some res.
Proof.
  intros Hhd Hnum. destruct s as [|c r]; [done|]. cbn [head_is] in Hhd.
  cbn [scan_once].
  assert (Hc : c ≠ 34 ∧ c ≠ 123 ∧ c ≠ 91 ∧ c ≠ 110 ∧ c ≠ 116 ∧ c ≠ 102).
  { repeat split; intros ->; by vm_compute in Hhd. }
  destruct Hc as (H1 & H2 & H3 & H4 & H5 & H6).
  rewrite (proj2 (N.eqb_neq c 34)), (proj2 (N.eqb_neq c 123)), (proj2 (N.eqb_neq c 91)) by done.
  cbn [txt list_ascii_of_string map strip_prefix].
  change (N_of_ascii "n") with 110. change (N_of_ascii "t") with 116.
  change (N_of_ascii "f") with 102.
  rewrite (proj2 (N.eqb_neq 110 c)), (proj2 (N.eqb_neq 116 c)), (proj2 (N.eqb_neq 102 c)) by done.
  by rewrite Hnum.
Qed.

Lemma dict_set_fresh k v d :
  forallb (λ k', negb (bool_decide (k' = k))) (map fst d) = true →
  dict_set k v d = d ++ [(k, v)].
Proof.
  induction d as [|[k' v'] d IH]; [done|]. cbn [map fst forallb dict_set app].
  intros [Hk Hd]%andb_true_iff. case_decide as Hdec.
  - by rewrite bool_decide_true in Hk.
  - by rewrite IH.
Qed.

Lemma dict_of_pairs_app acc d :
  distinct (map fst (acc ++ d)) = true →
  foldl (λ d kv, dict_set kv.1 kv.2 d) acc d = acc ++ d.
Proof.
  revert acc. induction d as [|[k v] d IH]; intros acc Hd; [by rewrite app_nil_r|].
  cbn [foldl fst snd]. rewrite dict_set_fresh.
  - rewrite IH; rewrite <- app_assoc; done.
  - clear IH. induction acc as [|[k' v'] acc IH]; [done|].
    cbn [app map fst distinct forallb] in *.
    apply andb_true_iff in Hd as [Hk Hd].
    rewrite IH by done. rewrite andb_true_r.
    rewrite map_app, forallb_app in Hk. apply andb_true_iff in Hk as [_ Hk].
    cbn [map fst forallb] in Hk. apply andb_true_iff in Hk as [Hk _].
    apply negb_true_iff, bool_decide_eq_false in Hk.
    apply negb_true_iff, bool_decide_eq_false. congruence.
Qed.

(** [dict(pairs)] of pairs with distinct keys is the pairs. *)
Lemma dict_of_pairs_distinct d : distinct (map fst d) = true → dict_of_pairs d = d.
Proof. intros Hd. by apply (dict_of_pairs_app []). Qed.


Lemma join_single sep (c : text) : join sep [c] = c.
Proof. done. Qed.

Lemma join_cons sep (c c' : text) cs :
  join sep (c :: c' :: cs) = c ++ sep ++ join sep (c' :: cs).
Proof. done. Qed.

(** White space is not skipped in front of the chunks of values. *)
Lemma skip_ws_join sep c r cs t :
  is_ws c = false →
  skip_ws (join sep ((c :: r) :: cs) ++ t) = join sep ((c :: r) :: cs) ++ t.
Proof.
  intros Hc. destruct cs; [rewrite join_single|rewrite join_cons]; by apply skip_ws_head.
Qed.

(** The loop of [JSONArray] on the elements the encoder wrote. *)
Lemma array_items_join level l :
  Forall reads_back l → forallb json_value l = true → l ≠ [] →
  ∀ fuel acc rest,
    (list_sum (map (λ x, S (size x)) l) ≤ fuel)%nat →
    array_items fuel
      (join (44 :: newline_indent (S level)) (map (iterencode (S level)) l)
       ++ newline_indent level ++ 93 :: rest) acc
    = Some (rev acc ++ l, rest).
Proof.
  induction 1 as [|x l Hx Hl IH]; [done|].
  intros [Hvx Hvl]%andb_true_iff _ fuel acc rest Hfuel.
  cbn [map list_sum fold_right fst snd] in Hfuel. destruct fuel as [|fuel]; [lia|].
  cbn [array_items map]. destruct l as [|y l].
  - cbn [map list_sum fold_right fst snd] in Hfuel.
    rewrite join_single, Hx; [|done|lia|by right].
    rewrite skip_ws_newline_indent. cbn [skip_ws]. change (is_ws 93) with false.
    change (93 =? 93) with true. cbv iota. done.
  - cbn [map list_sum fold_right fst snd] in Hfuel.
    cbn [map]. rewrite join_cons, <- !app_assoc. cbn [app].
    rewrite Hx; [|done|lia|by left].
    cbn [skip_ws]. change (is_ws 44) with false. cbv iota.
    change (44 =? 93) with false. change (44 =? 44) with true. cbv iota.
    rewrite skip_ws_newline_indent.
    destruct (iterencode_head (S level) y) as (c & r & Hr & Hc).
    { cbn [forallb] in Hvl. by apply andb_true_iff in Hvl as [? _]. }
    rewrite Hr, skip_ws_join by (by apply value_start_not_ws). rewrite <- Hr.
    specialize (IH Hvl ltac:(done) fuel (x :: acc) rest).
    cbn [map list_sum fold_right fst snd] in IH.
    etrans; [apply IH; lia|]. cbn [rev]. by rewrite <- app_assoc.
Qed.

Lemma join_head sep c r cs t : ∃ t', join sep ((c :: r) :: cs) ++ t = c :: t'.
Proof. destruct cs; [rewrite join_single|rewrite join_cons]; by eexists. Qed.


Lemma skip_ws_space s : skip_ws (32 :: s) = skip_ws s.
Proof. done. Qed.

Lemma item_text_app level k v t :
  item_text level (k, v) ++ t
  = 34 :: flat_map escape_char k ++ 34 :: 58 :: 32 :: iterencode level v ++ t.
Proof.
  unfold item_text, encode_basestring_ascii. cbn [fst snd].
  change (txt ": ") with [58; 32].
  rewrite <- ?app_assoc. cbn [app]. by rewrite <- ?app_assoc.
Qed.

(** One turn of the loop of [JSONObject]: a key, the colon, a value. *)
Lemma object_items_step level fuel k v t acc :
  wf_str k = true → json_value v = true → reads_back v → (size v ≤ fuel)%nat →
  delimited t →
  object_items (S fuel) (tail (item_text level (k, v) ++ t)) acc
  = match skip_ws t with
    | c' :: r3 =>
        if c' =? 125 then Some (rev ((k, v) :: acc), r3)
        else if c' =? 44 then
          match skip_ws r3 with
          | q :: r4 => if q =? 34 then object_items fuel r4 ((k, v) :: acc) else None
          | [] => None
          end
        else None
    | [] => None
    end.
Proof.
  intros Hk Hv Hread Hfuel Ht.
  rewrite item_text_app. cbn [tail object_items].
  rewrite scanstring_encode by done.
  rewrite (skip_ws_head 58) by done. change (58 =? 58) with true. cbv iota.
  rewrite skip_ws_space.
  destruct (iterencode_head level v Hv) as (c & r & Hr & Hc).
  rewrite Hr. cbn [app]. rewrite skip_ws_head by (by apply value_start_not_ws).
  change (c :: r ++ t) with ((c :: r) ++ t). rewrite <- Hr.
  by rewrite Hread.
Qed.

(** The loop of [JSONObject] on the items the encoder wrote; the loop
    starts after the opening quote of the first key. *)
Lemma object_items_join level d :
  Forall (λ kv, reads_back kv.2) d →
  forallb (λ kv, wf_str kv.1 && json_value kv.2) d = true → d ≠ [] →
  ∀ fuel acc rest,
    (list_sum (map (λ kv, S (size kv.2)) d) ≤ fuel)%nat →
    object_items fuel
      (tail (join (44 :: newline_indent (S level)) (map (item_text (S level)) d)
             ++ newline_indent level ++ 125 :: rest)) acc
    = Some (rev acc ++ d, rest).
Proof.
  induction 1 as [|[k v] d Hv Hd IH]; [done|].
  intros [Hkv Hvd]%andb_true_iff _ fuel acc rest Hfuel.
  cbn [fst snd] in *. apply andb_true_iff in Hkv as [Hk Hvv].
  cbn [map list_sum fold_right fst snd] in Hfuel. destruct fuel as [|fuel]; [lia|].
  cbn [map]. destruct d as [|[k' v'] d].
  - cbn [map list_sum fold_right fst snd] in Hfuel.
    rewrite join_single, object_items_step; [|done|done|done|lia|by right].
    rewrite skip_ws_newline_indent, (skip_ws_head 125) by done.
    change (125 =? 125) with true. cbv iota. done.
  - cbn [map list_sum fold_right fst snd] in Hfuel.
    cbn [map]. rewrite join_cons, <- !app_assoc.
    rewrite object_items_step; [|done|done|done|lia|by left].
    cbn [app]. rewrite (skip_ws_head 44) by done.
    change (44 =? 125) with false. change (44 =? 44) with true. cbv iota.
    rewrite skip_ws_newline_indent.
    specialize (IH Hvd ltac:(done) fuel ((k, v) :: acc) rest).
    cbn [map list_sum fold_right fst snd] in IH.
    destruct (join_head (44 :: newline_indent (S level)) 34
                ((flat_map escape_char k' ++ [34]) ++ txt ": " ++ iterencode (S level) v')
                (map (item_text (S level)) d)
                (newline_indent level ++ 125 :: rest)) as [t' Ht'].
    change (34 :: (flat_map escape_char k' ++ [34]) ++ txt ": " ++ iterencode (S level) v')
      with (item_text (S level) (k', v')) in Ht'.
    rewrite Ht' in IH |- *. cbn [tail] in IH.
    rewrite (skip_ws_head 34) by done. change (34 =? 34) with true. cbv iota.
    etrans; [apply IH; lia|]. cbn [rev]. by rewrite <- app_assoc.
Qed.

Lemma value_start_not_close c : value_start c = true → c ≠ 93 ∧ c ≠ 125.
Proof. intros H. split; intros ->; by vm_compute in H. Qed.

Lemma head_is_app (P : N → bool) c r t : head_is P ((c :: r) ++ t) = P c.
Proof. done. Qed.

(** Every value the encoder writes is read back by [scan_once], with the
    text after it. *)
Lemma scan_once_iterencode d : reads_back d.
Proof.
  induction d as [|b|z|x|s|l IH|d IH] using pyval_induction;
    intros Hwf level fuel rest Hfuel Hrest;
    (destruct fuel as [|fuel]; [cbn in Hfuel; lia|]).
  - reflexivity.
  - by destruct b.
  - destruct (number_literal_head (z <? 0)%Z (N_digits (Z.abs_N z)) None None)
      as (c & r & Hr & Hc); [apply N_digits_canonical|].
    apply scan_once_number.
    + cbn [iterencode]. unfold int_repr. by rewrite Hr.
    + apply match_number_int. by apply delimited_ends_number.
  - destruct x as [neg ds decpt|[]|]; [|reflexivity|reflexivity|done].
    cbn [iterencode floatstr]. apply scan_once_number.
    + unfold float_repr. pose proof (float_parts_spec neg ds decpt Hwf) as Hparts.
      destruct (float_parts ds decpt) as [[ip frac] ex]. destruct Hparts as (Hip & _).
      destruct (number_literal_head neg ip frac ex Hip) as (c & r & -> & Hc). done.
    + apply match_number_float; [done|by apply delimited_ends_number].
  - cbn [iterencode]. unfold encode_basestring_ascii. cbn [app].
    rewrite <- app_assoc. cbn [app scan_once]. change (34 =? 34) with true. cbv iota.
    by rewrite scanstring_encode.
  - destruct l as [|x l]; [reflexivity|].
    cbn [json_value] in Hwf. cbn [size] in Hfuel.
    cbn [iterencode]. cbn [app]. rewrite <- !app_assoc. cbn [app scan_once].
    change (91 =? 34) with false. change (91 =? 123) with false.
    change (91 =? 91) with true. cbv iota.
    rewrite skip_ws_newline_indent.
    destruct (iterencode_head (S level) x) as (c & r & Hr & Hc).
    { cbn [forallb] in Hwf. by apply andb_true_iff in Hwf as [? _]. }
    cbn [map]. rewrite Hr. rewrite skip_ws_join by (by apply value_start_not_ws).
    destruct (join_head (44 :: newline_indent (S level)) c r
                (map (iterencode (S level)) l) (newline_indent level ++ 93 :: rest))
      as [t' Ht'].
    rewrite Ht'. rewrite (proj2 (N.eqb_neq c 93)) by (by apply value_start_not_close).
    rewrite <- Ht', <- Hr.
    change (iterencode (S level) x :: map (iterencode (S level)) l)
      with (map (iterencode (S level)) (x :: l)).
    rewrite (array_items_join level (x :: l) IH Hwf ltac:(done) fuel [] rest) by lia.
    done.
  - destruct d as [|[k v] d]; [reflexivity|].
    cbn [json_value] in Hwf. apply andb_true_iff in Hwf as [Hwf Hdist].
    cbn [size] in Hfuel.
    cbn [iterencode]. cbn [app]. rewrite <- !app_assoc. cbn [app scan_once].
    change (123 =? 34) with false. change (123 =? 123) with true. cbv iota.
    rewrite skip_ws_newline_indent.
    change (map (λ kv, encode_basestring_ascii kv.1 ++ txt ": " ++ iterencode (S level) kv.2)
              ((k, v) :: d))
      with (map (item_text (S level)) ((k, v) :: d)).
    destruct (join_head (44 :: newline_indent (S level)) 34
                ((flat_map escape_char k ++ [34]) ++ txt ": " ++ iterencode (S level) v)
                (map (item_text (S level)) d)
                (newline_indent level ++ 125 :: rest)) as [t' Ht'].
    change (34 :: (flat_map escape_char k ++ [34]) ++ txt ": " ++ iterencode (S level) v)
      with (item_text (S level) (k, v)) in Ht'.
    pose proof (object_items_join level ((k, v) :: d) IH Hwf ltac:(done) fuel [] rest) as Hitems.
    cbn [map] in Hitems |- *. rewrite Ht' in Hitems |- *. cbn [tail] in Hitems.
    cbn [map list_sum fold_right fst snd] in Hfuel, Hitems.
    rewrite (skip_ws_head 34) by done.
    change (34 =? 125) with false. change (34 =? 34) with true. cbv iota.
    rewrite Hitems by lia.
    cbn [rev app]. by rewrite dict_of_pairs_distinct.
Qed.

(** The decoder has fuel for every text the encoder writes. *)

Lemma join_length sep (chunks : list text) :
  sep ≠ [] →
  (list_sum (map (λ c, S (length c)) chunks) ≤ S (length (join sep chunks)))%nat.
Proof.
  intros Hsep. unfold list_sum. induction chunks as [|c [|c' cs] IH].
  - cbn [map fold_right]. lia.
  - cbn [map fold_right join]. lia.
  - rewrite join_cons, !length_app. cbn [map fold_right] in *.
    destruct sep; [done|]. cbn [length]. lia.
Qed.

Lemma list_sum_le {A} (f g : A → nat) l :
  Forall (λ x, (f x ≤ g x)%nat) l → (list_sum (map f l) ≤ list_sum (map g l))%nat.
Proof. unfold list_sum. induction 1; cbn [map fold_right] in *; lia. Qed.

Lemma size_le_length d :
  json_value d = true → ∀ level, (size d ≤ length (iterencode level d))%nat.
Proof.
  induction d as [|b|z|x|s|l IH|d IH] using pyval_induction; intros Hwf level;
    try (destruct (iterencode_head level _ Hwf) as (c & r & -> & _); cbn; lia).
  - destruct l as [|x l]; [cbn; lia|].
    cbn [iterencode size json_value] in *. cbn [length]. rewrite !length_app.
    pose proof (join_length (44 :: newline_indent (S level))
                  (map (iterencode (S level)) (x :: l)) ltac:(done)) as Hj.
    rewrite map_map in Hj.
    assert (Hs : (list_sum (map (λ x, S (size x)) (x :: l))
                  ≤ list_sum (map (λ x, S (length (iterencode (S level) x))) (x :: l)))%nat).
    { apply list_sum_le. rewrite Forall_forall in IH |- *. intros y Hy.
      apply le_n_S, IH; [done|].
      rewrite forallb_forall in Hwf. apply Hwf. by apply list_elem_of_In. }
    cbn [length newline_indent] in *. lia.
  - destruct d as [|kv d]; [cbn; lia|].
    cbn [json_value] in Hwf. apply andb_true_iff in Hwf as [Hwf _].
    cbn [iterencode size]. cbn [length]. rewrite !length_app.
    pose proof (join_length (44 :: newline_indent (S level))
                  (map (item_text (S level)) (kv :: d)) ltac:(done)) as Hj.
    rewrite map_map in Hj.
    assert (Hs : (list_sum (map (λ kv, S (size kv.2)) (kv :: d))
                  ≤ list_sum (map (λ kv, S (length (item_text (S level) kv))) (kv :: d)))%nat).
    { apply list_sum_le. rewrite Forall_forall in IH |- *. intros y Hy.
      apply le_n_S. unfold item_text. rewrite !length_app.
      rewrite forallb_forall in Hwf.
      pose proof (Hwf y (proj1 (list_elem_of_In _ _) Hy)) as Hy'.
      apply andb_true_iff in Hy' as [_ Hy'].
      specialize (IH y Hy Hy' (S level)). lia. }
    change (map (λ kv, encode_basestring_ascii kv.1 ++ txt ": " ++ iterencode (S level) kv.2)
              (kv :: d))
      with (map (item_text (S level)) (kv :: d)).
    cbn [length newline_indent] in *. lia.
Qed.

(** A well-formed document is read back from the text [json.dump] writes
    for it. *)
Lemma json_loads_dumps d : json_value d = true → json_loads (json_dumps d) = Some d.
Proof.
  intros Hwf. unfold json_loads, json_dumps.
  pose proof (size_le_length d Hwf 0%nat) as Hsize.
  pose proof (scan_once_iterencode d Hwf 0%nat (S (length (iterencode 0 d))) [] ltac:(lia) I)
    as Hscan.
  rewrite app_nil_r in Hscan.
  destruct (iterencode_head 0%nat d Hwf) as (c & r & Hr & Hc).
  rewrite Hr in *. cbn [head_is].
  destruct (N.eqb_spec 65279 c) as [<-|_]; [by vm_compute in Hc|].
  rewrite skip_ws_head by (by apply value_start_not_ws).
  by rewrite Hscan.
Qed.

(** * The storage capability *)

Lemma world_eta w : World (files w) (stdout w) (stderr w) = w.
Proof. by destruct w. Qed.

Lemma bind_run {A B} (m : M A) (f : A → M B) w :
  (m ≫= f) w = match m w with
               | (Return a, w') => f a w'
               | (Raise e, w') => (Raise e, w')
               end.
Proof. done. Qed.

Lemma lookup_node_set p q n w :
  lookup_node q (World (<[p := n]> (files w)) (stdout w) (stderr w))
  = if is_root q then Some Dir else if decide (p = q) then Some n else files w !! q.
Proof.
  unfold lookup_node. cbn [files]. destruct (is_root q); [done|].
  by rewrite lookup_insert.
Qed.

(** A directory stays one when an entry that is not a directory is
    written. *)
Lemma lookup_node_dir_set p q n w :
  lookup_node p w ≠ Some Dir → lookup_node q w = Some Dir →
  lookup_node q (World (<[p := n]> (files w)) (stdout w) (stderr w)) = Some Dir.
Proof.
  intros Hp Hq. rewrite lookup_node_set. unfold lookup_node in *.
  destruct (is_root q) eqn:Hr; [done|]. case_decide as Hpq; [|done].
  subst q. destruct (is_root p); [done|]. congruence.
Qed.

Lemma mkdir_chain_frame chain w r w1 :
  mkdir_chain chain w = (r, w1) → stdout w1 = stdout w ∧ stderr w1 = stderr w.
Proof.
  revert w. induction chain as [|a chain IH]; intros w Hrun; cbn [mkdir_chain] in Hrun.
  - unfold mret, M_ret in Hrun. by simplify_eq.
  - destruct (lookup_node a w) as [[c|]|].
    + by simplify_eq.
    + by apply IH.
    + rewrite bind_run in Hrun. cbn [set_node] in Hrun. by apply IH in Hrun.
Qed.

Lemma mkdir_chain_keeps chain w r w1 q :
  mkdir_chain chain w = (r, w1) → lookup_node q w = Some Dir → lookup_node q w1 = Some Dir.
Proof.
  revert w. induction chain as [|a chain IH]; intros w Hrun Hq; cbn [mkdir_chain] in Hrun.
  - unfold mret, M_ret in Hrun. by simplify_eq.
  - destruct (lookup_node a w) as [[c|]|] eqn:Ha.
    + by simplify_eq.
    + by apply (IH w).
    + rewrite bind_run in Hrun. cbn [set_node] in Hrun. apply IH in Hrun; [done|].
      apply lookup_node_dir_set; [|done]. by rewrite Ha.
Qed.

(** After [mkdir_chain] returns, every directory of the chain exists. *)
Lemma mkdir_chain_made chain w w1 :
  mkdir_chain chain w = (Return (), w1) →
  Forall (λ a, lookup_node a w1 = Some Dir) chain.
Proof.
  revert w. induction chain as [|a chain IH]; intros w Hrun; [done|].
  cbn [mkdir_chain] in Hrun.
  destruct (lookup_node a w) as [[c|]|] eqn:Ha.
  - by simplify_eq.
  - constructor; [|by apply (IH w)]. by apply (mkdir_chain_keeps chain w (Return ())).
  - rewrite bind_run in Hrun. cbn [set_node] in Hrun. constructor; [|by apply IH in Hrun].
    apply (mkdir_chain_keeps _ _ _ _ _ Hrun). rewrite lookup_node_set.
    destruct (is_root a); [done|]. by rewrite decide_True.
Qed.

(** On directories that exist, [mkdir_chain] returns and changes nothing. *)
Lemma mkdir_chain_dirs chain w :
  Forall (λ a, lookup_node a w = Some Dir) chain → mkdir_chain chain w = (Return (), w).
Proof.
  induction 1 as [|a chain Ha _ IH]; [done|]. cbn [mkdir_chain]. by rewrite Ha.
Qed.

Lemma makedirs_frame name w r w1 :
  makedirs name w = (r, w1) → stdout w1 = stdout w ∧ stderr w1 = stderr w.
Proof.
  unfold makedirs. case_bool_decide.
  - by inversion 1.
  - apply mkdir_chain_frame.
Qed.

(** [makedirs] again, after a file was written: nothing changes. *)
Lemma makedirs_again name w wm p n so se :
  makedirs name w = (Return (), wm) → lookup_node p wm ≠ Some Dir →
  makedirs name (World (<[p := n]> (files wm)) so se)
  = (Return (), World (<[p := n]> (files wm)) so se).
Proof.
  unfold makedirs. case_bool_decide; [by inversion 1|].
  intros Hrun%mkdir_chain_made Hp. apply mkdir_chain_dirs.
  eapply Forall_impl; [exact Hrun|]. intros a Ha. cbv beta in *.
  pose proof (lookup_node_dir_set p a n wm Hp Ha) as Hd.
  unfold lookup_node in *. cbn [files] in *. done.
Qed.

Lemma open_write_spec p content w w1 :
  open_write p content w = (Return (), w1) →
  w1 = World (<[p := File content]> (files w)) (stdout w) (stderr w) ∧
  lookup_node p w ≠ Some Dir ∧ check_parent p w = (Return (), w).
Proof.
  unfold open_write. case_bool_decide; [by inversion 1|].
  rewrite bind_run. intros Hrun.
  assert (Hp : lookup_node p w ≠ Some Dir).
  { intros Hd. rewrite Hd in Hrun. by simplify_eq. }
  assert (Hrun' : match check_parent p w with
                  | (Return a, w') => set_node p (File content) w'
                  | (Raise e, w') => (Raise e, w')
                  end = (Return (), w1)).
  { destruct (lookup_node p w) as [[c|]|]; done. }
  clear Hrun. unfold check_parent in *. case_bool_decide.
  - by inversion Hrun'.
  - destruct (lookup_node (dirname p) w) as [[c|]|]; by inversion Hrun'.
Qed.

Lemma open_write_run p content w :
  p ≠ [] → lookup_node p w ≠ Some Dir → check_parent p w = (Return (), w) →
  open_write p content w
  = (Return (), World (<[p := File content]> (files w)) (stdout w) (stderr w)).
Proof.
  intros Hne Hp Hpar. unfold open_write. rewrite bool_decide_false by done.
  rewrite bind_run, Hpar. by destruct (lookup_node p w) as [[c|]|].
Qed.

Lemma open_write_nonempty p content w w1 :
  open_write p content w = (Return (), w1) → p ≠ [].
Proof. unfold open_write. case_bool_decide; [by inversion 1|done]. Qed.

Lemma check_parent_set p n w :
  lookup_node p w ≠ Some Dir → check_parent p w = (Return (), w) →
  check_parent p (World (<[p := n]> (files w)) (stdout w) (stderr w))
  = (Return (), World (<[p := n]> (files w)) (stdout w) (stderr w)).
Proof.
  intros Hp. unfold check_parent. case_bool_decide; [done|].
  destruct (lookup_node (dirname p) w) as [[c|]|] eqn:Hd; try by inversion 1.
  intros _. by rewrite (lookup_node_dir_set p (dirname p) n w Hp Hd).
Qed.

(** What a write that the storage accepts does: the directories are made,
    then the file holds the content; a second write lands on the same
    directories. *)
Lemma accepted_write p w :
  storage_accepts p w = true →
  ∃ wm, makedirs (dirname p) w = (Return (), wm) ∧
        stdout wm = stdout w ∧ stderr wm = stderr w ∧
        lookup_node p wm ≠ Some Dir ∧
        ∀ content,
          (makedirs (dirname p) ;; open_write p content) w
          = (Return (), World (<[p := File content]> (files wm)) (stdout w) (stderr w)) ∧
          storage_accepts p (World (<[p := File content]> (files wm)) (stdout w) (stderr w)) = true ∧
          makedirs (dirname p) (World (<[p := File content]> (files wm)) (stdout w) (stderr w))
          = (Return (), World (<[p := File content]> (files wm)) (stdout w) (stderr w)).
Proof.
  unfold storage_accepts. rewrite bind_run.
  destruct (makedirs (dirname p) w) as [[[]|e] wm] eqn:Hmk; [|done].
  destruct (open_write p [] wm) as [[[]|e] w1] eqn:Hop; [|done]. intros _.
  destruct (makedirs_frame _ _ _ _ Hmk) as [Hso Hse].
  pose proof (open_write_nonempty _ _ _ _ Hop) as Hne.
  destruct (open_write_spec _ _ _ _ Hop) as (_ & Hp & Hpar).
  exists wm. repeat split; try done. 
  - rewrite bind_run, Hmk, open_write_run by done. by rewrite Hso, Hse.
  - rewrite bind_run. rewrite <- Hso, <- Hse.
    rewrite (makedirs_again _ _ _ _ _ _ _ Hmk Hp).
    rewrite open_write_run; [done|done| |].
    + rewrite lookup_node_set. destruct (is_root p) eqn:Hr.
      * unfold lookup_node in Hp. by rewrite Hr in Hp.
      * by rewrite decide_True.
    + by apply check_parent_set.
  - rewrite <- Hso, <- Hse. by apply (makedirs_again _ _ _ _ _ _ _ Hmk).
Qed.

(** ** When the storage accepts a write *)

Lemma upto_last_sep_prefix p : upto_last_sep p = take (length (upto_last_sep p)) p.
Proof.
  induction p as [|c r IH]; [done|]. cbn [upto_last_sep].
  destruct (upto_last_sep r) as [|c' h] eqn:Hr.
  - by destruct (is_sep c).
  - cbn [length take]. f_equal. exact IH.
Qed.

Lemma length_upto_last_sep p : (length (upto_last_sep p) ≤ length p)%nat.
Proof.
  rewrite upto_last_sep_prefix at 1. rewrite length_take. lia.
Qed.

(** A path that is its own directory part ends with a separator. *)
Lemma upto_last_sep_full p :
  upto_last_sep p = p → p ≠ [] → ∃ c r, rev p = c :: r ∧ is_sep c = true.
Proof.
  induction p as [|c r IH]; [done|]. intros Hp _. cbn [upto_last_sep] in Hp.
  destruct (upto_last_sep r) as [|c' h] eqn:Hr.
  - destruct (is_sep c) eqn:Hc; [|done]. injection Hp as <-. by exists c, [].
  - injection Hp as Hp. destruct (IH Hp) as (c0 & r0 & Hrev & Hc0); [by rewrite <- Hp|].
    exists c0, (r0 ++ [c]). cbn [rev]. by rewrite Hrev.
Qed.

Lemma length_drop_seps p : (length (drop_seps p) ≤ length p)%nat.
Proof. induction p as [|c r IH]; [done|]. cbn. destruct (is_sep c); cbn; lia. Qed.

Lemma length_rstrip_sep p : (length (rstrip_sep p) ≤ length p)%nat.
Proof.
  unfold rstrip_sep. rewrite length_rev.
  etrans; [apply length_drop_seps|]. by rewrite length_rev.
Qed.

Lemma length_dirname p : (length (dirname p) ≤ length p)%nat.
Proof.
  unfold dirname, path_split. cbn [fst]. pose proof (length_upto_last_sep p).
  destruct (forallb is_sep (upto_last_sep p)); [done|].
  pose proof (length_rstrip_sep (upto_last_sep p)). lia.
Qed.

(** The directory part of a path is shorter than the path, the root apart. *)
Lemma length_dirname_lt p :
  p ≠ [] → is_root p = false → (length (dirname p) < length p)%nat.
Proof.
  intros Hne Hroot. unfold dirname, path_split. cbn [fst].
  pose proof (length_upto_last_sep p) as Hle.
  destruct (decide (length (upto_last_sep p) = length p)) as [Heq|Hlt].
  - assert (Hfull : upto_last_sep p = p).
    { rewrite upto_last_sep_prefix, Heq. apply firstn_all. }
    rewrite Hfull.
    destruct (forallb is_sep p) eqn:Hall.
    + unfold is_root in Hroot. rewrite Hall, bool_decide_false in Hroot by done. done.
    + destruct (upto_last_sep_full p Hfull Hne) as (c & r & Hrev & Hc).
      unfold rstrip_sep. rewrite Hrev. cbn [drop_seps]. rewrite Hc, length_rev.
      pose proof (length_drop_seps r). apply (f_equal length) in Hrev.
      rewrite length_rev in Hrev. cbn [length] in Hrev. lia.
  - destruct (forallb is_sep (upto_last_sep p)); [lia|].
    pose proof (length_rstrip_sep (upto_last_sep p)). lia.
Qed.

Lemma ancestors_from_length fuel name a :
  a ∈ ancestors_from fuel name → (length a ≤ length name)%nat.
Proof.
  revert name. induction fuel as [|fuel IH]; intros name; cbn [ancestors_from].
  - by intros ?%elem_of_nil.
  - destruct (_ || _); [by intros ?%elem_of_nil|].
    intros [Ha| ->%list_elem_of_singleton]%elem_of_app; [|done].
    apply IH in Ha. pose proof (length_dirname name). lia.
Qed.

(** A path is not among the directories above it. *)
Lemma not_own_ancestor p : p ≠ [] → is_root p = false → p ∉ ancestors (dirname p).
Proof.
  intros Hne Hroot Hin. apply ancestors_from_length in Hin.
  pose proof (length_dirname_lt p Hne Hroot). lia.
Qed.

(** The directory of a path is the last directory [makedirs] makes, unless
    it is the root. *)
Lemma dirname_made name :
  name ≠ [] → is_root name = true ∨ name ∈ ancestors name.
Proof.
  intros Hne. unfold ancestors. cbn [ancestors_from].
  rewrite bool_decide_false by done. cbn [orb].
  destruct (is_root name); [by left|right]. apply elem_of_app. right. by left.
Qed.

Lemma mkdir_chain_clear chain w :
  Forall (no_file_at w) chain →
  ∃ w1, mkdir_chain chain w = (Return (), w1)
        ∧ ∀ q, q ∉ chain → lookup_node q w1 = lookup_node q w.
Proof.
  revert w. induction chain as [|a chain IH]; intros w Hclear.
  - by exists w.
  - apply Forall_cons in Hclear as [Ha Hchain]. cbn [mkdir_chain].
    destruct (lookup_node a w) as [[c|]|] eqn:Hlook.
    + by destruct (Ha c).
    + destruct (IH w Hchain) as (w1 & Hrun & Hframe). exists w1. split; [done|].
      intros q Hq. apply Hframe. by apply not_elem_of_cons in Hq as [_ ?].
    + rewrite bind_run. cbn [set_node].
      destruct (IH (World (<[a := Dir]> (files w)) (stdout w) (stderr w))) as (w1 & Hrun & Hframe).
      { eapply Forall_impl; [exact Hchain|]. intros b Hb content.
        rewrite lookup_node_set. destruct (is_root b) eqn:Hr; [done|].
        case_decide; [done|]. specialize (Hb content). unfold lookup_node in Hb.
        by rewrite Hr in Hb. }
      exists w1. split; [done|]. intros q Hq. apply not_elem_of_cons in Hq as [Hqa Hq].
      rewrite (Hframe q Hq), lookup_node_set. unfold lookup_node.
      destruct (is_root q); [done|]. by rewrite decide_False.
Qed.

(** The storage accepts a write at a path that has a directory part and is
    not a directory, when no regular file lies on the directories above
    it. *)
Lemma clear_way_accepts p w :
  dirname p ≠ [] → is_root p = false → lookup_node p w ≠ Some Dir →
  Forall (no_file_at w) (ancestors (dirname p)) →
  storage_accepts p w = true.
Proof.
  intros Hdir Hroot Hp Hclear.
  assert (Hne : p ≠ []) by (by intros ->).
  destruct (mkdir_chain_clear _ w Hclear) as (wm & Hmk & Hframe).
  unfold storage_accepts. rewrite bind_run. unfold makedirs.
  rewrite bool_decide_false, Hmk by done.
  rewrite open_write_run; [done|done| |].
  - rewrite Hframe; [done|]. by apply not_own_ancestor.
  - unfold check_parent. rewrite bool_decide_false by done.
    destruct (dirname_made (dirname p) Hdir) as [Hr|Hin].
    + unfold lookup_node. by rewrite Hr.
    + apply mkdir_chain_made in Hmk. rewrite Forall_forall in Hmk. by rewrite (Hmk _ Hin).
Qed.

(** In particular a store without files accepts every such path. *)
Lemma fresh_store_accepts p so se :
  dirname p ≠ [] → is_root p = false → storage_accepts p (World ∅ so se) = true.
Proof.
  intros Hdir Hroot. apply clear_way_accepts; try done.
  - unfold lookup_node. cbn [files]. by rewrite Hroot, lookup_empty.
  - apply Forall_forall. intros a _ content. unfold lookup_node. cbn [files].
    destruct (is_root a); [done|]. by rewrite lookup_empty.
Qed.

(** * The properties of the pipeline *)

(** Unfolding of the sequencing of computations. *)
Ltac run :=
  cbv [mbind M_bind mret M_ret outcome_bind outcome_ret lift raise print try_except
       thread_start_join submit_result].

Lemma load_run (self : Transform.WeatherDataRepository) w :
  Transform.load self w
  = match lookup_node (Transform.storage_path self) w with
    | None => (Raise (FileNotFoundError (Transform.storage_path self)), w)
    | Some Dir => (Raise (IsADirectoryError (Transform.storage_path self)), w)
    | Some (File content) =>
        match json_loads content with
        | Some data => (Return data, w)
        | None => (Raise JSONDecodeError, w)
        end
    end.
Proof.
  unfold Transform.load, path_exists, open_read. run.
  destruct (lookup_node (Transform.storage_path self) w) as [[content|]|] eqn:Hp.
  - rewrite bool_decide_true by eauto. cbn [negb]. rewrite Hp. by destruct (json_loads content).
  - rewrite bool_decide_true by eauto. cbn [negb]. by rewrite Hp.
  - rewrite bool_decide_false; [done|]. by intros [? ?].
Qed.

(** [load] reads: it leaves the world as it finds it. *)
Lemma load_reads (self : Transform.WeatherDataRepository) w : (Transform.load self w).2 = w.
Proof.
  rewrite load_run. destruct (lookup_node _ w) as [[content|]|]; [|done..].
  by destruct (json_loads content).
Qed.

(** C8: when the storage path does not exist, the raw repository's [load]
    raises [FileNotFoundError] (the storage-not-found condition, which is
    not the [JSONDecodeError] of a parse failure) and writes nothing: the
    world is the one it started from, and the path is still absent. *)
Theorem load_missing_file (self : Transform.WeatherDataRepository) (w : world) :
  lookup_node (Transform.storage_path self) w = None →
  Transform.load self w = (Raise (FileNotFoundError (Transform.storage_path self)), w)
  ∧ FileNotFoundError (Transform.storage_path self) ≠ JSONDecodeError
  ∧ lookup_node (Transform.storage_path self) (Transform.load self w).2 = None.
Proof.
  intros Hp. rewrite load_reads, load_run, Hp. by repeat split.
Qed.

Lemma load_missing_file_witness :
  lookup_node Transform.default_storage_path empty_world = None
  ∧ Transform.load {| Transform.storage_path := Transform.default_storage_path |} empty_world
    = (Raise (FileNotFoundError Transform.default_storage_path), empty_world).
Proof.
  split; [reflexivity|].
  apply (load_missing_file {| Transform.storage_path := Transform.default_storage_path |}
           empty_world).
  reflexivity.
Defined.

(** C5: when the response of the fetch has a status code other than 200,
    [fetch_and_save_weather_data] returns without an exception, the files
    are the ones it started from, and the one line printed is the failure
    line with the status code. *)
Theorem failed_fetch_leaves_storage (self : Extract.WeatherService)
    (latitude longitude : pyval) (response : Extract.Response) (w : world) :
  Extract.fetch (Extract.fetcher self) latitude longitude = Return response →
  Extract.status_code response ≠ 200%Z →
  Extract.fetch_and_save_weather_data self latitude longitude w
  = (Return (),
     World (files w) (stdout w ++ [FailedToFetch (Extract.status_code response)]) (stderr w)).
Proof.
  intros Hfetch Hcode. unfold Extract.fetch_and_save_weather_data, Extract.task. run.
  rewrite Hfetch. by rewrite (proj2 (Z.eqb_neq _ _) Hcode).
Qed.

Lemma failed_fetch_leaves_storage_witness :
  Extract.fetch_and_save_weather_data (stub_service 404)
    Extract.default_latitude Extract.default_longitude empty_world
  = (Return (), World ∅ [FailedToFetch 404] []).
Proof.
  apply (failed_fetch_leaves_storage (stub_service 404) Extract.default_latitude
           Extract.default_longitude
           {| Extract.status_code := 404; Extract.json := Return (PDict []) |} empty_world).
  - reflexivity.
  - cbn. lia.
Defined.

Lemma extract_save_run (p : text) (data : pyval) (w : world) :
  Extract.save {| Extract.storage_path := p |} data w
  = (makedirs (dirname p) ;; open_write p (json_dumps data)) w.
Proof. done. Qed.

Lemma files_lookup_written p n fm : (<[p := n]> fm : gmap text node) !! p = Some n.
Proof. apply lookup_insert_eq. Qed.

(** The file a write left is what [load] finds. *)
Lemma lookup_node_written p content wm so se :
  lookup_node p wm ≠ Some Dir →
  lookup_node p (World (<[p := File content]> (files wm)) so se) = Some (File content).
Proof.
  intros Hp. unfold lookup_node in *. cbn [files].
  destruct (is_root p); [done|]. apply lookup_insert_eq.
Qed.

(** The two stages name the same raw file. *)
Lemma default_storage_paths_agree :
  Extract.default_storage_path = Transform.default_storage_path.
Proof. reflexivity. Qed.

(** A storage path without a directory part is refused: [os.makedirs] is
    handed the empty string. *)
Lemma save_without_directory (p : text) (data : pyval) (w : world) :
  dirname p = [] →
  Extract.save {| Extract.storage_path := p |} data w = (Raise (FileNotFoundError []), w).
Proof. intros Hd. rewrite extract_save_run, bind_run, Hd. done. Qed.

(** C2: a well-formed document saved by the raw repository of the fetch
    stage, on a storage that accepts the write, is what the raw repository
    of the transform stage loads from the same path. *)
Theorem raw_save_load_roundtrip (p : text) (data : pyval) (w : world) :
  json_value data = true → storage_accepts p w = true →
  ∃ w1, Extract.save {| Extract.storage_path := p |} data w = (Return (), w1)
        ∧ Transform.load {| Transform.storage_path := p |} w1 = (Return data, w1).
Proof.
  intros Hwf Hacc. destruct (accepted_write p w Hacc) as (wm & Hmk & Hso & Hse & Hp & Hw).
  destruct (Hw (json_dumps data)) as (Hsave & _ & _).
  eexists. split; [by rewrite extract_save_run|].
  rewrite load_run. cbn [Transform.storage_path].
  rewrite lookup_node_written by done. by rewrite json_loads_dumps.
Qed.

Lemma raw_save_load_roundtrip_witness :
  ∃ w1, Extract.save {| Extract.storage_path := Extract.default_storage_path |}
          happy_doc empty_world = (Return (), w1)
        ∧ Transform.load {| Transform.storage_path := Transform.default_storage_path |} w1
          = (Return happy_doc, w1).
Proof.
  apply (raw_save_load_roundtrip Extract.default_storage_path happy_doc empty_world).
  - reflexivity.
  - vm_compute. reflexivity.
Defined.

(** C6: when the response has status 200 and a well-formed JSON body, and
    the storage accepts the write, [fetch_and_save_weather_data] returns
    with the raw file holding a text that decodes to exactly that body, and
    the one line printed is the success line. *)
Theorem successful_fetch_saves_body (self : Extract.WeatherService)
    (latitude longitude : pyval) (response : Extract.Response) (data : pyval) (w : world) :
  Extract.fetch (Extract.fetcher self) latitude longitude = Return response →
  Extract.status_code response = 200%Z →
  Extract.json response = Return data →
  json_value data = true →
  storage_accepts (Extract.storage_path (Extract.repository self)) w = true →
  ∃ w1 content,
    Extract.fetch_and_save_weather_data self latitude longitude w = (Return (), w1)
    ∧ files w1 !! Extract.storage_path (Extract.repository self) = Some (File content)
    ∧ json_loads content = Some data
    ∧ stdout w1 = stdout w ++ [FetchedAndSaved]
    ∧ stderr w1 = stderr w.
Proof.
  intros Hfetch Hcode Hjson Hwf Hacc.
  destruct (accepted_write _ w Hacc) as (wm & Hmk & Hso & Hse & Hp & Hw).
  destruct (Hw (json_dumps data)) as (Hsave & _ & _).
  unfold Extract.fetch_and_save_weather_data, Extract.task. run.
  rewrite Hfetch, Hcode, Hjson. change (200 =? 200)%Z with true. cbv iota.
  destruct (Extract.repository self) as [p]. cbn [Extract.storage_path] in *.
  rewrite extract_save_run, Hsave. cbn [files stdout stderr].
  eexists _, _. repeat split; [apply lookup_insert_eq|by apply json_loads_dumps].
Qed.

Lemma successful_fetch_saves_body_witness :
  ∃ w1 content,
    Extract.fetch_and_save_weather_data (stub_service 200)
      Extract.default_latitude Extract.default_longitude empty_world = (Return (), w1)
    ∧ files w1 !! Extract.default_storage_path = Some (File content)
    ∧ json_loads content = Some (PDict [])
    ∧ stdout w1 = [FetchedAndSaved]
    ∧ stderr w1 = [].
Proof.
  apply (successful_fetch_saves_body (stub_service 200) Extract.default_latitude
           Extract.default_longitude
           {| Extract.status_code := 200; Extract.json := Return (PDict []) |}
           (PDict []) empty_world); reflexivity.
Defined.

Lemma transform_save_run (to_csv_text : DataFrame → text)
    (self : Transform.WeatherDataRepository) (df : DataFrame) (p : text) (w : world) :
  Transform.save to_csv_text self df p w
  = match (makedirs (dirname p) ;; open_write p (to_csv_text df)) w with
    | (Return _, w') => (Return (), World (files w') (stdout w' ++ [ProcessedDataSaved p]) (stderr w'))
    | (Raise e, w') => (Raise e, w')
    end.
Proof.
  unfold Transform.save, Transform.to_csv. run.
  destruct (makedirs (dirname p) w) as [[[]|e] wm]; [|done].
  by destruct (open_write p (to_csv_text df) wm) as [[[]|e] w1].
Qed.

(** Whether [open_write] succeeds depends on the files only. *)
Lemma open_write_accepts p content fm so se so' se' :
  (open_write p content (World fm so se)).1 = (open_write p content (World fm so' se')).1.
Proof.
  unfold open_write, check_parent, lookup_node. cbn [files].
  case_bool_decide; [done|]. rewrite !bind_run. cbn [files].
  destruct (if is_root p then Some Dir else fm !! p) as [[c|]|]; try done;
    (case_bool_decide; [done|]);
    by destruct (if is_root (dirname p) then Some Dir else fm !! dirname p) as [[c'|]|].
Qed.

Lemma mkdir_chain_log chain fm so se so' se' :
  mkdir_chain chain (World fm so se)
  = ((mkdir_chain chain (World fm so' se')).1,
     World (files (mkdir_chain chain (World fm so' se')).2) so se).
Proof.
  revert fm. induction chain as [|a chain IH]; intros fm; [done|].
  cbn [mkdir_chain]. unfold lookup_node. cbn [files].
  destruct (if is_root a then Some Dir else fm !! a) as [[c|]|]; [done|apply IH|].
  rewrite !bind_run. cbn [set_node files stdout stderr]. apply IH.
Qed.

Lemma storage_accepts_log p fm so se so' se' :
  storage_accepts p (World fm so se) = storage_accepts p (World fm so' se').
Proof.
  unfold storage_accepts. rewrite !bind_run.
  unfold makedirs. case_bool_decide; [done|].
  rewrite (mkdir_chain_log _ fm so se so' se').
  destruct (mkdir_chain (ancestors (dirname p)) (World fm so' se')) as [[[]|e] [fm' so'' se'']];
    [|done].
  cbn [fst snd files].
  pose proof (open_write_accepts p [] fm' so se so'' se'') as Hop.
  destruct (open_write p [] (World fm' so se)) as [[[]|?] ?],
           (open_write p [] (World fm' so'' se'')) as [[[]|?] ?]; done.
Qed.





(** C1: [execute] returns normally whatever the sequence of load,
    transform and save does, for every transformer, every storage path and
    every world.  When the sequence returns, [execute] leaves the world of
    the sequence; when the sequence raises an exception, anywhere, [execute]
    catches it and adds the line that reports it to what the sequence had
    printed. *)
Theorem execute_contains_every_exception (to_csv_text : DataFrame → text)
    (self : Transform.WeatherTransformationCommand) (w : world) :
  ∃ w', Transform.execute to_csv_text self w = (Return (), w')
        ∧ match Transform.load_transform_save to_csv_text self w with
          | (Return _, w1) => w' = w1
          | (Raise e, w1) =>
              w' = World (files w1) (stdout w1 ++ [ErrorDuringTransformation e]) (stderr w1)
          end.
Proof.
  unfold Transform.execute, try_except.
  destruct (Transform.load_transform_save to_csv_text self w) as [[[]|e] w1];
    cbn [isinstance_Exception]; by eexists.
Qed.

(** The exceptions of [load] reach the handler of [execute]: a missing
    file and a file that is not JSON are reported, and nothing is written. *)
Lemma execute_reports_load_failure (to_csv_text : DataFrame → text)
    (self : Transform.WeatherTransformationCommand) (w : world) (e : exn) :
  Transform.load (Transform.repository self) w = (Raise e, w) →
  Transform.execute to_csv_text self w
  = (Return (), World (files w) (stdout w ++ [ErrorDuringTransformation e]) (stderr w)).
Proof.
  intros Hload. unfold Transform.execute, Transform.load_transform_save, try_except.
  rewrite bind_run, Hload. done.
Qed.

Lemma transform_run_missing (raw_data : pyval) (k : text) (w : world) :
  first_missing_key raw_data = Some k →
  Transform.transform Transform.OpenMeteoTransformer raw_data w
  = (Return None, World (files w) (stdout w ++ [MissingKeyInData (KeyError k)]) (stderr w)).
Proof.
  intros Hk. cbn [Transform.transform Transform.OpenMeteoTransformer]. run.
  destruct raw_data as [| | | | |?|d]; try done. cbn [first_missing_key getitem] in *.
  destruct (dict_get (txt "hourly") d) as [h|]; [|by simplify_eq].
  destruct h as [| | | | |?|h]; try done. cbn [getitem].
  destruct (dict_get (txt "time") h); [|by simplify_eq].
  destruct (dict_get (txt "temperature_2m") h); [|by simplify_eq].
  destruct (dict_get (txt "precipitation") h); [done|by simplify_eq].
Qed.

(** [first_missing_key] finds a key exactly when one is missing: "hourly" in
    the document, or one of the three arrays in the "hourly" mapping. *)
Lemma first_missing_key_spec (d : list (text * pyval)) :
  (dict_get (txt "hourly") d = None → first_missing_key (PDict d) = Some (txt "hourly"))
  ∧ (∀ h key,
       dict_get (txt "hourly") d = Some (PDict h) →
       key ∈ [txt "time"; txt "temperature_2m"; txt "precipitation"] →
       dict_get key h = None →
       ∃ k, first_missing_key (PDict d) = Some k ∧ dict_get k h = None).
Proof.
  split.
  - intros Hd. cbn [first_missing_key]. by rewrite Hd.
  - intros h key Hd Hkey Hnone. cbn [first_missing_key]. rewrite Hd.
    destruct (dict_get (txt "time") h) eqn:H1; [|by eexists].
    destruct (dict_get (txt "temperature_2m") h) eqn:H2; [|by eexists].
    destruct (dict_get (txt "precipitation") h) eqn:H3; [|by eexists].
    repeat (apply elem_of_cons in Hkey as [->|Hkey]; [congruence|]).
    by apply elem_of_nil in Hkey.
Qed.

(** C3: when a key is missing ("hourly" in the document, or one of "time",
    "temperature_2m" and "precipitation" in its "hourly" mapping),
    [transform] prints the missing-key line with that key and returns
    [None], no table; and the command that loaded such a document returns
    without an exception, with the files as they were: the one line
    printed is the missing-key line, and no processed file is written. *)
Theorem missing_key_yields_no_table (to_csv_text : DataFrame → text)
    (repo : Transform.WeatherDataRepository) (raw_data : pyval) (k : text) (w : world) :
  first_missing_key raw_data = Some k →
  Transform.transform Transform.OpenMeteoTransformer raw_data w
  = (Return None, World (files w) (stdout w ++ [MissingKeyInData (KeyError k)]) (stderr w))
  ∧ (Transform.load repo w = (Return raw_data, w) →
     Transform.execute to_csv_text
       {| Transform.repository := repo; Transform.transformer := Transform.OpenMeteoTransformer |} w
     = (Return (), World (files w) (stdout w ++ [MissingKeyInData (KeyError k)]) (stderr w))).
Proof.
  intros Hk. split; [by apply transform_run_missing|].
  intros Hload. unfold Transform.execute, Transform.load_transform_save, try_except.
  cbn [Transform.repository Transform.transformer].
  rewrite bind_run, Hload. cbv beta iota.
  rewrite bind_run, (transform_run_missing _ _ _ Hk). done.
Qed.

Lemma missing_key_yields_no_table_witness :
  first_missing_key partial_doc = Some (txt "temperature_2m")
  ∧ Transform.transform Transform.OpenMeteoTransformer partial_doc partial_world
    = (Return None,
       World (files partial_world) [MissingKeyInData (KeyError (txt "temperature_2m"))] [])
  ∧ Transform.execute (λ _, [])
      {| Transform.repository := {| Transform.storage_path := Transform.default_storage_path |};
         Transform.transformer := Transform.OpenMeteoTransformer |} partial_world
    = (Return (),
       World (files partial_world) [MissingKeyInData (KeyError (txt "temperature_2m"))] []).
Proof.
  pose proof (missing_key_yields_no_table (λ _, [])
                {| Transform.storage_path := Transform.default_storage_path |}
                partial_doc (txt "temperature_2m") partial_world eq_refl) as [Ht Hx].
  split; [reflexivity|]. split; [exact Ht|]. apply Hx. vm_compute. reflexivity.
Defined.

(** C4: on the document of the happy path, [transform] returns a table
    whose columns are "Timestamp", "Temperature (°C)" and "Precipitation
    (mm)" in that order, with exactly one row: 2024-01-01T00:00, 5.0, 0.0. *)
Theorem transform_happy_path (w : world) :
  ∃ df,
    Transform.transform Transform.OpenMeteoTransformer happy_doc w
    = (Return (Some df), World (files w) (stdout w ++ [TransformationSuccessful]) (stderr w))
    ∧ df_column_names df
      = [txt "Timestamp"; txt "Temperature (" ++ [176] ++ txt "C)"; txt "Precipitation (mm)"]
    ∧ df_rows df
      = [[Val (PStr (txt "2024-01-01T00:00"));
          Val (PFloat (FFinite false (txt "5") 1));
          Val (PFloat (FFinite false [] 0))]].
Proof. eexists. repeat split. Qed.

(** ** The table of index-aligned arrays *)

Lemma df_rows_zip (n1 n2 n3 : text) (ts temps precs : list pyval) :
  length ts = length temps → length temps = length precs →
  df_rows {| df_index := RangeIndex (length ts);
             df_columns := [(n1, map Val ts); (n2, map Val temps); (n3, map Val precs)] |}
  = zip_rows ts temps precs.
Proof.
  unfold df_rows. cbn [df_index df_columns axis_length].
  revert temps precs. induction ts as [|a ts IH]; intros [|b temps] [|c precs] H1 H2;
    try done.
  cbn [length seq map zip_rows]. f_equal.
  rewrite <- seq_shift, map_map. injection H1 as H1. injection H2 as H2.
  rewrite <- (IH temps precs H1 H2). done.
Qed.

(** When the three arrays are lists of one length, [transform] returns the
    table of their entries taken position by position, in the order of the
    document, under the three column names. *)
Lemma transform_zips (raw_data hourly : pyval) (ts temps precs : list pyval) (w : world) :
  getitem raw_data (txt "hourly") = Return hourly →
  getitem hourly (txt "time") = Return (PList ts) →
  getitem hourly (txt "temperature_2m") = Return (PList temps) →
  getitem hourly (txt "precipitation") = Return (PList precs) →
  length ts = length temps → length temps = length precs →
  ∃ df,
    Transform.transform Transform.OpenMeteoTransformer raw_data w
    = (Return (Some df), World (files w) (stdout w ++ [TransformationSuccessful]) (stderr w))
    ∧ df_column_names df
      = [Transform.Timestamp; Transform.Temperature; Transform.Precipitation]
    ∧ df_rows df = zip_rows ts temps precs.
Proof.
  intros Hh Ht Hm Hp H1 H2. cbn [Transform.transform Transform.OpenMeteoTransformer]. run.
  rewrite Hh, Ht, Hm, Hp. unfold DataFrame_of_dict, extract_index.
  cbn [raw_lengths dict_indexes omap list_omap snd fst forallb].
  rewrite <- H2, <- H1, !Nat.eqb_refl. cbn [andb negb].
  eexists. split; [reflexivity|]. split; [reflexivity|].
  cbn [map fst snd column_cells]. by apply df_rows_zip.
Qed.

(** Arrays that are lists of unequal lengths stop the construction of the
    table with [ValueError], which passes the handler of [transform]. *)
Lemma transform_run_uneven (raw_data hourly : pyval) (ts temps precs : list pyval)
    (w : world) :
  getitem raw_data (txt "hourly") = Return hourly →
  getitem hourly (txt "time") = Return (PList ts) →
  getitem hourly (txt "temperature_2m") = Return (PList temps) →
  getitem hourly (txt "precipitation") = Return (PList precs) →
  ¬ (length ts = length temps ∧ length temps = length precs) →
  Transform.transform Transform.OpenMeteoTransformer raw_data w = (Raise ValueError, w).
Proof.
  intros Hh Ht Hm Hp Hlen. cbn [Transform.transform Transform.OpenMeteoTransformer]. run.
  rewrite Hh, Ht, Hm, Hp. unfold DataFrame_of_dict, extract_index.
  cbn [raw_lengths dict_indexes omap list_omap snd fst].
  cbn [forallb]. rewrite andb_true_r.
  destruct (Nat.eqb_spec (length ts) (length temps)) as [H1|H1];
    destruct (Nat.eqb_spec (length ts) (length precs)) as [H2|H2]; cbn [andb negb]; try done.
  destruct Hlen. split; congruence.
Qed.

(** C7, as the code has it: when the three arrays of "hourly" are lists
    and their lengths are not all the same, the construction of the table
    raises [ValueError]; the handler of [transform] catches [KeyError]
    only, so the exception reaches the caller: no table is returned,
    nothing is printed and nothing is written.  The command that loaded
    such a document catches the exception: [execute] prints the line that
    reports the [ValueError] and returns normally, with the files as they
    were, so no processed file is written. *)
Theorem uneven_arrays_raise (to_csv_text : DataFrame → text)
    (repo : Transform.WeatherDataRepository) (raw_data hourly : pyval)
    (ts temps precs : list pyval) (w : world) :
  getitem raw_data (txt "hourly") = Return hourly →
  getitem hourly (txt "time") = Return (PList ts) →
  getitem hourly (txt "temperature_2m") = Return (PList temps) →
  getitem hourly (txt "precipitation") = Return (PList precs) →
  ¬ (length ts = length temps ∧ length temps = length precs) →
  Transform.transform Transform.OpenMeteoTransformer raw_data w = (Raise ValueError, w)
  ∧ (Transform.load repo w = (Return raw_data, w) →
     Transform.execute to_csv_text
       {| Transform.repository := repo; Transform.transformer := Transform.OpenMeteoTransformer |} w
     = (Return (),
        World (files w) (stdout w ++ [ErrorDuringTransformation ValueError]) (stderr w))).
Proof.
  intros Hh Ht Hm Hp Hlen.
  pose proof (transform_run_uneven raw_data hourly ts temps precs w Hh Ht Hm Hp Hlen) as Hrun.
  split; [exact Hrun|].
  intros Hload. unfold Transform.execute, Transform.load_transform_save, try_except.
  cbn [Transform.repository Transform.transformer].
  rewrite bind_run, Hload. cbv beta iota.
  rewrite bind_run, Hrun. done.
Qed.

Lemma uneven_arrays_raise_witness :
  Transform.transform Transform.OpenMeteoTransformer uneven_doc uneven_world
  = (Raise ValueError, uneven_world)
  ∧ Transform.execute (λ _, [])
      {| Transform.repository := {| Transform.storage_path := Transform.default_storage_path |};
         Transform.transformer := Transform.OpenMeteoTransformer |} uneven_world
    = (Return (),
       World (files uneven_world) [ErrorDuringTransformation ValueError] []).
Proof.
  pose proof (uneven_arrays_raise (λ _, [])
                {| Transform.storage_path := Transform.default_storage_path |} uneven_doc
                (PDict [(txt "time", PList [PStr (txt "2024-01-01T00:00");
                                            PStr (txt "2024-01-01T01:00")]);
                        (txt "temperature_2m", PList [PFloat (FFinite false (txt "5") 1)]);
                        (txt "precipitation", PList [PFloat (FFinite false [] 0)])])
                [PStr (txt "2024-01-01T00:00"); PStr (txt "2024-01-01T01:00")]
                [PFloat (FFinite false (txt "5") 1)] [PFloat (FFinite false [] 0)] uneven_world
                eq_refl eq_refl eq_refl eq_refl ltac:(cbn; lia)) as [Ht Hx].
  split; [exact Ht|]. apply Hx. vm_compute. reflexivity.
Defined.

(** C7, as the claim states it, fails on [uneven_doc], whose arrays have
    two, one and one entries: [transform] signals an explicit error, the
    [ValueError], and produces no table at all. *)
Lemma uneven_arrays_counterexample :
  ¬ ∃ (table : option DataFrame) (w' : world),
      Transform.transform Transform.OpenMeteoTransformer uneven_doc empty_world
      = (Return table, w').
Proof. intros (table & w' & H). vm_compute in H. discriminate H. Qed.

Lemma transform_propagates_shape (raw_data : pyval) (w : world) :
  non_mapping_level raw_data = true →
  Transform.transform Transform.OpenMeteoTransformer raw_data w = (Raise TypeError, w).
Proof.
  intros Hnm. cbn [Transform.transform Transform.OpenMeteoTransformer]. run.
  destruct raw_data as [| | | | |?|d]; try done. cbn [non_mapping_level getitem] in *.
  destruct (dict_get (txt "hourly") d) as [hourly|]; [|done].
  by destruct hourly.
Qed.

(** C10: the handler of [transform] contains the missing-key condition
    only.  When the document, or the value of its "hourly", is not a mapping
    (a list, a string, a number, a boolean or null), the subscript raises
    [TypeError], which [except KeyError] does not catch: the exception
    reaches the caller, no table and no [None] is returned, and nothing is
    printed. *)
Theorem transform_propagates_TypeError (raw_data : pyval) (w : world) :
  non_mapping_level raw_data = true →
  Transform.transform Transform.OpenMeteoTransformer raw_data w = (Raise TypeError, w).
Proof. apply transform_propagates_shape. Qed.

Lemma transform_propagates_TypeError_witness :
  Transform.transform Transform.OpenMeteoTransformer
    (PDict [(txt "hourly", PList [])]) empty_world = (Raise TypeError, empty_world)
  ∧ Transform.transform Transform.OpenMeteoTransformer
      (PDict [(txt "hourly", PStr (txt "time"))]) empty_world = (Raise TypeError, empty_world).
Proof.
  split.
  - apply (transform_propagates_TypeError (PDict [(txt "hourly", PList [])]) empty_world).
    reflexivity.
  - apply (transform_propagates_TypeError (PDict [(txt "hourly", PStr (txt "time"))])
             empty_world).
    reflexivity.
Defined.

(** The outcomes of [transform], all of them: [None] with the missing-key
    line when a key is missing; [TypeError] when a level is not a mapping;
    otherwise what the construction of the table gives, a table with the
    success line or [ValueError]. *)
Lemma transform_outcomes (raw_data : pyval) (w : world) :
  (∃ k, first_missing_key raw_data = Some k
        ∧ Transform.transform Transform.OpenMeteoTransformer raw_data w
          = (Return None,
             World (files w) (stdout w ++ [MissingKeyInData (KeyError k)]) (stderr w)))
  ∨ (non_mapping_level raw_data = true
     ∧ Transform.transform Transform.OpenMeteoTransformer raw_data w = (Raise TypeError, w))
  ∨ (∃ df, Transform.transform Transform.OpenMeteoTransformer raw_data w
           = (Return (Some df),
              World (files w) (stdout w ++ [TransformationSuccessful]) (stderr w)))
  ∨ Transform.transform Transform.OpenMeteoTransformer raw_data w = (Raise ValueError, w).
Proof.
  destruct (first_missing_key raw_data) as [k|] eqn:Hk.
  { left. exists k. split; [done|]. by apply transform_run_missing. }
  destruct (non_mapping_level raw_data) eqn:Hnm.
  { right. left. split; [done|]. by apply transform_propagates_shape. }
  right. right.
  destruct raw_data as [| | | | |?|d]; try done. cbn [first_missing_key non_mapping_level] in *.
  destruct (dict_get (txt "hourly") d) as [hourly|] eqn:Hh; [|done].
  destruct hourly as [| | | | |?|h]; try done.
  destruct (dict_get (txt "time") h) as [ts|] eqn:Ht; [|done].
  destruct (dict_get (txt "temperature_2m") h) as [temps|] eqn:Hm; [|done].
  destruct (dict_get (txt "precipitation") h) as [precs|] eqn:Hp; [|done].
  cbn [Transform.transform Transform.OpenMeteoTransformer]. run.
  cbn [getitem]. rewrite Hh. cbn [getitem]. rewrite Ht, Hm, Hp. unfold DataFrame_of_dict.
  destruct (extract_index _) as [index|e] eqn:Hidx.
  - left. by eexists.
  - right. assert (e = ValueError) as ->; [|done].
    unfold extract_index in Hidx.
    destruct (raw_lengths _) as [|n lengths], (dict_indexes _) as [|i indexes];
      try destruct (negb _); by simplify_eq.
Qed.

(** * More on the storage: what a save touches *)

(** [makedirs] only fills gaps: an entry that exists is left as it is. *)
Lemma mkdir_chain_existing chain w r w1 q n :
  mkdir_chain chain w = (r, w1) → lookup_node q w = Some n → lookup_node q w1 = Some n.
Proof.
  revert w. induction chain as [|a chain IH]; intros w Hrun Hq; cbn [mkdir_chain] in Hrun.
  - unfold mret, M_ret in Hrun. by simplify_eq.
  - destruct (lookup_node a w) as [[c|]|] eqn:Ha.
    + by simplify_eq.
    + by apply (IH w).
    + rewrite bind_run in Hrun. cbn [set_node] in Hrun. apply IH in Hrun; [done|].
      rewrite lookup_node_set. unfold lookup_node in *.
      destruct (is_root q); [done|]. case_decide; [|done]. subst q.
      destruct (is_root a); congruence.
Qed.

(** What is not on the chain is not touched, whatever the outcome. *)
Lemma mkdir_chain_outside chain w r w1 q :
  mkdir_chain chain w = (r, w1) → q ∉ chain → lookup_node q w1 = lookup_node q w.
Proof.
  revert w. induction chain as [|a chain IH]; intros w Hrun Hq; cbn [mkdir_chain] in Hrun.
  - unfold mret, M_ret in Hrun. by simplify_eq.
  - apply not_elem_of_cons in Hq as [Hqa Hq].
    destruct (lookup_node a w) as [[c|]|] eqn:Ha.
    + by simplify_eq.
    + by apply (IH w).
    + rewrite bind_run in Hrun. cbn [set_node] in Hrun. rewrite (IH _ Hrun Hq).
      rewrite lookup_node_set. unfold lookup_node.
      destruct (is_root q); [done|]. by rewrite decide_False.
Qed.

(** A regular file on the chain stops [makedirs]. *)
Lemma mkdir_chain_blocked chain w a c :
  a ∈ chain → lookup_node a w = Some (File c) →
  ∃ e w1, mkdir_chain chain w = (Raise e, w1) ∧ in_the_way e = true.
Proof.
  revert w. induction chain as [|b chain IH]; intros w Hin Ha; [by apply elem_of_nil in Hin|].
  cbn [mkdir_chain]. destruct (lookup_node b w) as [[c'|]|] eqn:Hb.
  - eexists _, w. split; [done|]. by destruct chain.
  - apply elem_of_cons in Hin as [->|Hin]; [congruence|]. by apply IH.
  - apply elem_of_cons in Hin as [->|Hin]; [congruence|].
    rewrite bind_run. cbn [set_node]. apply IH; [done|].
    rewrite lookup_node_set. unfold lookup_node in *.
    destruct (is_root a); [done|]. case_decide; [|done]. subst b.
    destruct (is_root a); congruence.
Qed.

(** A chain that raised raises again, and creates nothing more. *)
Lemma mkdir_chain_raises_again chain w e w1 :
  mkdir_chain chain w = (Raise e, w1) → mkdir_chain chain w1 = (Raise e, w1).
Proof.
  revert w. induction chain as [|a chain IH]; intros w Hrun; cbn [mkdir_chain] in Hrun.
  - unfold mret, M_ret in Hrun. by simplify_eq.
  - destruct (lookup_node a w) as [[c|]|] eqn:Ha.
    + simplify_eq. cbn [mkdir_chain]. by rewrite Ha.
    + cbn [mkdir_chain]. rewrite (mkdir_chain_keeps _ _ _ _ _ Hrun Ha). by apply (IH w).
    + rewrite bind_run in Hrun. cbn [set_node] in Hrun. cbn [mkdir_chain].
      assert (Hd : lookup_node a w1 = Some Dir).
      { apply (mkdir_chain_keeps _ _ _ _ _ Hrun). rewrite lookup_node_set.
        destruct (is_root a); [done|]. by rewrite decide_True. }
      rewrite Hd. by apply IH in Hrun.
Qed.

(** [open] for writing either refuses and changes nothing, or leaves the
    file with the content. *)
Lemma open_write_cases p content w :
  (∃ e, open_write p content w = (Raise e, w))
  ∨ open_write p content w
    = (Return (), World (<[p := File content]> (files w)) (stdout w) (stderr w)).
Proof.
  unfold open_write. case_bool_decide; [left; by eexists|].
  rewrite bind_run. unfold check_parent.
  destruct (lookup_node p w) as [[c|]|]; [|left; by eexists|];
    (case_bool_decide; [by right|]);
    destruct (lookup_node (dirname p) w) as [[c'|]|]; (by right) || (left; by eexists).
Qed.

Lemma upto_last_sep_bare p : bare_name p = true → upto_last_sep p = [].
Proof.
  induction p as [|c r IH]; [done|]. cbn [bare_name forallb]. intros [Hc Hr]%andb_prop.
  cbn [upto_last_sep]. rewrite (IH Hr). by destruct (is_sep c).
Qed.

(** A bare file name has no directory part. *)
Lemma dirname_bare_name p : bare_name p = true → dirname p = [].
Proof. intros Hp. unfold dirname, path_split. by rewrite (upto_last_sep_bare p Hp). Qed.

Lemma ancestors_nil : ancestors [] = [].
Proof. done. Qed.

(** A path is not among the directories [makedirs] walks through for its
    directory part. *)
Lemma target_not_on_chain p : p ∉ ancestors (dirname p).
Proof.
  destruct (decide (p = [])) as [->|Hne].
  { change (dirname []) with (@nil N). rewrite ancestors_nil. apply not_elem_of_nil. }
  destruct (is_root p) eqn:Hroot; [|by apply not_own_ancestor].
  intros Hin. apply ancestors_from_length in Hin as Hlen.
  pose proof (length_dirname p) as Hle.
  unfold ancestors in Hin. cbn [ancestors_from] in Hin.
  destruct (bool_decide (dirname p = []) || is_root (dirname p)) eqn:Hd;
    [by apply elem_of_nil in Hin|].
  apply orb_false_elim in Hd as [_ Hd].
  revert Hd. unfold dirname, path_split. cbn [fst].
  unfold is_root in Hroot. apply andb_prop in Hroot as [_ Hall].
  assert (Hhead : forallb is_sep (upto_last_sep p) = true).
  { rewrite upto_last_sep_prefix. apply Is_true_true, forallb_True, Forall_take.
    by apply forallb_True, Is_true_true. }
  rewrite Hhead. unfold is_root. rewrite Hhead.
  destruct (upto_last_sep p) as [|c r] eqn:Hu; [|done].
  destruct p as [|c r]; [done|]. cbn [upto_last_sep] in Hu. cbn [forallb] in Hall.
  apply andb_prop in Hall as [Hc _]. rewrite Hc in Hu. by destruct (upto_last_sep r).
Qed.


Lemma lookup_node_other p q n fm so se so' se' :
  q ≠ p →
  lookup_node q (World (<[p := n]> fm) so se) = lookup_node q (World fm so' se').
Proof.
  intros Hq. unfold lookup_node. cbn [files]. destruct (is_root q); [done|].
  by rewrite lookup_insert_ne.
Qed.

Lemma lookup_node_log q fm so se so' se' :
  lookup_node q (World fm so se) = lookup_node q (World fm so' se').
Proof. done. Qed.

(** The write of a save, the directories and then the file, whatever its
    outcome: an entry other than the file is kept if it exists, and is not
    touched at all if it is not a directory above the file. *)
Lemma write_frame p content w r w1 q :
  (makedirs (dirname p) ;; open_write p content) w = (r, w1) → q ≠ p →
  (∀ n, lookup_node q w = Some n → lookup_node q w1 = Some n)
  ∧ (q ∉ ancestors (dirname p) → lookup_node q w1 = lookup_node q w).
Proof.
  rewrite bind_run. unfold makedirs. case_bool_decide as Hd.
  { intros [= <- <-] _. done. }
  destruct (mkdir_chain (ancestors (dirname p)) w) as [[[]|e] wm] eqn:Hmk.
  - intros Hop Hq.
    assert (Hsame : lookup_node q w1 = lookup_node q wm).
    { destruct (open_write_cases p content wm) as [[e He]|Hw]; rewrite Hop in *.
      - by simplify_eq.
      - simplify_eq. rewrite lookup_node_set. unfold lookup_node.
        destruct (is_root q); [done|]. by rewrite decide_False. }
    rewrite Hsame. split.
    + intros n. by apply (mkdir_chain_existing _ _ _ _ _ _ Hmk).
    + by apply (mkdir_chain_outside _ _ _ _ _ Hmk).
  - intros [= <- <-] Hq. split.
    + intros n. by apply (mkdir_chain_existing _ _ _ _ _ _ Hmk).
    + by apply (mkdir_chain_outside _ _ _ _ _ Hmk).
Qed.

(** What [Transform.save] leaves differs from what the write leaves by the
    printed line only. *)
Lemma transform_save_lookup (to_csv_text : DataFrame → text)
    (self : Transform.WeatherDataRepository) (df : DataFrame) (p q : text) (w : world) :
  lookup_node q (Transform.save to_csv_text self df p w).2
  = lookup_node q ((makedirs (dirname p) ;; open_write p (to_csv_text df)) w).2.
Proof.
  rewrite transform_save_run.
  by destruct ((makedirs (dirname p) ;; open_write p (to_csv_text df)) w) as [[[]|e] w'].
Qed.

(** X1: a storage path with no separator in it, a bare file name, has an
    empty directory part; [os.makedirs] refuses the empty name, so both
    saves raise [FileNotFoundError] for the empty path before anything is
    written or printed. *)
Theorem save_needs_directory_part (to_csv_text : DataFrame → text)
    (self : Transform.WeatherDataRepository) (p : text) (data : pyval) (df : DataFrame)
    (w : world) :
  bare_name p = true →
  Extract.save {| Extract.storage_path := p |} data w = (Raise (FileNotFoundError []), w)
  ∧ Transform.save to_csv_text self df p w = (Raise (FileNotFoundError []), w).
Proof.
  intros Hd%dirname_bare_name. split.
  - by apply save_without_directory.
  - rewrite transform_save_run, bind_run, Hd. done.
Qed.

Lemma save_needs_directory_part_witness :
  Extract.save {| Extract.storage_path := txt "weather_data.json" |} happy_doc empty_world
  = (Raise (FileNotFoundError []), empty_world)
  ∧ Transform.save (λ _, []) {| Transform.storage_path := Transform.default_storage_path |}
      (table_of [] [] []) (txt "processed_weather.csv") empty_world
    = (Raise (FileNotFoundError []), empty_world).
Proof.
  split.
  - apply (save_needs_directory_part (λ _, [])
             {| Transform.storage_path := Transform.default_storage_path |}
             (txt "weather_data.json") happy_doc (table_of [] [] []) empty_world).
    reflexivity.
  - apply (save_needs_directory_part (λ _, [])
             {| Transform.storage_path := Transform.default_storage_path |}
             (txt "processed_weather.csv") happy_doc (table_of [] [] []) empty_world).
    reflexivity.
Defined.

(** X2: whatever its outcome, a save to [p] keeps every other entry that
    exists, file or directory, as it is, and does not touch a path that is
    neither [p] nor a directory above [p]: all it can add besides the file
    are the missing directories above it. *)
Theorem save_touches_only_its_path (to_csv_text : DataFrame → text)
    (self : Transform.WeatherDataRepository) (p q : text) (data : pyval) (df : DataFrame)
    (w : world) :
  q ≠ p →
  (∀ n, lookup_node q w = Some n →
        lookup_node q (Extract.save {| Extract.storage_path := p |} data w).2 = Some n
        ∧ lookup_node q (Transform.save to_csv_text self df p w).2 = Some n)
  ∧ (q ∉ ancestors (dirname p) →
     lookup_node q (Extract.save {| Extract.storage_path := p |} data w).2 = lookup_node q w
     ∧ lookup_node q (Transform.save to_csv_text self df p w).2 = lookup_node q w).
Proof.
  intros Hq. rewrite extract_save_run, transform_save_lookup.
  destruct ((makedirs (dirname p) ;; open_write p (json_dumps data)) w) as [r1 w1] eqn:H1.
  destruct ((makedirs (dirname p) ;; open_write p (to_csv_text df)) w) as [r2 w2] eqn:H2.
  destruct (write_frame _ _ _ _ _ q H1 Hq) as [Hk1 Hf1].
  destruct (write_frame _ _ _ _ _ q H2 Hq) as [Hk2 Hf2].
  cbn [snd]. split.
  - intros n Hn. split; [by apply Hk1|by apply Hk2].
  - intros Hout. split; [by apply Hf1|by apply Hf2].
Qed.

(** X3: when a regular file lies where a directory above the path is
    needed, both saves raise [FileExistsError] or [NotADirectoryError], the
    path is left as it was, and nothing is printed. *)
Theorem save_blocked_by_a_file (to_csv_text : DataFrame → text)
    (self : Transform.WeatherDataRepository) (p a : text) (c : text) (data : pyval)
    (df : DataFrame) (w : world) :
  a ∈ ancestors (dirname p) → lookup_node a w = Some (File c) →
  (∃ e w1, Extract.save {| Extract.storage_path := p |} data w = (Raise e, w1)
           ∧ in_the_way e = true
           ∧ lookup_node p w1 = lookup_node p w ∧ stdout w1 = stdout w)
  ∧ (∃ e w1, Transform.save to_csv_text self df p w = (Raise e, w1)
             ∧ in_the_way e = true
             ∧ lookup_node p w1 = lookup_node p w ∧ stdout w1 = stdout w).
Proof.
  intros Hin Ha.
  assert (Hd : dirname p ≠ []).
  { intros Hd. rewrite Hd, ancestors_nil in Hin. by apply elem_of_nil in Hin. }
  destruct (mkdir_chain_blocked _ w a c Hin Ha) as (e & w1 & Hmk & He).
  pose proof (mkdir_chain_outside _ _ _ _ p Hmk (target_not_on_chain p)) as Hp.
  destruct (mkdir_chain_frame _ _ _ _ Hmk) as [Hso _].
  split; exists e, w1.
  - rewrite extract_save_run, bind_run. unfold makedirs.
    by rewrite bool_decide_false, Hmk by done.
  - rewrite transform_save_run, bind_run. unfold makedirs.
    by rewrite bool_decide_false, Hmk by done.
Qed.

Lemma save_touches_only_its_path_witness :
  lookup_node (txt "data/notes.txt")
    (Extract.save {| Extract.storage_path := Extract.default_storage_path |}
       happy_doc notes_world).2 = Some (File (txt "keep"))
  ∧ lookup_node (txt "data/notes.txt")
      (Transform.save (λ _, []) {| Transform.storage_path := Transform.default_storage_path |}
         (table_of [] [] []) Extract.default_storage_path notes_world).2
    = Some (File (txt "keep")).
Proof.
  apply (proj1 (save_touches_only_its_path (λ _, [])
                  {| Transform.storage_path := Transform.default_storage_path |}
                  Extract.default_storage_path (txt "data/notes.txt") happy_doc
                  (table_of [] [] []) notes_world ltac:(discriminate))).
  reflexivity.
Defined.

Lemma save_blocked_by_a_file_witness :
  ∃ e w1, Extract.save {| Extract.storage_path := Extract.default_storage_path |}
            happy_doc blocked_world = (Raise e, w1)
          ∧ in_the_way e = true
          ∧ lookup_node Extract.default_storage_path w1
            = lookup_node Extract.default_storage_path blocked_world
          ∧ stdout w1 = stdout blocked_world.
Proof.
  apply (proj1 (save_blocked_by_a_file (λ _, [])
                  {| Transform.storage_path := Transform.default_storage_path |}
                  Extract.default_storage_path (txt "data") [] happy_doc (table_of [] [] [])
                  blocked_world ltac:(vm_compute; apply list_elem_of_here) ltac:(reflexivity))).
Defined.

(** Both saves as the model runs them on a storage that accepts the
    write. *)
Lemma accepted_saves (to_csv_text : DataFrame → text)
    (self : Transform.WeatherDataRepository) (p : text) (data : pyval) (df : DataFrame)
    (w : world) :
  storage_accepts p w = true →
  ∃ w1 w2,
    Extract.save {| Extract.storage_path := p |} data w = (Return (), w1)
    ∧ Transform.save to_csv_text self df p w = (Return (), w2)
    ∧ Forall (λ a, lookup_node a w1 = Some Dir ∧ lookup_node a w2 = Some Dir)
        (ancestors (dirname p))
    ∧ lookup_node (dirname p) w1 = Some Dir ∧ lookup_node (dirname p) w2 = Some Dir
    ∧ lookup_node p w1 = Some (File (json_dumps data))
    ∧ lookup_node p w2 = Some (File (to_csv_text df))
    ∧ stdout w1 = stdout w ∧ stdout w2 = stdout w ++ [ProcessedDataSaved p].
Proof.
  intros Hacc. destruct (accepted_write p w Hacc) as (wm & Hmk & Hso & Hse & Hp & Hw).
  destruct (Hw (json_dumps data)) as (Hs1 & _ & _).
  destruct (Hw (to_csv_text df)) as (Hs2 & _ & _).
  eexists _, _. rewrite extract_save_run, transform_save_run, Hs1, Hs2.
  split; [done|]. split; [done|].
  assert (Hdirs : ∀ a content so se, lookup_node a wm = Some Dir →
            lookup_node a (World (<[p := File content]> (files wm)) so se) = Some Dir).
  { intros a content so se Ha.
    pose proof (lookup_node_dir_set p a (File content) wm Hp Ha) as Hd.
    by rewrite (lookup_node_log a _ so se (stdout wm) (stderr wm)). }
  assert (Hne : dirname p ≠ []).
  { intros Hd. unfold makedirs in Hmk. by rewrite Hd in Hmk. }
  assert (Hchain : Forall (λ a, lookup_node a wm = Some Dir) (ancestors (dirname p))).
  { unfold makedirs in Hmk. rewrite bool_decide_false in Hmk by done.
    by apply mkdir_chain_made in Hmk. }
  assert (Hdir : lookup_node (dirname p) wm = Some Dir).
  { destruct (dirname_made (dirname p) Hne) as [Hr|Hin].
    - unfold lookup_node. by rewrite Hr.
    - rewrite Forall_forall in Hchain. by apply Hchain. }
  cbn [files stdout stderr]. repeat split.
  - eapply Forall_impl; [exact Hchain|]. intros a Ha. cbv beta. split; by apply Hdirs.
  - by apply Hdirs.
  - by apply Hdirs.
  - by apply lookup_node_written.
  - by apply lookup_node_written.
Qed.

(** X4: on a storage that accepts the write, the raw save returns with
    every directory above the path in place, the ones that were missing
    made, and with the path holding the encoding of the document.  A
    processed save that returns leaves the same directories, the path
    holding the CSV text of the table, and its line printed. *)
Theorem save_makes_the_directories (to_csv_text : DataFrame → text)
    (self : Transform.WeatherDataRepository) (p : text) (data : pyval) (df : DataFrame)
    (w : world) :
  storage_accepts p w = true →
  (∃ w1,
     Extract.save {| Extract.storage_path := p |} data w = (Return (), w1)
     ∧ Forall (λ a, lookup_node a w1 = Some Dir) (ancestors (dirname p))
     ∧ lookup_node (dirname p) w1 = Some Dir
     ∧ lookup_node p w1 = Some (File (json_dumps data))
     ∧ stdout w1 = stdout w)
  ∧ (∀ w2,
       Transform.save to_csv_text self df p w = (Return (), w2) →
       Forall (λ a, lookup_node a w2 = Some Dir) (ancestors (dirname p))
       ∧ lookup_node (dirname p) w2 = Some Dir
       ∧ lookup_node p w2 = Some (File (to_csv_text df))
       ∧ stdout w2 = stdout w ++ [ProcessedDataSaved p]).
Proof.
  intros Hacc.
  destruct (accepted_saves to_csv_text self p data df w Hacc)
    as (w1 & w2 & H1 & H2 & Hdirs & Hd1 & Hd2 & Hf1 & Hf2 & Hso1 & Hso2).
  apply Forall_and in Hdirs as [Hdirs1 Hdirs2]. split.
  - by exists w1.
  - intros w2' H2'. rewrite H2 in H2'. by injection H2' as <-.
Qed.

Lemma save_makes_the_directories_witness :
  (∃ w1,
     Extract.save {| Extract.storage_path := Extract.default_storage_path |}
       happy_doc notes_world = (Return (), w1)
     ∧ Forall (λ a, lookup_node a w1 = Some Dir)
         (ancestors (dirname Extract.default_storage_path))
     ∧ lookup_node (dirname Extract.default_storage_path) w1 = Some Dir
     ∧ lookup_node Extract.default_storage_path w1 = Some (File (json_dumps happy_doc))
     ∧ stdout w1 = stdout notes_world)
  ∧ (∀ w2,
       Transform.save (λ _, txt "csv")
         {| Transform.storage_path := Transform.default_storage_path |}
         (table_of [] [] []) Extract.default_storage_path notes_world = (Return (), w2) →
       Forall (λ a, lookup_node a w2 = Some Dir)
         (ancestors (dirname Extract.default_storage_path))
       ∧ lookup_node (dirname Extract.default_storage_path) w2 = Some Dir
       ∧ lookup_node Extract.default_storage_path w2 = Some (File (txt "csv"))
       ∧ stdout w2 = stdout notes_world ++ [ProcessedDataSaved Extract.default_storage_path]).
Proof.
  apply (save_makes_the_directories (λ _, txt "csv")
           {| Transform.storage_path := Transform.default_storage_path |}
           Extract.default_storage_path happy_doc (table_of [] [] []) notes_world).
  vm_compute. reflexivity.
Defined.

(** Whether the write of a save goes through does not depend on the text
    written. *)
Lemma write_returns_accepts p content w w1 :
  (makedirs (dirname p) ;; open_write p content) w = (Return (), w1) →
  storage_accepts p w = true.
Proof.
  unfold storage_accepts. rewrite !bind_run.
  destruct (makedirs (dirname p) w) as [[[]|e] wm]; [|done]. intros Hop.
  destruct (open_write_spec _ _ _ _ Hop) as (_ & Hp & Hpar).
  by rewrite (open_write_run p [] wm (open_write_nonempty _ _ _ _ Hop) Hp Hpar).
Qed.

Lemma accepts_blocked_by_file p w :
  storage_accepts p w = true → Forall (no_file_at w) (ancestors (dirname p)).
Proof.
  intros Hacc. destruct (accepted_write p w Hacc) as (wm & Hmk & _).
  unfold makedirs in Hmk. case_bool_decide; [done|].
  apply Forall_forall. intros a Ha c Hfile.
  destruct (mkdir_chain_blocked _ w a c Ha Hfile) as (e & w1 & Hrun & _). congruence.
Qed.

(** What a storage that accepts a write at [p] looks like: [p] has a
    directory part and is not a directory, and no regular file lies on the
    directories above it. *)
Lemma storage_accepts_needs p w :
  storage_accepts p w = true →
  dirname p ≠ [] ∧ lookup_node p w ≠ Some Dir
  ∧ Forall (no_file_at w) (ancestors (dirname p)).
Proof.
  intros Hacc. destruct (accepted_write p w Hacc) as (wm & Hmk & _ & _ & Hp & _).
  split; [|split].
  - intros Hd. unfold makedirs in Hmk. by rewrite Hd in Hmk.
  - intros Hd. destruct Hp. unfold makedirs in Hmk. case_bool_decide; [done|].
    by apply (mkdir_chain_keeps _ _ _ _ _ Hmk).
  - by apply accepts_blocked_by_file.
Qed.

(** X5: what a save that returns has found.  When either save returns,
    the path has a directory part, it did not name a directory, and no
    regular file lay where a directory above it was needed: each of these
    is needed for a save to go through. *)
Theorem save_returns_only_when (to_csv_text : DataFrame → text)
    (self : Transform.WeatherDataRepository) (p : text) (data : pyval) (df : DataFrame)
    (w : world) :
  (∃ w1, Extract.save {| Extract.storage_path := p |} data w = (Return (), w1))
  ∨ (∃ w1, Transform.save to_csv_text self df p w = (Return (), w1)) →
  dirname p ≠ [] ∧ lookup_node p w ≠ Some Dir
  ∧ Forall (no_file_at w) (ancestors (dirname p)).
Proof.
  intros [(w1 & Hsave)|(w1 & Hsave)]; apply storage_accepts_needs.
  - rewrite extract_save_run in Hsave. by apply (write_returns_accepts _ _ _ _ Hsave).
  - rewrite transform_save_run in Hsave.
    destruct ((makedirs (dirname p) ;; open_write p (to_csv_text df)) w)
      as [[[]|e] w2] eqn:Hw; [|done].
    by apply (write_returns_accepts _ _ _ _ Hw).
Qed.

Lemma save_returns_only_when_witness :
  dirname Extract.default_storage_path ≠ []
  ∧ lookup_node Extract.default_storage_path notes_world ≠ Some Dir
  ∧ Forall (no_file_at notes_world) (ancestors (dirname Extract.default_storage_path)).
Proof.
  apply (save_returns_only_when (λ _, [])
           {| Transform.storage_path := Transform.default_storage_path |}
           Extract.default_storage_path happy_doc (table_of [] [] []) notes_world).
  left. eexists. vm_compute. reflexivity.
Defined.
(** * More on the fetch stage *)

(** The write of a save prints nothing and reports nothing. *)
Lemma write_log p content w r w1 :
  (makedirs (dirname p) ;; open_write p content) w = (r, w1) →
  stdout w1 = stdout w ∧ stderr w1 = stderr w.
Proof.
  rewrite bind_run. destruct (makedirs (dirname p) w) as [[[]|e] wm] eqn:Hmk.
  - destruct (makedirs_frame _ _ _ _ Hmk) as [Hso Hse]. intros Hop.
    destruct (open_write_cases p content wm) as [[e He]|Hw]; rewrite Hop in *;
      by simplify_eq.
  - intros [= <- <-]. by apply (makedirs_frame _ _ _ _ Hmk).
Qed.

(** The runs of [task], one for each way through it. *)
Lemma task_run (self : Extract.WeatherService) (latitude longitude : pyval) (w : world) :
  Extract.task self latitude longitude w
  = match Extract.fetch (Extract.fetcher self) latitude longitude with
    | Raise e => (Raise e, w)
    | Return response =>
        if (Extract.status_code response =? 200)%Z then
          match Extract.json response with
          | Raise e => (Raise e, w)
          | Return data =>
              match Extract.save (Extract.repository self) data w with
              | (Return _, w') =>
                  (Return (), World (files w') (stdout w' ++ [FetchedAndSaved]) (stderr w'))
              | (Raise e, w') => (Raise e, w')
              end
          end
        else (Return (),
              World (files w) (stdout w ++ [FailedToFetch (Extract.status_code response)])
                (stderr w))
    end.
Proof.
  unfold Extract.task. run.
  destruct (Extract.fetch _ _ _) as [response|e]; [|done].
  destruct (_ =? _)%Z; [|done].
  destruct (Extract.json response) as [data|e]; [|done].
  by destruct (Extract.save _ data w) as [[[]|e] w'].
Qed.

Lemma extract_save_log (self : Extract.WeatherDataRepository) (data : pyval) w r w1 :
  Extract.save self data w = (r, w1) → stdout w1 = stdout w ∧ stderr w1 = stderr w.
Proof. destruct self as [p]. rewrite extract_save_run. apply write_log. Qed.

Lemma app_singleton_ne {A} (l : list A) (x : A) : l ++ [x] ≠ l.
Proof.
  intros H. apply (f_equal length) in H. rewrite length_app in H. cbn in H. lia.
Qed.

(** X6: [fetch_and_save_weather_data] returns normally whatever the fetch,
    the response and the storage do: the task runs on a thread, and an
    exception that ends it is reported on the error stream and goes no
    further.  At most one line is printed, the success line or the failure
    line; when an exception ended the task, nothing is printed. *)
Theorem fetch_and_save_never_raises (self : Extract.WeatherService)
    (latitude longitude : pyval) (w : world) :
  ∃ w', Extract.fetch_and_save_weather_data self latitude longitude w = (Return (), w')
        ∧ ((stdout w' = stdout w ++ [FetchedAndSaved] ∧ stderr w' = stderr w)
           ∨ (∃ code, stdout w' = stdout w ++ [FailedToFetch code] ∧ stderr w' = stderr w
                      ∧ files w' = files w)
           ∨ (∃ e, stdout w' = stdout w ∧ stderr w' = stderr w ++ [e])).
Proof.
  unfold Extract.fetch_and_save_weather_data, thread_start_join. rewrite task_run.
  destruct (Extract.fetch _ _ _) as [response|e].
  - destruct (_ =? _)%Z.
    + destruct (Extract.json response) as [data|e].
      * destruct (Extract.save _ data w) as [[[]|e] w1] eqn:Hsave;
          destruct (extract_save_log _ _ _ _ _ Hsave) as [Hso Hse]; eexists; (split; [done|]);
          cbn [stdout stderr files].
        -- left. by rewrite Hso, Hse.
        -- right. right. exists e. by rewrite Hso, Hse.
      * eexists. split; [done|]. right. right. by exists e.
    + eexists. split; [done|]. right. left. by eexists.
  - eexists. split; [done|]. right. right. by exists e.
Qed.

(** X7: when the fetch raises (the network is down), or the response has
    status 200 and a body that is not JSON, the call returns normally with
    the files and the printed lines as they were: nothing is saved, no line
    says so, and the exception is on the error stream. *)
Theorem failure_before_save_changes_nothing (self : Extract.WeatherService)
    (latitude longitude : pyval) (e : exn) (w : world) :
  Extract.fetch (Extract.fetcher self) latitude longitude = Raise e
  ∨ (∃ response,
       Extract.fetch (Extract.fetcher self) latitude longitude = Return response
       ∧ Extract.status_code response = 200%Z ∧ Extract.json response = Raise e) →
  Extract.fetch_and_save_weather_data self latitude longitude w
  = (Return (), World (files w) (stdout w) (stderr w ++ [e])).
Proof.
  unfold Extract.fetch_and_save_weather_data, thread_start_join. rewrite task_run.
  intros [Hfetch|(response & Hfetch & Hcode & Hjson)]; rewrite Hfetch; [done|].
  by rewrite Hcode, Hjson.
Qed.

Lemma failure_before_save_changes_nothing_witness :
  Extract.fetch_and_save_weather_data
    {| Extract.fetcher := Extract.OpenMeteoFetcher (λ _ _, Raise ConnectionError);
       Extract.repository := {| Extract.storage_path := Extract.default_storage_path |} |}
    Extract.default_latitude Extract.default_longitude notes_world
  = (Return (), World (files notes_world) [] [ConnectionError])
  ∧ Extract.fetch_and_save_weather_data
      {| Extract.fetcher :=
           Extract.OpenMeteoFetcher
             (λ _ _, Return {| Extract.status_code := 200;
                               Extract.json := Raise JSONDecodeError |});
         Extract.repository := {| Extract.storage_path := Extract.default_storage_path |} |}
      Extract.default_latitude Extract.default_longitude notes_world
    = (Return (), World (files notes_world) [] [JSONDecodeError]).
Proof.
  split.
  - apply (failure_before_save_changes_nothing
             {| Extract.fetcher := Extract.OpenMeteoFetcher (λ _ _, Raise ConnectionError);
                Extract.repository :=
                  {| Extract.storage_path := Extract.default_storage_path |} |}
             Extract.default_latitude Extract.default_longitude ConnectionError notes_world).
    left. reflexivity.
  - apply (failure_before_save_changes_nothing
             {| Extract.fetcher :=
                  Extract.OpenMeteoFetcher
                    (λ _ _, Return {| Extract.status_code := 200;
                                      Extract.json := Raise JSONDecodeError |});
                Extract.repository :=
                  {| Extract.storage_path := Extract.default_storage_path |} |}
             Extract.default_latitude Extract.default_longitude JSONDecodeError notes_world).
    right. eexists. repeat split.
Defined.

(** X8: the success line is printed only after the body is on disk: when
    the line is the one the call added, the response had status 200, its
    body was parsed, and the storage path holds the encoding of that body. *)
Theorem success_line_means_saved (self : Extract.WeatherService)
    (latitude longitude : pyval) (w : world) :
  stdout (Extract.fetch_and_save_weather_data self latitude longitude w).2
  = stdout w ++ [FetchedAndSaved] →
  ∃ response data,
    Extract.fetch (Extract.fetcher self) latitude longitude = Return response
    ∧ Extract.status_code response = 200%Z
    ∧ Extract.json response = Return data
    ∧ lookup_node (Extract.storage_path (Extract.repository self))
        (Extract.fetch_and_save_weather_data self latitude longitude w).2
      = Some (File (json_dumps data)).
Proof.
  unfold Extract.fetch_and_save_weather_data, thread_start_join. rewrite task_run.
  destruct (Extract.fetch _ _ _) as [response|e] eqn:Hfetch; cbn [snd stdout].
  2:{ by intros ?%eq_sym%app_singleton_ne. }
  destruct (_ =? _)%Z eqn:Hcode; cbn [snd stdout].
  2:{ by intros [= ?]%app_inv_head. }
  destruct (Extract.json response) as [data|e] eqn:Hjson; cbn [snd stdout].
  2:{ by intros ?%eq_sym%app_singleton_ne. }
  destruct (Extract.repository self) as [p]. cbn [Extract.storage_path].
  rewrite extract_save_run, bind_run.
  destruct (makedirs (dirname p) w) as [[[]|e] wm] eqn:Hmk.
  - destruct (makedirs_frame _ _ _ _ Hmk) as [Hso Hse].
    destruct (open_write p (json_dumps data) wm) as [[[]|e] w1] eqn:Hop; cbn [snd stdout].
    + destruct (open_write_spec _ _ _ _ Hop) as (-> & Hp & _). intros _.
      exists response, data. apply Z.eqb_eq in Hcode. repeat split; try done.
      cbn [snd files stdout stderr]. by apply lookup_node_written.
    + destruct (open_write_cases p (json_dumps data) wm) as [[e' He]|Hw]; rewrite Hop in *;
        [|done]. simplify_eq. rewrite Hso. by intros ?%eq_sym%app_singleton_ne.
  - destruct (makedirs_frame _ _ _ _ Hmk) as [Hso Hse]. cbn [snd stdout]. rewrite Hso.
    by intros ?%eq_sym%app_singleton_ne.
Qed.

Lemma success_line_means_saved_witness :
  ∃ response data,
    Extract.fetch (Extract.fetcher (stub_service 200))
      Extract.default_latitude Extract.default_longitude = Return response
    ∧ Extract.status_code response = 200%Z
    ∧ Extract.json response = Return data
    ∧ lookup_node (Extract.storage_path (Extract.repository (stub_service 200)))
        (Extract.fetch_and_save_weather_data (stub_service 200)
           Extract.default_latitude Extract.default_longitude empty_world).2
      = Some (File (json_dumps data)).
Proof.
  apply (success_line_means_saved (stub_service 200)
           Extract.default_latitude Extract.default_longitude empty_world).
  vm_compute. reflexivity.
Defined.
(** * More on the raw file *)

Lemma ascii_text_app a b : ascii_text (a ++ b) = ascii_text a && ascii_text b.
Proof. apply forallb_app. Qed.

Lemma digits_ascii ds : forallb is_digit ds = true → ascii_text ds = true.
Proof.
  induction ds as [|c ds IH]; [done|]. cbn [forallb ascii_text].
  intros [Hc Hds]%andb_prop. apply andb_true_intro. split; [|by apply IH].
  unfold is_digit in Hc. apply andb_prop in Hc as [_ Hc%N.leb_le]. apply N.ltb_lt. lia.
Qed.

Lemma hexdigit_ascii d : d < 16 → (hexdigit d <? 128) = true.
Proof. intros Hd. unfold hexdigit. destruct (N.ltb_spec d 10); apply N.ltb_lt; lia. Qed.

Lemma hex4_ascii n : ascii_text (hex4 n) = true.
Proof.
  unfold hex4, ascii_text. cbn [forallb].
  rewrite !hexdigit_ascii; [done|..]; by apply N.mod_lt.
Qed.

Lemma uescape_ascii n : ascii_text (uescape n) = true.
Proof. unfold uescape. cbn [ascii_text forallb]. apply hex4_ascii. Qed.

(** Whatever the character, what the encoder writes for it is ASCII. *)
Lemma escape_char_ascii c : ascii_text (escape_char c) = true.
Proof.
  unfold escape_char.
  repeat match goal with
         | |- context [if N.eqb c ?k then _ else _] => destruct (N.eqb c k); [done|]
         end.
  destruct (_ && _) eqn:Hc.
  - apply andb_prop in Hc as [_ Hc%N.leb_le]. cbn [ascii_text forallb].
    rewrite andb_true_r. apply N.ltb_lt. lia.
  - destruct (c <? 65536); [apply uescape_ascii|].
    by rewrite ascii_text_app, !uescape_ascii.
Qed.

Lemma encode_basestring_ascii_ascii s : ascii_text (encode_basestring_ascii s) = true.
Proof.
  unfold encode_basestring_ascii. change (ascii_text (34 :: ?t)) with (ascii_text t).
  rewrite ascii_text_app. apply andb_true_intro. split; [|done].
  induction s as [|c s IH]; [done|]. cbn [flat_map].
  by rewrite ascii_text_app, escape_char_ascii, IH.
Qed.

Lemma number_literal_ascii neg ip frac ex :
  forallb is_digit ip = true → digits_part frac → digits_part (snd <$> ex) →
  ascii_text (number_literal neg ip frac ex) = true.
Proof.
  intros Hip Hfrac Hex. unfold number_literal.
  rewrite !ascii_text_app, (digits_ascii ip Hip).
  assert (H1 : ascii_text (if neg then [45] else []) = true) by (by destruct neg).
  assert (H2 : ascii_text (match frac with Some f => 46 :: f | None => [] end) = true).
  { destruct frac as [f|]; [|done]. destruct Hfrac as [_ Hf].
    change (ascii_text f = true). by apply digits_ascii. }
  assert (H3 : ascii_text (match ex with
                           | Some (sg, ds) => 101 :: (if sg then 45 else 43) :: ds
                           | None => []
                           end) = true).
  { destruct ex as [[sg ds]|]; [|done]. destruct Hex as [_ Hds].
    destruct sg; change (ascii_text ds = true); by apply digits_ascii. }
  by rewrite H1, H2, H3.
Qed.

Lemma int_repr_ascii z : ascii_text (int_repr z) = true.
Proof. apply number_literal_ascii; [apply N_digits_are_digits|done..]. Qed.

Lemma floatstr_ascii x : wf_float x = true → ascii_text (floatstr x) = true.
Proof.
  destruct x as [neg ds decpt|[]|]; [|done..]. intros Hwf. cbn [floatstr]. unfold float_repr.
  pose proof (float_parts_spec neg ds decpt Hwf) as Hparts.
  destruct (float_parts ds decpt) as [[ip frac] ex].
  destruct Hparts as ([Hip _] & Hfrac & Hex & _). by apply number_literal_ascii.
Qed.

Lemma newline_indent_ascii level : ascii_text (newline_indent level) = true.
Proof.
  unfold newline_indent. cbn [ascii_text forallb].
  induction (4 * level)%nat as [|n IH]; [done|]. exact IH.
Qed.

Lemma join_ascii sep chunks :
  ascii_text sep = true → Forall (λ c, ascii_text c = true) chunks →
  ascii_text (join sep chunks) = true.
Proof.
  intros Hsep. induction 1 as [|c chunks Hc Hcs IH]; [done|].
  destruct chunks as [|c' chunks]; [done|].
  rewrite join_cons by done. by rewrite !ascii_text_app, Hc, Hsep, IH.
Qed.

Lemma iterencode_ascii d :
  json_value d = true → ∀ level, ascii_text (iterencode level d) = true.
Proof.
  induction d as [| [] | n | x | s | l IH | items IH] using pyval_induction;
    intros Hwf level; try done.
  - apply int_repr_ascii.
  - by apply floatstr_ascii.
  - apply encode_basestring_ascii_ascii.
  - destruct l as [|v l]; [done|]. cbn [iterencode].
    change (ascii_text (91 :: ?s)) with (ascii_text s).
    rewrite !ascii_text_app, !newline_indent_ascii. cbn [andb].
    rewrite andb_true_r. apply join_ascii.
    + cbn [ascii_text forallb]. apply newline_indent_ascii.
    + apply Forall_map. cbn [json_value] in Hwf.
      apply Is_true_true, forallb_True in Hwf.
      eapply Forall_impl; [apply Forall_and; split; [exact IH|exact Hwf]|].
      intros v' [Hv Hw]. cbv beta in *. apply Hv. by apply Is_true_true.
  - destruct items as [|kv items]; [done|]. cbn [iterencode].
    change (ascii_text (123 :: ?s)) with (ascii_text s).
    rewrite !ascii_text_app, !newline_indent_ascii. cbn [andb].
    rewrite andb_true_r. apply join_ascii.
    + cbn [ascii_text forallb]. apply newline_indent_ascii.
    + apply Forall_map. cbn [json_value] in Hwf. apply andb_prop in Hwf as [Hwf _].
      apply Is_true_true, forallb_True in Hwf.
      eapply Forall_impl; [apply Forall_and; split; [exact IH|exact Hwf]|].
      intros kv' [Hv Hw]. cbv beta in *. apply Is_true_true, andb_prop in Hw as [_ Hw].
      by rewrite !ascii_text_app, encode_basestring_ascii_ascii, Hv.
Qed.

(** X9: the text the raw repository writes for a well-formed document is
    ASCII, whatever characters the strings of the document hold: the
    encoder escapes every character outside the range from space to tilde,
    so the raw file does not depend on the encoding the file is opened
    with. *)
Theorem raw_file_is_ascii (data : pyval) :
  json_value data = true → ascii_text (json_dumps data) = true.
Proof. intros Hwf. by apply iterencode_ascii. Qed.

Lemma raw_file_is_ascii_witness :
  ascii_text (json_dumps (PDict [(txt "city", PStr [90; 252; 114; 105; 99; 104; 128512])]))
  = true.
Proof.
  apply (raw_file_is_ascii (PDict [(txt "city", PStr [90; 252; 114; 105; 99; 104; 128512])])).
  reflexivity.
Defined.

Lemma skip_ws_blank s : blank s = true → skip_ws s = [].
Proof.
  induction s as [|c s IH]; [done|]. cbn [blank forallb skip_ws].
  intros [-> Hs]%andb_prop. by apply IH.
Qed.

(** A text of white space only is not JSON. *)
Lemma json_loads_blank s : blank s = true → json_loads s = None.
Proof.
  intros Hs. unfold json_loads. rewrite (skip_ws_blank s Hs).
  destruct s as [|c s]; [done|]. cbn [head_is].
  cbn [blank forallb] in Hs. apply andb_prop in Hs as [Hc _].
  destruct (N.eqb_spec 65279 c) as [<-|_]; [by vm_compute in Hc|done].
Qed.
(** ** White space around the encoding *)

Lemma blank_ends_number post : blank post = true → ends_number post.
Proof.
  destruct post as [|c r]; [done|]. unfold blank, ends_number. cbn [forallb].
  intros [Hc _]%andb_prop. unfold is_ws in Hc. unfold number_end, is_digit.
  repeat (apply orb_prop in Hc as [Hc|Hc]); apply N.eqb_eq in Hc; by subst c.
Qed.

Lemma skip_ws_blank_app pre s : blank pre = true → skip_ws (pre ++ s) = skip_ws s.
Proof.
  induction pre as [|c pre IH]; [done|]. unfold blank in *. cbn [forallb app skip_ws].
  intros [-> Hpre]%andb_prop. by apply IH.
Qed.

(** The decoder reads a value the encoder wrote up to its end, whatever
    follows it, provided it cannot be taken for more of a number. *)
Lemma scan_once_iterencode_ends d :
  json_value d = true →
  ∀ level fuel rest, (size d ≤ fuel)%nat → ends_number rest →
    scan_once fuel (iterencode level d ++ rest) = Some (d, rest).
Proof.
  intros Hwf level fuel rest Hfuel Hrest.
  destruct fuel as [|fuel]; [destruct d; cbn in Hfuel; lia|].
  destruct d as [|b|z|x|s|l|d].
  - reflexivity.
  - by destruct b.
  - destruct (number_literal_head (z <? 0)%Z (N_digits (Z.abs_N z)) None None)
      as (c & r & Hr & Hc); [apply N_digits_canonical|].
    apply scan_once_number.
    + cbn [iterencode]. unfold int_repr. by rewrite Hr.
    + by apply match_number_int.
  - destruct x as [neg ds decpt|[]|]; [|reflexivity|reflexivity|done].
    cbn [iterencode floatstr]. apply scan_once_number.
    + unfold float_repr. pose proof (float_parts_spec neg ds decpt Hwf) as Hparts.
      destruct (float_parts ds decpt) as [[ip frac] ex]. destruct Hparts as (Hip & _).
      destruct (number_literal_head neg ip frac ex Hip) as (c & r & -> & Hc). done.
    + by apply match_number_float.
  - cbn [iterencode]. unfold encode_basestring_ascii. cbn [app].
    rewrite <- app_assoc. cbn [app scan_once]. change (34 =? 34) with true. cbv iota.
    by rewrite scanstring_encode.
  - destruct l as [|x l]; [reflexivity|].
    assert (IH : Forall reads_back (x :: l)).
    { apply Forall_forall. intros y _. apply scan_once_iterencode. }
    cbn [json_value] in Hwf. cbn [size] in Hfuel.
    cbn [iterencode]. cbn [app]. rewrite <- !app_assoc. cbn [app scan_once].
    change (91 =? 34) with false. change (91 =? 123) with false.
    change (91 =? 91) with true. cbv iota.
    rewrite skip_ws_newline_indent.
    destruct (iterencode_head (S level) x) as (c & r & Hr & Hc).
    { cbn [forallb] in Hwf. by apply andb_true_iff in Hwf as [? _]. }
    cbn [map]. rewrite Hr. rewrite skip_ws_join by (by apply value_start_not_ws).
    destruct (join_head (44 :: newline_indent (S level)) c r
                (map (iterencode (S level)) l) (newline_indent level ++ 93 :: rest))
      as [t' Ht'].
    rewrite Ht'. rewrite (proj2 (N.eqb_neq c 93)) by (by apply value_start_not_close).
    rewrite <- Ht', <- Hr.
    change (iterencode (S level) x :: map (iterencode (S level)) l)
      with (map (iterencode (S level)) (x :: l)).
    rewrite (array_items_join level (x :: l) IH Hwf ltac:(done) fuel [] rest) by lia.
    done.
  - destruct d as [|[k v] d]; [reflexivity|].
    assert (IH : Forall (λ kv, reads_back kv.2) ((k, v) :: d)).
    { apply Forall_forall. intros y _. apply scan_once_iterencode. }
    cbn [json_value] in Hwf. apply andb_true_iff in Hwf as [Hwf Hdist].
    cbn [size] in Hfuel.
    cbn [iterencode]. cbn [app]. rewrite <- !app_assoc. cbn [app scan_once].
    change (123 =? 34) with false. change (123 =? 123) with true. cbv iota.
    rewrite skip_ws_newline_indent.
    change (map (λ kv, encode_basestring_ascii kv.1 ++ txt ": " ++ iterencode (S level) kv.2)
              ((k, v) :: d))
      with (map (item_text (S level)) ((k, v) :: d)).
    destruct (join_head (44 :: newline_indent (S level)) 34
                ((flat_map escape_char k ++ [34]) ++ txt ": " ++ iterencode (S level) v)
                (map (item_text (S level)) d)
                (newline_indent level ++ 125 :: rest)) as [t' Ht'].
    change (34 :: (flat_map escape_char k ++ [34]) ++ txt ": " ++ iterencode (S level) v)
      with (item_text (S level) (k, v)) in Ht'.
    pose proof (object_items_join level ((k, v) :: d) IH Hwf ltac:(done) fuel [] rest) as Hitems.
    cbn [map] in Hitems |- *. rewrite Ht' in Hitems |- *. cbn [tail] in Hitems.
    cbn [map list_sum fold_right fst snd] in Hfuel, Hitems.
    rewrite (skip_ws_head 34) by done.
    change (34 =? 125) with false. change (34 =? 34) with true. cbv iota.
    rewrite Hitems by lia.
    cbn [rev app]. by rewrite dict_of_pairs_distinct.
Qed.

Lemma json_loads_padded d pre post :
  json_value d = true → blank pre = true → blank post = true →
  json_loads (pre ++ json_dumps d ++ post) = Some d.
Proof.
  intros Hwf Hpre Hpost. unfold json_loads, json_dumps.
  pose proof (size_le_length d Hwf 0%nat) as Hsize.
  destruct (iterencode_head 0%nat d Hwf) as (c & r & Hr & Hc).
  assert (Hhead : head_is (N.eqb 65279) (pre ++ iterencode 0 d ++ post) = false).
  { destruct pre as [|c' pre'].
    - rewrite Hr. cbn [app head_is].
      destruct (N.eqb_spec 65279 c) as [<-|_]; [by vm_compute in Hc|done].
    - cbn [app head_is]. unfold blank in Hpre. cbn [forallb] in Hpre.
      apply andb_prop in Hpre as [Hc' _].
      destruct (N.eqb_spec 65279 c') as [<-|_]; [by vm_compute in Hc'|done]. }
  rewrite Hhead, (skip_ws_blank_app pre _ Hpre).
  assert (Hskip : skip_ws (iterencode 0 d ++ post) = iterencode 0 d ++ post).
  { rewrite Hr. cbn [app]. apply skip_ws_head. by apply value_start_not_ws. }
  rewrite Hskip, (scan_once_iterencode_ends d Hwf 0%nat _ post).
  - by rewrite (skip_ws_blank post Hpost).
  - rewrite !length_app. lia.
  - by apply blank_ends_number.
Qed.

(** X10: white space around the encoding does no harm: when the raw file
    holds the text the fetch stage writes for a well-formed document, with
    white space before it or after it (a line break at the end of the
    file, say), [load] returns the document. *)
Theorem load_tolerates_white_space (self : Transform.WeatherDataRepository) (data : pyval)
    (pre post : text) (w : world) :
  json_value data = true → blank pre = true → blank post = true →
  lookup_node (Transform.storage_path self) w = Some (File (pre ++ json_dumps data ++ post)) →
  Transform.load self w = (Return data, w).
Proof.
  intros Hwf Hpre Hpost Hfile. by rewrite load_run, Hfile, json_loads_padded.
Qed.

Lemma load_tolerates_white_space_witness :
  Transform.load {| Transform.storage_path := txt "data/notes.txt" |}
    (World {[ txt "data/notes.txt" := File ([32] ++ json_dumps happy_doc ++ [13; 10]) ]} [] [])
  = (Return happy_doc,
     World {[ txt "data/notes.txt" := File ([32] ++ json_dumps happy_doc ++ [13; 10]) ]} [] []).
Proof.
  apply (load_tolerates_white_space {| Transform.storage_path := txt "data/notes.txt" |}
           happy_doc [32] [13; 10]
           (World {[ txt "data/notes.txt" := File ([32] ++ json_dumps happy_doc ++ [13; 10]) ]}
              [] [])); reflexivity.
Defined.
(** ** The mappings the decoder builds *)

Lemma distinct_snoc ks k :
  distinct ks = true → k ∉ ks → distinct (ks ++ [k]) = true.
Proof.
  induction ks as [|k' ks IH]; [done|]. cbn [distinct app].
  intros [Hk' Hks]%andb_prop [Hne Hnin]%not_elem_of_cons.
  rewrite forallb_app, Hk', (IH Hks Hnin). cbn [forallb].
  by rewrite bool_decide_false.
Qed.

(** [d[k] = v] keeps the keys where they are, and adds [k] at the end when
    it is new. *)
Lemma dict_set_keys k v d :
  map fst (dict_set k v d) = if bool_decide (k ∈ map fst d) then map fst d else map fst d ++ [k].
Proof.
  induction d as [|[k' v'] d IH]; [done|]. cbn [dict_set map fst].
  destruct (decide (k' = k)) as [->|Hne].
  - rewrite bool_decide_true; [done|]. apply list_elem_of_here.
  - cbn [map fst]. rewrite IH. case_bool_decide as Hin.
    + rewrite bool_decide_true; [done|]. by apply list_elem_of_further.
    + rewrite bool_decide_false; [done|]. by intros [?|?]%elem_of_cons.
Qed.

Lemma dict_set_distinct k v d :
  distinct (map fst d) = true → distinct (map fst (dict_set k v d)) = true.
Proof.
  intros Hd. rewrite dict_set_keys. case_bool_decide; [done|]. by apply distinct_snoc.
Qed.

Lemma dict_set_values (P : pyval → Prop) k v d :
  P v → Forall (λ kv, P kv.2) d → Forall (λ kv, P kv.2) (dict_set k v d).
Proof.
  intros Hv. induction 1 as [|[k' v'] d Hkv Hd IH]; [by repeat constructor|].
  cbn [dict_set]. destruct (decide (k' = k)); constructor; done.
Qed.

(** [dict(pairs)] has every key once, whatever the pairs. *)
Lemma dict_of_pairs_keys_distinct (pairs : list (text * pyval)) :
  Forall (λ kv, keys_distinct kv.2 = true) pairs →
  keys_distinct (PDict (dict_of_pairs pairs)) = true.
Proof.
  intros Hpairs. unfold dict_of_pairs.
  assert (Hgen : ∀ acc, keys_distinct (PDict acc) = true →
            keys_distinct (PDict (foldl (λ d kv, dict_set kv.1 kv.2 d) acc pairs)) = true).
  { induction Hpairs as [|[k v] pairs Hv _ IH]; [done|]. intros acc Hacc. cbn [foldl fst snd].
    apply IH. cbn [keys_distinct] in *. apply andb_prop in Hacc as [Hvals Hkeys].
    apply andb_true_intro. split.
    - apply Is_true_true, forallb_True.
      apply (dict_set_values (λ x, Is_true (keys_distinct x))); [by apply Is_true_true|].
      by apply forallb_True, Is_true_true.
    - by apply dict_set_distinct. }
  by apply Hgen.
Qed.

(** What the three loops of the decoder return has distinct keys. *)
Lemma scan_keys_distinct fuel :
  (∀ s v r, scan_once fuel s = Some (v, r) → keys_distinct v = true)
  ∧ (∀ s acc vs r, array_items fuel s acc = Some (vs, r) →
       Forall (λ v, keys_distinct v = true) acc → Forall (λ v, keys_distinct v = true) vs)
  ∧ (∀ s acc ps r, object_items fuel s acc = Some (ps, r) →
       Forall (λ kv, keys_distinct kv.2 = true) acc →
       Forall (λ kv, keys_distinct kv.2 = true) ps).
Proof.
  induction fuel as [|fuel (IHs & IHa & IHo)]; [done|]. split; [|split].
  - intros s v r. cbn [scan_once]. destruct s as [|c s]; [done|].
    destruct (c =? 34).
    { destruct (scanstring s []) as [[str r']|]; [|done]. by intros [= <- <-]. }
    destruct (c =? 123).
    { destruct (skip_ws s) as [|c' r']; [done|]. destruct (c' =? 125); [by intros [= <- <-]|].
      destruct (c' =? 34); [|done].
      destruct (object_items fuel r' []) as [[pairs r'']|] eqn:Hitems; [|done].
      intros [= <- <-]. apply dict_of_pairs_keys_distinct. by apply (IHo _ _ _ _ Hitems). }
    destruct (c =? 91).
    { destruct (skip_ws s) as [|c' r'] eqn:Hs; [done|].
      destruct (c' =? 93); [by intros [= <- <-]|].
      destruct (array_items fuel (c' :: r') []) as [[values r'']|] eqn:Hitems; [|done].
      intros [= <- <-]. cbn [keys_distinct]. apply Is_true_true, forallb_True.
      eapply Forall_impl; [by apply (IHa _ _ _ _ Hitems)|]. intros x Hx. by apply Is_true_true. }
    destruct (strip_prefix (txt "null") (c :: s)); [by intros [= <- <-]|].
    destruct (strip_prefix (txt "true") (c :: s)); [by intros [= <- <-]|].
    destruct (strip_prefix (txt "false") (c :: s)); [by intros [= <- <-]|].
    destruct (match_number (c :: s)) as [[v' r']|] eqn:Hnum.
    { intros [= <- <-]. unfold match_number in Hnum.
      destruct (scan_minus (c :: s)) as [neg s1].
      destruct (scan_intpart s1) as [[ip r1]|]; [|done].
      destruct (scan_frac r1) as [frac r2]. destruct (scan_exponent r2) as [ex r3].
      destruct frac, ex; by simplify_eq. }
    destruct (strip_prefix (txt "NaN") (c :: s)); [by intros [= <- <-]|].
    destruct (strip_prefix (txt "Infinity") (c :: s)); [by intros [= <- <-]|].
    destruct (strip_prefix (txt "-Infinity") (c :: s)); [by intros [= <- <-]|done].
  - intros s acc vs r. cbn [array_items].
    destruct (scan_once fuel s) as [[value r0]|] eqn:Hscan; [|done].
    destruct (skip_ws r0) as [|c r']; [done|]. intros Hrun Hacc.
    assert (Hacc' : Forall (λ v, keys_distinct v = true) (value :: acc)).
    { constructor; [by apply (IHs _ _ _ Hscan)|done]. }
    destruct (c =? 93).
    { assert (vs = rev (value :: acc)) as -> by congruence. by apply Forall_rev. }
    destruct (c =? 44); [|done]. by apply (IHa _ _ _ _ Hrun).
  - intros s acc ps r. cbn [object_items].
    destruct (scanstring s []) as [[key r0]|]; [|done].
    destruct (skip_ws r0) as [|c r1]; [done|]. destruct (c =? 58); [|done].
    destruct (scan_once fuel (skip_ws r1)) as [[value r2]|] eqn:Hscan; [|done].
    destruct (skip_ws r2) as [|c' r3]; [done|]. intros Hrun Hacc.
    assert (Hacc' : Forall (λ kv : text * pyval, keys_distinct kv.2 = true)
                      ((key, value) :: acc)).
    { constructor; [by apply (IHs _ _ _ Hscan)|done]. }
    destruct (c' =? 125).
    { assert (ps = rev ((key, value) :: acc)) as -> by congruence. by apply Forall_rev. }
    destruct (c' =? 44); [|done].
    destruct (skip_ws r3) as [|q r4]; [done|]. destruct (q =? 34); [|done].
    by apply (IHo _ _ _ _ Hrun).
Qed.

(** X11: a document [load] returns has no key twice in any of its
    mappings, whatever the file holds: when the text repeats a key, the
    decoder keeps one entry for it.  Looking a key up in a loaded document
    has one answer. *)
Theorem loaded_keys_are_distinct (self : Transform.WeatherDataRepository) (data : pyval)
    (w w' : world) :
  Transform.load self w = (Return data, w') → keys_distinct data = true.
Proof.
  rewrite load_run. destruct (lookup_node _ w) as [[content|]|]; [|done..].
  destruct (json_loads content) as [data'|] eqn:Hloads; [|done]. intros [= <- _].
  unfold json_loads in Hloads. destruct (head_is _ content); [done|].
  destruct (scan_once _ _) as [[obj r]|] eqn:Hscan; [|done].
  destruct (skip_ws r); [|done]. injection Hloads as <-.
  by apply (proj1 (scan_keys_distinct _) _ _ _ Hscan).
Qed.

Lemma loaded_keys_are_distinct_witness :
  keys_distinct (PDict [(txt "a", PInt 2)]) = true.
Proof.
  apply (loaded_keys_are_distinct {| Transform.storage_path := txt "data/notes.txt" |}
           (PDict [(txt "a", PInt 2)])
           (World {[ txt "data/notes.txt"
                     := File [123; 34; 97; 34; 58; 49; 44; 34; 97; 34; 58; 50; 125] ]} [] [])
           (World {[ txt "data/notes.txt"
                     := File [123; 34; 97; 34; 58; 49; 44; 34; 97; 34; 58; 50; 125] ]} [] [])).
  vm_compute. reflexivity.
Defined.
(** * More on the transform stage *)

(** ** The tables of [pandas.DataFrame] *)

(** When a column is a list, the index is the range of its length. *)
Lemma extract_index_lists data index k l :
  extract_index data = Return index → (k, PList l) ∈ data → index = RangeIndex (length l).
Proof.
  intros Hidx Hin.
  assert (Hlen : length l ∈ raw_lengths data).
  { apply list_elem_of_omap. by exists (k, PList l). }
  unfold extract_index in Hidx. destruct (raw_lengths data) as [|n lengths] eqn:Hraw.
  { by apply elem_of_nil in Hlen. }
  destruct (forallb (Nat.eqb n) lengths) eqn:Hall; [|done]. cbn [negb] in Hidx.
  destruct (dict_indexes data); [|done]. injection Hidx as <-. f_equal.
  apply elem_of_cons in Hlen as [->|Hlen]; [done|].
  apply Is_true_true, forallb_True in Hall. rewrite Forall_forall in Hall.
  by apply Nat.eqb_eq, Is_true_true, Hall.
Qed.

Lemma column_cells_length data index kv :
  extract_index data = Return index → kv ∈ data →
  length (column_cells index kv.2) = axis_length index.
Proof.
  intros Hidx Hin. destruct kv as [k v]. cbn [snd].
  destruct v as [| | | | |l|d]; cbn [column_cells]; try apply length_replicate.
  - rewrite (extract_index_lists _ _ _ _ Hidx Hin). cbn [axis_length]. apply length_map.
  - destruct index as [n|labels]; cbn [axis_length]; [apply length_replicate|apply length_map].
Qed.

(** A table is rectangular: its columns carry the names of the data, in
    order, and each is as long as the index. *)
Lemma DataFrame_of_dict_shape data df :
  DataFrame_of_dict data = Return df →
  df_column_names df = map fst data
  ∧ Forall (λ col, length col.2 = axis_length (df_index df)) (df_columns df).
Proof.
  unfold DataFrame_of_dict. destruct (extract_index data) as [index|e] eqn:Hidx; [|done].
  intros [= <-]. unfold df_column_names. cbn [df_columns df_index]. split.
  - rewrite map_map. done.
  - apply Forall_map, Forall_forall. intros kv Hin. cbn [snd].
    by apply (column_cells_length data).
Qed.

Lemma length_omap_total {A B} (f : A → option B) (l : list A) :
  Forall (λ x, is_Some (f x)) l → length (omap f l) = length l.
Proof.
  induction 1 as [|x l [y Hy] _ IH]; [done|]. cbn [omap list_omap]. rewrite Hy. cbn.
  by f_equal.
Qed.

(** The rows of a rectangular table: as many as the index is long, each
    with a cell for every column. *)
Lemma df_rows_shape df :
  Forall (λ col, length col.2 = axis_length (df_index df)) (df_columns df) →
  length (df_rows df) = axis_length (df_index df)
  ∧ Forall (λ row, length row = length (df_columns df)) (df_rows df).
Proof.
  intros Hcols. unfold df_rows. split.
  - by rewrite length_map, length_seq.
  - apply Forall_map, Forall_forall. intros i Hi%elem_of_seq. cbv beta.
    apply length_omap_total. eapply Forall_impl; [exact Hcols|]. intros col Hcol.
    cbv beta in *. apply lookup_lt_is_Some. lia.
Qed.

(** ** The runs of [transform] and [execute] *)

(** [transform] reads the three arrays, one after the other, and hands
    them to [pandas.DataFrame]. *)
Lemma transform_run (raw_data : pyval) (w : world) :
  Transform.transform Transform.OpenMeteoTransformer raw_data w
  = match hourly_arrays raw_data with
    | Raise e =>
        if isinstance_KeyError e
        then (Return None, World (files w) (stdout w ++ [MissingKeyInData e]) (stderr w))
        else (Raise e, w)
    | Return (timestamps, temperatures, precipitation) =>
        match DataFrame_of_dict [(Transform.Timestamp, timestamps);
                                 (Transform.Temperature, temperatures);
                                 (Transform.Precipitation, precipitation)] with
        | Return df =>
            (Return (Some df),
             World (files w) (stdout w ++ [TransformationSuccessful]) (stderr w))
        | Raise e =>
            if isinstance_KeyError e
            then (Return None, World (files w) (stdout w ++ [MissingKeyInData e]) (stderr w))
            else (Raise e, w)
        end
    end.
Proof.
  cbn [Transform.transform Transform.OpenMeteoTransformer]. unfold hourly_arrays. run.
  destruct (getitem raw_data (txt "hourly")) as [hourly|e]; [|done].
  destruct (getitem hourly (txt "time")) as [ts|e]; [|done].
  destruct (getitem hourly (txt "temperature_2m")) as [temps|e]; [|done].
  destruct (getitem hourly (txt "precipitation")) as [precs|e]; [|done].
  by destruct (DataFrame_of_dict _) as [df|e].
Qed.

Lemma DataFrame_of_dict_lists (n1 n2 n3 : text) (ts temps precs : list pyval) :
  length ts = length temps → length temps = length precs →
  DataFrame_of_dict [(n1, PList ts); (n2, PList temps); (n3, PList precs)]
  = Return {| df_index := RangeIndex (length ts);
              df_columns := [(n1, map Val ts); (n2, map Val temps); (n3, map Val precs)] |}.
Proof.
  intros H1 H2. unfold DataFrame_of_dict, extract_index.
  cbn [raw_lengths dict_indexes omap list_omap snd fst forallb].
  by rewrite <- H2, <- H1, !Nat.eqb_refl.
Qed.

Lemma transform_run_lists (raw_data : pyval) (ts temps precs : list pyval) (w : world) :
  hourly_arrays raw_data = Return (PList ts, PList temps, PList precs) →
  length ts = length temps → length temps = length precs →
  Transform.transform Transform.OpenMeteoTransformer raw_data w
  = (Return (Some (table_of ts temps precs)),
     World (files w) (stdout w ++ [TransformationSuccessful]) (stderr w)).
Proof.
  intros Harr H1 H2. rewrite transform_run, Harr.
  by rewrite (DataFrame_of_dict_lists _ _ _ _ _ _ H1 H2).
Qed.

Lemma zip_rows_lookup (ts temps precs : list pyval) i a b c :
  ts !! i = Some a → temps !! i = Some b → precs !! i = Some c →
  zip_rows ts temps precs !! i = Some [Val a; Val b; Val c].
Proof.
  revert i temps precs. induction ts as [|x ts IH]; intros [|i] [|y temps] [|z precs];
    try done; cbn.
  - by intros [= ->] [= ->] [= ->].
  - apply IH.
Qed.

Lemma length_zip_rows (ts temps precs : list pyval) :
  length ts = length temps → length temps = length precs →
  length (zip_rows ts temps precs) = length ts.
Proof.
  revert temps precs. induction ts as [|x ts IH]; intros [|y temps] [|z precs]; try done.
  cbn. intros [= H1] [= H2]. f_equal. by apply IH.
Qed.

(** X12: when the three arrays of the document are lists of one length,
    each of one kind (strings, floats, or integers), [transform] prints the
    success line and returns the table of the three columns "Timestamp",
    "Temperature (°C)" and "Precipitation (mm)" with one row for each
    position: row [i] holds the entries at position [i] of the time,
    temperature and precipitation arrays, in that order.  Nothing else of
    the document is looked at. *)
Theorem transform_tabulates_arrays (raw_data : pyval) (ts temps precs : list pyval)
    (w : world) :
  hourly_arrays raw_data = Return (PList ts, PList temps, PList precs) →
  one_kind ts && one_kind temps && one_kind precs = true →
  length ts = length temps → length temps = length precs →
  Transform.transform Transform.OpenMeteoTransformer raw_data w
  = (Return (Some (table_of ts temps precs)),
     World (files w) (stdout w ++ [TransformationSuccessful]) (stderr w))
  ∧ df_column_names (table_of ts temps precs)
    = [Transform.Timestamp; Transform.Temperature; Transform.Precipitation]
  ∧ length (df_rows (table_of ts temps precs)) = length ts
  ∧ ∀ i a b c, ts !! i = Some a → temps !! i = Some b → precs !! i = Some c →
               df_rows (table_of ts temps precs) !! i = Some [Val a; Val b; Val c].
Proof.
  intros Harr _ H1 H2. split; [by apply transform_run_lists|]. split; [done|].
  unfold table_of. rewrite (df_rows_zip _ _ _ _ _ _ H1 H2). split.
  - by apply length_zip_rows.
  - apply zip_rows_lookup.
Qed.

Lemma transform_tabulates_arrays_witness :
  Transform.transform Transform.OpenMeteoTransformer two_hours_doc empty_world
  = (Return (Some (table_of [PStr (txt "2024-01-01T00:00"); PStr (txt "2024-01-01T01:00")]
                     [PFloat (FFinite false (txt "5") 1); PFloat (FFinite true (txt "15") 1)]
                     [PInt 0; PInt 2])),
     World ∅ [TransformationSuccessful] [])
  ∧ df_rows (table_of [PStr (txt "2024-01-01T00:00"); PStr (txt "2024-01-01T01:00")]
               [PFloat (FFinite false (txt "5") 1); PFloat (FFinite true (txt "15") 1)]
               [PInt 0; PInt 2]) !! 1%nat
    = Some [Val (PStr (txt "2024-01-01T01:00")); Val (PFloat (FFinite true (txt "15") 1));
            Val (PInt 2)].
Proof.
  pose proof (transform_tabulates_arrays two_hours_doc
                [PStr (txt "2024-01-01T00:00"); PStr (txt "2024-01-01T01:00")]
                [PFloat (FFinite false (txt "5") 1); PFloat (FFinite true (txt "15") 1)]
                [PInt 0; PInt 2] empty_world eq_refl eq_refl eq_refl eq_refl)
    as (Hrun & _ & _ & Hrows).
  split; [exact Hrun|]. by apply Hrows.
Defined.

(** [transform] leaves the files alone. *)
Lemma transform_keeps_files (raw_data : pyval) (w : world) :
  files (Transform.transform Transform.OpenMeteoTransformer raw_data w).2 = files w.
Proof.
  destruct (transform_outcomes raw_data w)
    as [(k & _ & Hrun)|[(_ & Hrun)|[(df & Hrun)|Hrun]]]; by rewrite Hrun.
Qed.

(** X13: [transform] leaves the files alone and reports nothing on the
    error stream, whatever the document.  It returns [None] exactly when a
    key is missing, and the only exceptions that leave it are [TypeError]
    and [ValueError], raised before anything is printed. *)
Theorem transform_none_only_for_missing_key (raw_data : pyval) (w : world) :
  files (Transform.transform Transform.OpenMeteoTransformer raw_data w).2 = files w
  ∧ stderr (Transform.transform Transform.OpenMeteoTransformer raw_data w).2 = stderr w
  ∧ ((∃ w', Transform.transform Transform.OpenMeteoTransformer raw_data w = (Return None, w'))
     ↔ (∃ k, first_missing_key raw_data = Some k))
  ∧ (∀ e w', Transform.transform Transform.OpenMeteoTransformer raw_data w = (Raise e, w') →
             (e = TypeError ∨ e = ValueError) ∧ w' = w).
Proof.
  assert (Hmiss : ∀ k, first_missing_key raw_data = Some k →
            Transform.transform Transform.OpenMeteoTransformer raw_data w
            = (Return None,
               World (files w) (stdout w ++ [MissingKeyInData (KeyError k)]) (stderr w))).
  { intros k Hk. by apply transform_run_missing. }
  destruct (transform_outcomes raw_data w)
    as [(k & Hk & Hrun)|[(Hnm & Hrun)|[(df & Hrun)|Hrun]]]; rewrite Hrun;
    cbn [snd files stderr]; (split; [done|]); (split; [done|]); (split; [split|]).
  - intros _. by exists k.
  - intros _. by eexists.
  - intros e w' Heq. done.
  - by intros (w' & ?).
  - intros (k & Hk). rewrite (Hmiss k Hk) in Hrun. done.
  - intros e w' [= <- <-]. split; [by left|done].
  - by intros (w' & ?).
  - intros (k & Hk). rewrite (Hmiss k Hk) in Hrun. done.
  - intros e w' Heq. done.
  - by intros (w' & ?).
  - intros (k & Hk). rewrite (Hmiss k Hk) in Hrun. done.
  - intros e w' [= <- <-]. split; [by right|done].
Qed.

(** X14: every table [transform] returns is rectangular, whatever the
    three values are, lists, scalars or mappings: it has the three named
    columns in order, each as long as the index, and every row has three
    cells. *)
Theorem transform_tables_are_rectangular (raw_data : pyval) (df : DataFrame) (w w' : world) :
  Transform.transform Transform.OpenMeteoTransformer raw_data w = (Return (Some df), w') →
  df_column_names df = [Transform.Timestamp; Transform.Temperature; Transform.Precipitation]
  ∧ Forall (λ col, length col.2 = axis_length (df_index df)) (df_columns df)
  ∧ length (df_rows df) = axis_length (df_index df)
  ∧ Forall (λ row, length row = 3%nat) (df_rows df).
Proof.
  rewrite transform_run. intros Hrun.
  assert (Hdf : ∃ a b c, DataFrame_of_dict [(Transform.Timestamp, a);
                                            (Transform.Temperature, b);
                                            (Transform.Precipitation, c)] = Return df).
  { destruct (hourly_arrays raw_data) as [[[a b] c]|e].
    - exists a, b, c. destruct (DataFrame_of_dict _) as [df'|e]; [by simplify_eq|].
      by destruct (isinstance_KeyError e).
    - by destruct (isinstance_KeyError e). }
  destruct Hdf as (a & b & c & Hdf).
  destruct (DataFrame_of_dict_shape _ _ Hdf) as [Hnames Hcols].
  destruct (df_rows_shape df Hcols) as [Hlen Hrows].
  repeat split; try done.
  assert (H3 : length (df_columns df) = 3%nat).
  { unfold df_column_names in Hnames. apply (f_equal length) in Hnames.
    by rewrite length_map in Hnames. }
  by rewrite H3 in Hrows.
Qed.

Lemma transform_tables_are_rectangular_witness :
  df_column_names (table_of [PStr (txt "2024-01-01T00:00")]
                     [PFloat (FFinite false (txt "5") 1)] [PFloat (FFinite false [] 0)])
  = [Transform.Timestamp; Transform.Temperature; Transform.Precipitation]
  ∧ Forall (λ col, length col.2 = 1%nat)
      (df_columns (table_of [PStr (txt "2024-01-01T00:00")]
                     [PFloat (FFinite false (txt "5") 1)] [PFloat (FFinite false [] 0)]))
  ∧ length (df_rows (table_of [PStr (txt "2024-01-01T00:00")]
                       [PFloat (FFinite false (txt "5") 1)] [PFloat (FFinite false [] 0)]))
    = 1%nat
  ∧ Forall (λ row, length row = 3%nat)
      (df_rows (table_of [PStr (txt "2024-01-01T00:00")]
                  [PFloat (FFinite false (txt "5") 1)] [PFloat (FFinite false [] 0)])).
Proof.
  apply (transform_tables_are_rectangular happy_doc
           (table_of [PStr (txt "2024-01-01T00:00")]
              [PFloat (FFinite false (txt "5") 1)] [PFloat (FFinite false [] 0)])
           empty_world (World ∅ [TransformationSuccessful] [])).
  reflexivity.
Defined.

(** ** Loading *)

(** X15: [load] only reads: whatever its outcome, the files, the printed
    lines and the error stream are the ones it started from, and the
    outcome depends on what the storage path holds and on nothing else of
    the world.  A directory at the storage path passes the test of
    [os.path.exists], so it is not reported as a missing file: the
    exception is the [IsADirectoryError] of [open]. *)
Theorem load_only_reads (self : Transform.WeatherDataRepository) (w : world) :
  (Transform.load self w).2 = w
  ∧ (∀ w', lookup_node (Transform.storage_path self) w'
           = lookup_node (Transform.storage_path self) w →
           (Transform.load self w').1 = (Transform.load self w).1)
  ∧ (lookup_node (Transform.storage_path self) w = Some Dir →
     Transform.load self w = (Raise (IsADirectoryError (Transform.storage_path self)), w)).
Proof.
  split; [apply load_reads|]. split.
  - intros w' Hlook. rewrite !load_run, Hlook.
    destruct (lookup_node _ w) as [[content|]|]; [|done..]. by destruct (json_loads content).
  - rewrite load_run. by intros ->.
Qed.

(** X16: a raw file that is empty, or holds white space only, is not a
    missing file: [load] finds it, the decoder refuses its text, and the
    exception is [JSONDecodeError]; the file stays as it is. *)
Theorem load_blank_file (self : Transform.WeatherDataRepository) (content : text)
    (w : world) :
  lookup_node (Transform.storage_path self) w = Some (File content) →
  blank content = true →
  Transform.load self w = (Raise JSONDecodeError, w).
Proof. intros Hp Hb. by rewrite load_run, Hp, (json_loads_blank content Hb). Qed.

Lemma load_blank_file_witness :
  Transform.load {| Transform.storage_path := txt "data/notes.txt" |}
    (World {[ txt "data/notes.txt" := File [32; 10] ]} [] [])
  = (Raise JSONDecodeError, World {[ txt "data/notes.txt" := File [32; 10] ]} [] []).
Proof.
  apply (load_blank_file {| Transform.storage_path := txt "data/notes.txt" |} [32; 10]
           (World {[ txt "data/notes.txt" := File [32; 10] ]} [] [])); reflexivity.
Defined.

(** ** The command *)

(** The runs of [execute] with the Open-Meteo transformer. *)
Lemma execute_run (to_csv_text : DataFrame → text) (repo : Transform.WeatherDataRepository)
    (w : world) :
  Transform.execute to_csv_text
    {| Transform.repository := repo; Transform.transformer := Transform.OpenMeteoTransformer |} w
  = match (Transform.load repo w).1 with
    | Raise e =>
        (Return (), World (files w) (stdout w ++ [ErrorDuringTransformation e]) (stderr w))
    | Return raw_data =>
        match Transform.transform Transform.OpenMeteoTransformer raw_data w with
        | (Raise e, w1) =>
            (Return (),
             World (files w1) (stdout w1 ++ [ErrorDuringTransformation e]) (stderr w1))
        | (Return None, w1) => (Return (), w1)
        | (Return (Some df), w1) =>
            match Transform.save to_csv_text repo df Transform.default_output_path w1 with
            | (Return _, w2) => (Return (), w2)
            | (Raise e, w2) =>
                (Return (),
                 World (files w2) (stdout w2 ++ [ErrorDuringTransformation e]) (stderr w2))
            end
        end
    end.
Proof.
  unfold Transform.execute, Transform.load_transform_save, try_except.
  cbn [Transform.repository Transform.transformer]. rewrite bind_run.
  pose proof (load_reads repo w) as Hw.
  destruct (Transform.load repo w) as [[raw_data|e] w0]; cbn [fst snd] in *; subst w0;
    [|done].
  rewrite bind_run.
  destruct (Transform.transform _ raw_data w) as [[[df|]|e] w1]; [|done..].
  by destruct (Transform.save _ _ _ _ w1) as [[[]|e] w2].
Qed.

(** X17: when [load] raises, whatever the reason (no file, a directory, a
    text that is not JSON), [execute] prints the line that reports the
    exception, returns normally and leaves the files as they were; the
    transformer is not run. *)
Theorem execute_reports_load_errors (to_csv_text : DataFrame → text)
    (self : Transform.WeatherTransformationCommand) (e : exn) (w : world) :
  (Transform.load (Transform.repository self) w).1 = Raise e →
  Transform.execute to_csv_text self w
  = (Return (), World (files w) (stdout w ++ [ErrorDuringTransformation e]) (stderr w)).
Proof.
  intros Hload. apply execute_reports_load_failure.
  pose proof (load_reads (Transform.repository self) w) as Hw.
  destruct (Transform.load _ w) as [r w0]. cbn [fst snd] in *. by subst.
Qed.

Lemma execute_reports_load_errors_witness :
  Transform.execute (λ _, []) default_command blocked_world
  = (Return (),
     World (files blocked_world)
       [ErrorDuringTransformation (FileNotFoundError Transform.default_storage_path)] []).
Proof.
  apply (execute_reports_load_errors (λ _, []) default_command
           (FileNotFoundError Transform.default_storage_path) blocked_world).
  reflexivity.
Defined.

(** X18: the exceptions [transform] lets through, the [TypeError] of a
    level that is not a mapping and the [ValueError] of arrays of unequal
    lengths, stop at [execute]: it prints the line that reports the
    exception, returns normally, and writes no processed file: the files
    are as they were. *)
Theorem execute_reports_transform_errors (to_csv_text : DataFrame → text)
    (repo : Transform.WeatherDataRepository) (raw_data : pyval) (e : exn) (w : world) :
  (Transform.load repo w).1 = Return raw_data →
  (Transform.transform Transform.OpenMeteoTransformer raw_data w).1 = Raise e →
  Transform.execute to_csv_text
    {| Transform.repository := repo; Transform.transformer := Transform.OpenMeteoTransformer |} w
  = (Return (), World (files w) (stdout w ++ [ErrorDuringTransformation e]) (stderr w)).
Proof.
  intros Hload Hrun. rewrite execute_run, Hload.
  destruct (Transform.transform _ raw_data w) as [[r|e'] w1] eqn:Ht; [done|].
  cbn [fst] in Hrun. injection Hrun as ->.
  destruct (transform_outcomes raw_data w)
    as [(k & _ & Hrun)|[(_ & Hrun)|[(df & Hrun)|Hrun]]]; rewrite Hrun in Ht; by simplify_eq.
Qed.

Lemma execute_reports_transform_errors_witness :
  Transform.execute (λ _, []) default_command uneven_world
  = (Return (),
     World (files uneven_world) [ErrorDuringTransformation ValueError] []).
Proof.
  apply (execute_reports_transform_errors (λ _, [])
           {| Transform.storage_path := Transform.default_storage_path |}
           uneven_doc ValueError uneven_world).
  - vm_compute. reflexivity.
  - vm_compute. reflexivity.
Defined.
(** ** Values that are not arrays *)

Lemma raw_lengths_fits data n :
  forallb (λ kv, fits n kv.2) data = true → Forall (λ m, m = n) (raw_lengths data).
Proof.
  induction data as [|[k v] data IH]; [done|]. cbn [forallb snd].
  intros [Hv Hdata]%andb_prop. unfold raw_lengths in *. cbn [omap list_omap snd].
  destruct v as [| | | | |l|d]; try (by apply IH).
  cbn [fits] in Hv. apply bool_decide_eq_true in Hv. constructor; [done|by apply IH].
Qed.

Lemma dict_indexes_fits data n :
  forallb (λ kv, fits n kv.2) data = true → dict_indexes data = [].
Proof.
  induction data as [|[k v] data IH]; [done|]. cbn [forallb snd].
  intros [Hv Hdata]%andb_prop. unfold dict_indexes in *. cbn [omap list_omap snd].
  destruct v as [| | | | |l|d]; try (by apply IH). done.
Qed.

Lemma raw_lengths_scalars data :
  forallb (λ kv, is_scalar kv.2) data = true → raw_lengths data = [] ∧ dict_indexes data = [].
Proof.
  induction data as [|[k v] data IH]; [done|]. cbn [forallb snd].
  intros [Hv Hdata]%andb_prop. unfold raw_lengths, dict_indexes in *.
  cbn [omap list_omap snd]. destruct v as [| | | | |l|d]; try (by apply IH); done.
Qed.

(** With a list among the columns, and every column a scalar or a list of
    [n] entries, the index is the range of [n]. *)
Lemma extract_index_fits data n :
  forallb (λ kv, fits n kv.2) data = true →
  existsb (λ kv, negb (is_scalar kv.2)) data = true →
  extract_index data = Return (RangeIndex n).
Proof.
  intros Hfits Hlist. unfold extract_index.
  rewrite (dict_indexes_fits data n Hfits).
  pose proof (raw_lengths_fits data n Hfits) as Hlens.
  destruct (raw_lengths data) as [|m lengths] eqn:Hraw.
  - exfalso. clear Hlens. induction data as [|[k v] data IH]; [done|].
    cbn [forallb existsb snd] in *. apply andb_prop in Hfits as [Hv Hfits].
    unfold raw_lengths in Hraw. cbn [omap list_omap snd] in Hraw.
    destruct v as [| | | | |l|d]; try done; by apply IH.
  - apply Forall_cons in Hlens as [-> Hlens].
    assert (Hall : forallb (Nat.eqb n) lengths = true).
    { apply Is_true_true, forallb_True. eapply Forall_impl; [exact Hlens|].
      intros m ->. apply Is_true_true, Nat.eqb_refl. }
    by rewrite Hall.
Qed.

(** X19: when none of the three values is an array, each a single string,
    number, boolean or null, no table is built: [pandas.DataFrame] refuses
    columns that are all scalars with [ValueError], which [transform] does
    not catch; nothing is printed. *)
Theorem scalars_are_refused (raw_data : pyval) (a b c : pyval) (w : world) :
  hourly_arrays raw_data = Return (a, b, c) →
  is_scalar a && is_scalar b && is_scalar c = true →
  Transform.transform Transform.OpenMeteoTransformer raw_data w = (Raise ValueError, w).
Proof.
  intros Harr [[Ha Hb]%andb_prop Hc]%andb_prop. rewrite transform_run, Harr.
  unfold DataFrame_of_dict, extract_index.
  destruct (raw_lengths_scalars [(Transform.Timestamp, a); (Transform.Temperature, b);
                                 (Transform.Precipitation, c)]) as [-> ->]; [|done].
  cbn [forallb snd]. by rewrite Ha, Hb, Hc.
Qed.

Lemma scalars_are_refused_witness :
  Transform.transform Transform.OpenMeteoTransformer
    (PDict [(txt "hourly",
             PDict [(txt "time", PStr (txt "2024-01-01T00:00"));
                    (txt "temperature_2m", PFloat (FFinite false (txt "5") 1));
                    (txt "precipitation", PNone)])])
    empty_world
  = (Raise ValueError, empty_world).
Proof.
  apply (scalars_are_refused
           (PDict [(txt "hourly",
                    PDict [(txt "time", PStr (txt "2024-01-01T00:00"));
                           (txt "temperature_2m", PFloat (FFinite false (txt "5") 1));
                           (txt "precipitation", PNone)])])
           (PStr (txt "2024-01-01T00:00")) (PFloat (FFinite false (txt "5") 1)) PNone
           empty_world); reflexivity.
Defined.

(** X20: a single value among arrays is not an error: when at least one
    of the three values is a list of [n] entries and each of the others is
    such a list or a scalar, [transform] prints the success line and
    returns a table of [n] rows, in which the column of a scalar other than
    null holds the scalar on every row. *)
Theorem scalar_is_repeated (raw_data : pyval) (a b c : pyval) (n : nat) (w : world) :
  hourly_arrays raw_data = Return (a, b, c) →
  fits n a && fits n b && fits n c = true →
  negb (is_scalar a) || negb (is_scalar b) || negb (is_scalar c) = true →
  ∃ df,
    Transform.transform Transform.OpenMeteoTransformer raw_data w
    = (Return (Some df),
       World (files w) (stdout w ++ [TransformationSuccessful]) (stderr w))
    ∧ df_index df = RangeIndex n
    ∧ length (df_rows df) = n
    ∧ ∀ name v,
        (name, v) ∈ [(Transform.Timestamp, a); (Transform.Temperature, b);
                     (Transform.Precipitation, c)] →
        is_scalar v = true → v ≠ PNone →
        (name, replicate n (Val v)) ∈ df_columns df.
Proof.
  intros Harr Hfits Hlist.
  assert (Hdf : DataFrame_of_dict [(Transform.Timestamp, a); (Transform.Temperature, b);
                                   (Transform.Precipitation, c)]
                = Return {| df_index := RangeIndex n;
                            df_columns :=
                              [(Transform.Timestamp, column_cells (RangeIndex n) a);
                               (Transform.Temperature, column_cells (RangeIndex n) b);
                               (Transform.Precipitation, column_cells (RangeIndex n) c)] |}).
  { unfold DataFrame_of_dict. rewrite (extract_index_fits _ n); [done| |].
    - cbn [forallb snd]. by rewrite andb_true_r, andb_assoc.
    - cbn [existsb snd]. by rewrite orb_false_r, orb_assoc. }
  eexists. split; [by rewrite transform_run, Harr, Hdf|]. split; [done|]. split.
  - destruct (DataFrame_of_dict_shape _ _ Hdf) as [_ Hcols].
    by destruct (df_rows_shape _ Hcols) as [Hlen _].
  - intros name v Hin Hv _. cbn [df_columns].
    assert (Hcell : column_cells (RangeIndex n) v = replicate n (Val v)) by (by destruct v).
    rewrite <- Hcell.
    repeat (apply elem_of_cons in Hin as [[= -> ->]|Hin];
            [repeat ((by apply list_elem_of_here) || apply list_elem_of_further)|]).
    by apply elem_of_nil in Hin.
Qed.

Lemma scalar_is_repeated_witness :
  ∃ df,
    Transform.transform Transform.OpenMeteoTransformer
      (PDict [(txt "hourly",
               PDict [(txt "time", PStr (txt "2024-01-01"));
                      (txt "temperature_2m", PList [PInt 5; PInt 6]);
                      (txt "precipitation", PList [PInt 0; PInt 1])])])
      empty_world
    = (Return (Some df), World ∅ [TransformationSuccessful] [])
    ∧ df_index df = RangeIndex 2
    ∧ length (df_rows df) = 2%nat
    ∧ ∀ name v,
        (name, v) ∈ [(Transform.Timestamp, PStr (txt "2024-01-01"));
                     (Transform.Temperature, PList [PInt 5; PInt 6]);
                     (Transform.Precipitation, PList [PInt 0; PInt 1])] →
        is_scalar v = true → v ≠ PNone →
        (name, replicate 2 (Val v)) ∈ df_columns df.
Proof.
  apply (scalar_is_repeated
           (PDict [(txt "hourly",
                    PDict [(txt "time", PStr (txt "2024-01-01"));
                           (txt "temperature_2m", PList [PInt 5; PInt 6]);
                           (txt "precipitation", PList [PInt 0; PInt 1])])])
           (PStr (txt "2024-01-01")) (PList [PInt 5; PInt 6]) (PList [PInt 0; PInt 1])
           2%nat empty_world eq_refl eq_refl eq_refl).
Defined.
(** * The two stages together *)

(** [makedirs] makes directories only: a regular file found after it was
    there before. *)
Lemma mkdir_chain_file_back chain w r w1 a c :
  mkdir_chain chain w = (r, w1) → lookup_node a w1 = Some (File c) →
  lookup_node a w = Some (File c).
Proof.
  revert w. induction chain as [|b chain IH]; intros w Hrun Ha; cbn [mkdir_chain] in Hrun.
  - unfold mret, M_ret in Hrun. by simplify_eq.
  - destruct (lookup_node b w) as [[c'|]|] eqn:Hb.
    + by simplify_eq.
    + by apply IH.
    + rewrite bind_run in Hrun. cbn [set_node] in Hrun. apply IH in Hrun; [|done].
      rewrite lookup_node_set in Hrun. unfold lookup_node.
      destruct (is_root a); [done|]. by case_decide.
Qed.

(** What a storage that accepts a write at [p] looks like. *)
Lemma storage_accepts_facts p w :
  storage_accepts p w = true →
  dirname p ≠ [] ∧ is_root p = false ∧ lookup_node p w ≠ Some Dir
  ∧ Forall (no_file_at w) (ancestors (dirname p)).
Proof.
  intros Hacc. destruct (accepted_write p w Hacc) as (wm & Hmk & _ & _ & Hp & _).
  assert (Hne : dirname p ≠ []).
  { intros Hd. unfold makedirs in Hmk. by rewrite Hd in Hmk. }
  unfold makedirs in Hmk. rewrite bool_decide_false in Hmk by done.
  repeat split; try done.
  - destruct (is_root p) eqn:Hr; [|done]. destruct Hp. unfold lookup_node. by rewrite Hr.
  - intros Hd. destruct Hp. by apply (mkdir_chain_keeps _ _ _ _ _ Hmk).
  - apply Forall_forall. intros a Ha c Hfile.
    destruct (mkdir_chain_blocked _ w a c Ha Hfile) as (e & w1 & Hrun & _). congruence.
Qed.

(** A storage that accepts a write at [q] still accepts it after a write
    at another path [p], when neither path is a directory above the
    other. *)
Lemma accepts_after_write p q w wm content so se :
  makedirs (dirname p) w = (Return (), wm) →
  storage_accepts q w = true →
  q ≠ p → p ∉ ancestors (dirname q) → q ∉ ancestors (dirname p) →
  storage_accepts q (World (<[p := File content]> (files wm)) so se) = true.
Proof.
  intros Hmk Hq Hqp Hpq Hqa.
  destruct (storage_accepts_facts q w Hq) as (Hd & Hroot & Hlook & Hclear).
  assert (Hchain : ∃ r, mkdir_chain (ancestors (dirname p)) w = (r, wm)).
  { unfold makedirs in Hmk. case_bool_decide; [done|]. by eexists. }
  destruct Hchain as [r Hchain].
  apply clear_way_accepts; try done.
  - rewrite (lookup_node_other p q _ _ _ _ (stdout wm) (stderr wm)) by done.
    rewrite world_eta. by rewrite (mkdir_chain_outside _ _ _ _ q Hchain Hqa).
  - apply Forall_forall. intros a Ha c.
    assert (Hap : a ≠ p) by (by intros ->).
    rewrite (lookup_node_other p a _ _ _ _ (stdout wm) (stderr wm)) by done.
    rewrite world_eta. intros Hfile%(mkdir_chain_file_back _ _ _ _ _ _ Hchain).
    rewrite Forall_forall in Hclear. by apply (Hclear a Ha c).
Qed.

(** The run of [execute] on a raw file whose three arrays are lists of one
    length, on a storage that accepts the processed file. *)
Lemma execute_run_table (to_csv_text : DataFrame → text)
    (repo : Transform.WeatherDataRepository) (content : text) (raw_data : pyval)
    (ts temps precs : list pyval) (w : world) :
  lookup_node (Transform.storage_path repo) w = Some (File content) →
  json_loads content = Some raw_data →
  hourly_arrays raw_data = Return (PList ts, PList temps, PList precs) →
  length ts = length temps → length temps = length precs →
  storage_accepts Transform.default_output_path w = true →
  ∃ wm,
    makedirs (dirname Transform.default_output_path) w = (Return (), wm)
    ∧ Transform.execute to_csv_text
        {| Transform.repository := repo;
           Transform.transformer := Transform.OpenMeteoTransformer |} w
      = (Return (),
         World (<[Transform.default_output_path := File (to_csv_text (table_of ts temps precs))]>
                  (files wm))
           (stdout w ++ [TransformationSuccessful;
                         ProcessedDataSaved Transform.default_output_path])
           (stderr w)).
Proof.
  intros Hfile Hjson Harr H1 H2 Hacc.
  destruct (accepted_write _ w Hacc) as (wm & Hmk & Hso & Hse & Hp & _).
  exists wm. split; [done|].
  rewrite execute_run, load_run, Hfile, Hjson. cbn [fst].
  rewrite (transform_run_lists _ _ _ _ _ Harr H1 H2), transform_save_run.
  destruct w as [fm so se]. cbn [files stdout stderr] in *.
  rewrite (storage_accepts_log _ fm so se (so ++ [TransformationSuccessful]) se) in Hacc.
  destruct (accepted_write _ _ Hacc) as (wm' & Hmk' & Hso' & Hse' & Hp' & Hw).
  destruct (Hw (to_csv_text (table_of ts temps precs))) as (-> & _ & _).
  cbn [files stdout stderr].
  assert (Hfm : files wm' = files wm).
  { unfold makedirs in Hmk, Hmk'. case_bool_decide; [done|].
    rewrite (mkdir_chain_log _ fm _ _ so se), Hmk in Hmk'. by simplify_eq. }
  by rewrite Hfm, <- app_assoc.
Qed.

(** X21: when the raw file holds the text the fetch stage writes for a
    well-formed document whose three arrays are lists of one length, and
    the storage accepts the processed file, [transform_and_save] returns
    normally, having printed the success line and the line of the save,
    with the processed file holding the CSV text of the table of the
    arrays. *)
Theorem transform_and_save_tabulates (to_csv_text : DataFrame → text)
    (repo : Transform.WeatherDataRepository) (raw_data : pyval)
    (ts temps precs : list pyval) (w : world) :
  json_value raw_data = true →
  lookup_node (Transform.storage_path repo) w = Some (File (json_dumps raw_data)) →
  hourly_arrays raw_data = Return (PList ts, PList temps, PList precs) →
  length ts = length temps → length temps = length precs →
  storage_accepts Transform.default_output_path w = true →
  ∃ w',
    Transform.transform_and_save to_csv_text
      {| Transform.repository := repo;
         Transform.transformer := Transform.OpenMeteoTransformer |} w = (Return (), w')
    ∧ lookup_node Transform.default_output_path w'
      = Some (File (to_csv_text (table_of ts temps precs)))
    ∧ stdout w' = stdout w ++ [TransformationSuccessful;
                               ProcessedDataSaved Transform.default_output_path]
    ∧ stderr w' = stderr w.
Proof.
  intros Hwf Hfile Harr H1 H2 Hacc.
  destruct (execute_run_table to_csv_text repo _ _ _ _ _ w Hfile (json_loads_dumps _ Hwf)
              Harr H1 H2 Hacc) as (wm & Hmk & Hrun).
  destruct (accepted_write _ w Hacc) as (wm' & Hmk' & _ & _ & Hp & _).
  rewrite Hmk in Hmk'. injection Hmk' as <-.
  eexists. split; [exact Hrun|]. split; [|done]. by apply lookup_node_written.
Qed.

Lemma transform_and_save_tabulates_witness :
  ∃ w',
    Transform.transform_and_save (λ _, txt "csv")
      {| Transform.repository := {| Transform.storage_path := Transform.default_storage_path |};
         Transform.transformer := Transform.OpenMeteoTransformer |} two_hours_world
    = (Return (), w')
    ∧ lookup_node Transform.default_output_path w' = Some (File (txt "csv"))
    ∧ stdout w' = stdout two_hours_world
                  ++ [TransformationSuccessful;
                      ProcessedDataSaved Transform.default_output_path]
    ∧ stderr w' = stderr two_hours_world.
Proof.
  apply (transform_and_save_tabulates (λ _, txt "csv")
           {| Transform.storage_path := Transform.default_storage_path |}
           two_hours_doc
           [PStr (txt "2024-01-01T00:00"); PStr (txt "2024-01-01T01:00")]
           [PFloat (FFinite false (txt "5") 1); PFloat (FFinite true (txt "15") 1)]
           [PInt 0; PInt 2] two_hours_world); vm_compute; reflexivity.
Defined.

Lemma lookup_node_files q w w' : files w' = files w → lookup_node q w' = lookup_node q w.
Proof. intros Hf. unfold lookup_node. by rewrite Hf. Qed.

Lemma output_directory :
  ancestors (dirname Transform.default_output_path) = [txt "data"].
Proof. vm_compute. reflexivity. Qed.

(** What [execute] with the Open-Meteo transformer leaves of an entry other
    than the processed file. *)
Lemma execute_frame (to_csv_text : DataFrame → text)
    (repo : Transform.WeatherDataRepository) (q : text) (w : world) :
  q ≠ Transform.default_output_path →
  (∀ n, lookup_node q w = Some n →
        lookup_node q
          (Transform.execute to_csv_text
             {| Transform.repository := repo;
                Transform.transformer := Transform.OpenMeteoTransformer |} w).2 = Some n)
  ∧ (q ≠ txt "data" →
     lookup_node q
       (Transform.execute to_csv_text
          {| Transform.repository := repo;
             Transform.transformer := Transform.OpenMeteoTransformer |} w).2
     = lookup_node q w).
Proof.
  intros Hq. rewrite execute_run.
  assert (Hgoal : ∀ w', (∀ n, lookup_node q w = Some n → lookup_node q w' = Some n)
                        ∧ (q ≠ txt "data" → lookup_node q w' = lookup_node q w) →
            ∀ so se, (∀ n, lookup_node q w = Some n →
                           lookup_node q (World (files w') so se) = Some n)
                     ∧ (q ≠ txt "data" →
                        lookup_node q (World (files w') so se) = lookup_node q w)).
  { intros w' Hw' so se. by rewrite (lookup_node_files q w' (World (files w') so se)). }
  assert (Hrefl : (∀ n, lookup_node q w = Some n → lookup_node q w = Some n)
                  ∧ (q ≠ txt "data" → lookup_node q w = lookup_node q w)) by done.
  destruct (Transform.load repo w).1 as [raw_data|e]; cbn [snd]; [|by apply Hgoal].
  pose proof (transform_keeps_files raw_data w) as Hfiles.
  destruct (Transform.transform _ raw_data w) as [[[df|]|e] w1] eqn:Ht; cbn [snd] in *.
  - assert (Hsave : (∀ n, lookup_node q w = Some n →
                          lookup_node q (Transform.save to_csv_text repo df
                                           Transform.default_output_path w1).2 = Some n)
                    ∧ (q ≠ txt "data" →
                       lookup_node q (Transform.save to_csv_text repo df
                                        Transform.default_output_path w1).2
                       = lookup_node q w)).
    { rewrite transform_save_lookup.
      destruct ((makedirs (dirname Transform.default_output_path) ;;
                 open_write Transform.default_output_path (to_csv_text df)) w1)
        as [r w2] eqn:Hw.
      destruct (write_frame _ _ _ _ _ q Hw Hq) as [Hkeep Hout]. cbn [snd].
      rewrite <- (lookup_node_files q w w1 Hfiles). split; [done|].
      intros Hdata. apply Hout. rewrite output_directory.
      by intros ->%list_elem_of_singleton. }
    destruct (Transform.save _ _ _ _ w1) as [[[]|e] w2]; cbn [snd] in *; [done|].
    by apply Hgoal.
  - by rewrite <- (lookup_node_files q w w1 Hfiles).
  - apply Hgoal. by rewrite <- (lookup_node_files q w w1 Hfiles).
Qed.

(** X22: [execute] with the Open-Meteo transformer never removes or
    replaces what it finds: every entry other than the processed file is
    kept as it is, the raw file among them; and no path other than the
    processed file and the "data" directory is touched at all. *)
Theorem execute_keeps_what_exists (to_csv_text : DataFrame → text)
    (repo : Transform.WeatherDataRepository) (q : text) (w : world) :
  q ≠ Transform.default_output_path →
  (∀ n, lookup_node q w = Some n →
        lookup_node q
          (Transform.execute to_csv_text
             {| Transform.repository := repo;
                Transform.transformer := Transform.OpenMeteoTransformer |} w).2 = Some n)
  ∧ (q ≠ txt "data" →
     lookup_node q
       (Transform.execute to_csv_text
          {| Transform.repository := repo;
             Transform.transformer := Transform.OpenMeteoTransformer |} w).2
     = lookup_node q w).
Proof. apply execute_frame. Qed.

Lemma execute_keeps_what_exists_witness :
  lookup_node Transform.default_storage_path
    (Transform.execute (λ _, txt "csv")
       {| Transform.repository := {| Transform.storage_path := Transform.default_storage_path |};
          Transform.transformer := Transform.OpenMeteoTransformer |} happy_world).2
  = Some (File (json_dumps happy_doc)).
Proof.
  apply (proj1 (execute_keeps_what_exists (λ _, txt "csv")
                  {| Transform.storage_path := Transform.default_storage_path |}
                  Transform.default_storage_path happy_world ltac:(discriminate))).
  vm_compute. reflexivity.
Defined.

(** The run of the fetch stage on a response with status 200 and a body,
    on a storage that accepts the raw file. *)
Lemma fetch_and_save_run_ok (self : Extract.WeatherService) (latitude longitude : pyval)
    (response : Extract.Response) (data : pyval) (w : world) :
  Extract.fetch (Extract.fetcher self) latitude longitude = Return response →
  Extract.status_code response = 200%Z →
  Extract.json response = Return data →
  storage_accepts (Extract.storage_path (Extract.repository self)) w = true →
  ∃ wm,
    makedirs (dirname (Extract.storage_path (Extract.repository self))) w = (Return (), wm)
    ∧ lookup_node (Extract.storage_path (Extract.repository self)) wm ≠ Some Dir
    ∧ Extract.fetch_and_save_weather_data self latitude longitude w
      = (Return (),
         World (<[Extract.storage_path (Extract.repository self) := File (json_dumps data)]>
                  (files wm))
           (stdout w ++ [FetchedAndSaved]) (stderr w)).
Proof.
  intros Hfetch Hcode Hjson Hacc.
  destruct (accepted_write _ w Hacc) as (wm & Hmk & Hso & Hse & Hp & Hw).
  destruct (Hw (json_dumps data)) as (Hsave & _ & _).
  exists wm. split; [done|]. split; [done|].
  unfold Extract.fetch_and_save_weather_data, thread_start_join.
  rewrite task_run, Hfetch, Hcode, Hjson. change (200 =? 200)%Z with true. cbv iota.
  destruct (Extract.repository self) as [p]. cbn [Extract.storage_path] in *.
  by rewrite extract_save_run, Hsave.
Qed.

Lemma raw_and_processed_paths :
  Transform.default_output_path ≠ Extract.default_storage_path
  ∧ (Extract.default_storage_path ∉ ancestors (dirname Transform.default_output_path))
  ∧ (Transform.default_output_path ∉ ancestors (dirname Extract.default_storage_path)).
Proof.
  split; [done|]. split.
  - rewrite output_directory. by intros ?%list_elem_of_singleton.
  - assert (Hraw : ancestors (dirname Extract.default_storage_path) = [txt "data"])
      by (vm_compute; reflexivity).
    rewrite Hraw. by intros ?%list_elem_of_singleton.
Qed.

(** X23: the two scripts, one after the other.  When the transport
    answers the request for the default coordinates with status 200 and a
    well-formed body whose three arrays are lists of one length, on a
    storage that accepts the two files, the run of extract.py followed by
    the run of transform.py returns normally with the raw file holding the
    encoding of the body, the processed file holding the CSV text of the
    table of the arrays, and the three lines printed in order: fetched and
    saved, transformation successful, processed data saved. *)
Theorem pipeline_end_to_end (to_csv_text : DataFrame → text) (get : Extract.transport)
    (response : Extract.Response) (data : pyval) (ts temps precs : list pyval) (w : world) :
  get open_meteo_url default_params = Return response →
  Extract.status_code response = 200%Z →
  Extract.json response = Return data →
  json_value data = true →
  hourly_arrays data = Return (PList ts, PList temps, PList precs) →
  length ts = length temps → length temps = length precs →
  storage_accepts Extract.default_storage_path w = true →
  storage_accepts Transform.default_output_path w = true →
  ∃ w',
    (extract_main get ;; transform_main to_csv_text) w = (Return (), w')
    ∧ lookup_node Extract.default_storage_path w' = Some (File (json_dumps data))
    ∧ lookup_node Transform.default_output_path w'
      = Some (File (to_csv_text (table_of ts temps precs)))
    ∧ stdout w' = stdout w ++ [FetchedAndSaved; TransformationSuccessful;
                               ProcessedDataSaved Transform.default_output_path]
    ∧ stderr w' = stderr w.
Proof.
  intros Hget Hcode Hjson Hwf Harr H1 H2 Hraw Hout.
  destruct raw_and_processed_paths as (Hne & Hpq & Hqp).
  destruct (fetch_and_save_run_ok
              {| Extract.fetcher := Extract.OpenMeteoFetcher get;
                 Extract.repository :=
                   {| Extract.storage_path := Extract.default_storage_path |} |}
              Extract.default_latitude Extract.default_longitude response data w
              Hget Hcode Hjson Hraw) as (wm & Hmk & Hp & Hrun1).
  cbn [Extract.repository Extract.storage_path] in *.
  set (w1 := World (<[Extract.default_storage_path := File (json_dumps data)]> (files wm))
               (stdout w ++ [FetchedAndSaved]) (stderr w)) in *.
  assert (Hfile : lookup_node Transform.default_storage_path w1
                  = Some (File (json_dumps data))) by (by apply lookup_node_written).
  assert (Hacc1 : storage_accepts Transform.default_output_path w1 = true).
  { by apply (accepts_after_write _ _ w wm). }
  destruct (execute_run_table to_csv_text
              {| Transform.storage_path := Transform.default_storage_path |}
              (json_dumps data) data ts temps precs w1 Hfile (json_loads_dumps data Hwf)
              Harr H1 H2 Hacc1) as (wm1 & Hmk1 & Hrun2).
  destruct (accepted_write _ w1 Hacc1) as (wm1' & Hmk1' & _ & _ & Hp1 & _).
  rewrite Hmk1 in Hmk1'. injection Hmk1' as <-.
  eexists. split.
  { rewrite bind_run. unfold extract_main, transform_main, Transform.transform_and_save,
      submit_result. rewrite Hrun1. exact Hrun2. }
  cbn [stdout stderr]. split; [|split; [by apply lookup_node_written|]].
  - rewrite (lookup_node_other _ _ _ _ _ _ (stdout wm1) (stderr wm1)) by done.
    rewrite world_eta.
    assert (Hchain : ∃ r, mkdir_chain (ancestors (dirname Transform.default_output_path)) w1
                          = (r, wm1)).
    { unfold makedirs in Hmk1. case_bool_decide; [done|]. by eexists. }
    destruct Hchain as [r Hchain]. by apply (mkdir_chain_existing _ _ _ _ _ _ Hchain).
  - subst w1. cbn [stdout stderr]. by rewrite <- app_assoc.
Qed.

Lemma pipeline_end_to_end_witness :
  ∃ w',
    (extract_main (answering happy_doc) ;; transform_main (λ _, txt "csv")) empty_world
    = (Return (), w')
    ∧ lookup_node Extract.default_storage_path w' = Some (File (json_dumps happy_doc))
    ∧ lookup_node Transform.default_output_path w' = Some (File (txt "csv"))
    ∧ stdout w' = [FetchedAndSaved; TransformationSuccessful;
                   ProcessedDataSaved Transform.default_output_path]
    ∧ stderr w' = [].
Proof.
  apply (pipeline_end_to_end (λ _, txt "csv") (answering happy_doc)
           {| Extract.status_code := 200; Extract.json := Return happy_doc |} happy_doc
           [PStr (txt "2024-01-01T00:00")] [PFloat (FFinite false (txt "5") 1)]
           [PFloat (FFinite false [] 0)] empty_world); vm_compute; reflexivity.
Defined.

(** The run of the fetch stage on a response with a status other than
    200. *)
Lemma extract_main_run_failed (get : Extract.transport) (response : Extract.Response)
    (w : world) :
  get open_meteo_url default_params = Return response →
  Extract.status_code response ≠ 200%Z →
  extract_main get w
  = (Return (),
     World (files w) (stdout w ++ [FailedToFetch (Extract.status_code response)]) (stderr w)).
Proof.
  intros Hget Hcode. unfold extract_main, Extract.fetch_and_save_weather_data, thread_start_join.
  rewrite task_run. cbn [Extract.fetcher Extract.fetch Extract.OpenMeteoFetcher].
  change (get (txt "https://api.open-meteo.com/v1/forecast") _) with
    (get open_meteo_url default_params).
  by rewrite Hget, (proj2 (Z.eqb_neq _ _) Hcode).
Qed.

(** X24: the transform stage does not know whether the fetch stage
    succeeded.  After a response with a status other than 200 the run of
    transform.py works on the storage as the fetch stage found it: with no
    raw file it prints the error line for the missing file and writes
    nothing; with a raw file left by an earlier run it loads that file. *)
Theorem failed_fetch_then_transform (to_csv_text : DataFrame → text)
    (get : Extract.transport) (response : Extract.Response) (w : world) :
  get open_meteo_url default_params = Return response →
  Extract.status_code response ≠ 200%Z →
  (extract_main get ;; transform_main to_csv_text) w
  = transform_main to_csv_text
      (World (files w) (stdout w ++ [FailedToFetch (Extract.status_code response)]) (stderr w))
  ∧ (lookup_node Transform.default_storage_path w = None →
     (extract_main get ;; transform_main to_csv_text) w
     = (Return (),
        World (files w)
          (stdout w ++ [FailedToFetch (Extract.status_code response);
                        ErrorDuringTransformation
                          (FileNotFoundError Transform.default_storage_path)])
          (stderr w))).
Proof.
  intros Hget Hcode. rewrite bind_run, (extract_main_run_failed _ _ _ Hget Hcode).
  split; [done|]. intros Hnone.
  unfold transform_main, Transform.transform_and_save, submit_result.
  rewrite (execute_reports_load_failure _ _ _ (FileNotFoundError Transform.default_storage_path)).
  - cbn [files stdout stderr]. by rewrite <- app_assoc.
  - cbn [Transform.repository]. rewrite load_run. cbn [Transform.storage_path].
    by rewrite (lookup_node_log _ _ _ _ (stdout w) (stderr w)), world_eta, Hnone.
Qed.

Lemma failed_fetch_then_transform_witness :
  (extract_main (λ _ _, Return {| Extract.status_code := 503;
                                  Extract.json := Raise JSONDecodeError |}) ;;
   transform_main (λ _, txt "csv")) empty_world
  = (Return (),
     World ∅ [FailedToFetch 503;
              ErrorDuringTransformation (FileNotFoundError Transform.default_storage_path)]
       []).
Proof.
  apply (proj2 (failed_fetch_then_transform (λ _, txt "csv")
                  (λ _ _, Return {| Extract.status_code := 503;
                                    Extract.json := Raise JSONDecodeError |})
                  {| Extract.status_code := 503; Extract.json := Raise JSONDecodeError |}
                  empty_world eq_refl ltac:(discriminate))).
  reflexivity.
Defined.

(** What the write of a save that went through leaves at the path. *)
Lemma write_returns_file p content w w1 :
  (makedirs (dirname p) ;; open_write p content) w = (Return (), w1) →
  lookup_node p w1 = Some (File content).
Proof.
  rewrite bind_run. destruct (makedirs (dirname p) w) as [[[]|e] wm]; [|done].
  intros Hop. destruct (open_write_spec _ _ _ _ Hop) as (-> & Hp & _).
  by apply lookup_node_written.
Qed.

(** X25: the line that says the processed data was saved is printed only
    after the processed file is written: when the lines [execute] added
    are the success line and that line, the raw file was loaded, a table
    was built from it, and the processed file holds the CSV text of that
    table. *)
Theorem saved_line_means_written (to_csv_text : DataFrame → text)
    (repo : Transform.WeatherDataRepository) (w : world) :
  stdout (Transform.execute to_csv_text
            {| Transform.repository := repo;
               Transform.transformer := Transform.OpenMeteoTransformer |} w).2
  = stdout w ++ [TransformationSuccessful; ProcessedDataSaved Transform.default_output_path] →
  ∃ raw_data df,
    (Transform.load repo w).1 = Return raw_data
    ∧ (Transform.transform Transform.OpenMeteoTransformer raw_data w).1 = Return (Some df)
    ∧ lookup_node Transform.default_output_path
        (Transform.execute to_csv_text
           {| Transform.repository := repo;
              Transform.transformer := Transform.OpenMeteoTransformer |} w).2
      = Some (File (to_csv_text df)).
Proof.
  rewrite execute_run.
  destruct (Transform.load repo w).1 as [raw_data|e] eqn:Hload; cbn [snd stdout].
  2:{ by intros [= ?]%app_inv_head. }
  destruct (transform_outcomes raw_data w)
    as [(k & _ & Hrun)|[(_ & Hrun)|[(df & Hrun)|Hrun]]]; rewrite Hrun; cbn [snd stdout].
  - by intros [= ?]%app_inv_head.
  - by intros [= ?]%app_inv_head.
  - rewrite transform_save_run.
    destruct ((makedirs (dirname Transform.default_output_path) ;;
               open_write Transform.default_output_path (to_csv_text df))
                (World (files w) (stdout w ++ [TransformationSuccessful]) (stderr w)))
      as [[[]|e] w2] eqn:Hw; cbn [snd stdout].
    + intros _. exists raw_data, df. rewrite Hrun. repeat split.
      apply write_returns_file in Hw. by rewrite <- Hw.
    + destruct (write_log _ _ _ _ _ Hw) as [-> _]. cbn [stdout].
      rewrite <- app_assoc. by intros [= ?]%app_inv_head.
  - by intros [= ?]%app_inv_head.
Qed.

Lemma saved_line_means_written_witness :
  ∃ raw_data df,
    (Transform.load {| Transform.storage_path := Transform.default_storage_path |}
       happy_world).1 = Return raw_data
    ∧ (Transform.transform Transform.OpenMeteoTransformer raw_data happy_world).1
      = Return (Some df)
    ∧ lookup_node Transform.default_output_path
        (Transform.execute (λ _, txt "csv")
           {| Transform.repository :=
                {| Transform.storage_path := Transform.default_storage_path |};
              Transform.transformer := Transform.OpenMeteoTransformer |} happy_world).2
      = Some (File (txt "csv")).
Proof.
  apply (saved_line_means_written (λ _, txt "csv")
           {| Transform.storage_path := Transform.default_storage_path |} happy_world).
  vm_compute. reflexivity.
Defined.
(** * Running a stage again *)

(** What [open] for writing does to the files depends on the files only. *)
Lemma open_write_files_log p content fm so se so' se' :
  files (open_write p content (World fm so se)).2
  = files (open_write p content (World fm so' se')).2.
Proof.
  pose proof (open_write_accepts p content fm so se so' se') as Hsame.
  destruct (open_write_cases p content (World fm so se)) as [[e He]|Hw],
           (open_write_cases p content (World fm so' se')) as [[e' He']|Hw'];
    rewrite ?He, ?He', ?Hw, ?Hw' in *; done.
Qed.

(** The write of a save, the directories and then the file, seen on the
    files alone. *)
Lemma write_files_log p content fm so se so' se' :
  files ((makedirs (dirname p) ;; open_write p content) (World fm so se)).2
  = files ((makedirs (dirname p) ;; open_write p content) (World fm so' se')).2.
Proof.
  rewrite !bind_run. unfold makedirs. case_bool_decide; [done|].
  rewrite (mkdir_chain_log _ fm so se so' se').
  destruct (mkdir_chain (ancestors (dirname p)) (World fm so' se')) as [[[]|e] [fm' so'' se'']];
    cbn [fst snd files]; [|done].
  apply open_write_files_log.
Qed.

Lemma makedirs_raises_again name w e w1 :
  makedirs name w = (Raise e, w1) → makedirs name w1 = (Raise e, w1).
Proof.
  unfold makedirs. case_bool_decide; [by intros [= <- <-]|]. apply mkdir_chain_raises_again.
Qed.

Lemma makedirs_returns_again name w w1 :
  makedirs name w = (Return (), w1) → makedirs name w1 = (Return (), w1).
Proof.
  unfold makedirs. case_bool_decide; [done|].
  intros Hrun%mkdir_chain_made. by apply mkdir_chain_dirs.
Qed.

(** The write of a save, done again on what it left, leaves the same:
    a write that went through writes the same text over itself, and a write
    that was refused is refused again and creates nothing more. *)
Lemma write_again p content w :
  (makedirs (dirname p) ;; open_write p content)
    ((makedirs (dirname p) ;; open_write p content) w).2
  = (makedirs (dirname p) ;; open_write p content) w.
Proof.
  rewrite (bind_run _ _ w).
  destruct (makedirs (dirname p) w) as [[[]|e] wm] eqn:Hmk.
  - destruct (open_write_cases p content wm) as [[e He]|Hw].
    + rewrite He. cbn [snd]. by rewrite bind_run, (makedirs_returns_again _ _ _ Hmk), He.
    + rewrite Hw. cbn [snd].
      destruct (open_write_spec _ _ _ _ Hw) as (_ & Hp & Hpar).
      pose proof (open_write_nonempty _ _ _ _ Hw) as Hne.
      rewrite bind_run, (makedirs_again _ _ _ _ _ _ _ Hmk Hp).
      rewrite open_write_run; cbn [files stdout stderr].
      * by rewrite insert_insert_eq.
      * done.
      * rewrite lookup_node_set. destruct (is_root p) eqn:Hr.
        -- unfold lookup_node in Hp. by rewrite Hr in Hp.
        -- by rewrite decide_True.
      * by apply check_parent_set.
  - cbn [snd]. by rewrite bind_run, (makedirs_raises_again _ _ _ _ Hmk).
Qed.

(** X26: saving a document again changes nothing, on any storage: after a
    save that went through, the second save writes the same text over the
    file and returns; after a save that was refused, the second is refused
    with the same exception and creates nothing more. *)
Theorem save_again_changes_nothing (self : Extract.WeatherDataRepository) (data : pyval)
    (w : world) :
  Extract.save self data (Extract.save self data w).2 = Extract.save self data w.
Proof. destruct self as [p]. rewrite !extract_save_run. apply write_again. Qed.

Lemma write_files_eq p content w w' :
  files w = files w' →
  files ((makedirs (dirname p) ;; open_write p content) w).2
  = files ((makedirs (dirname p) ;; open_write p content) w').2.
Proof.
  destruct w as [fm so se], w' as [fm' so' se']. cbn [files]. intros <-.
  apply write_files_log.
Qed.

(** The value [transform] returns, or the exception it raises, depends on
    the document only. *)
Lemma transform_value_log (raw_data : pyval) (w w' : world) :
  (Transform.transform Transform.OpenMeteoTransformer raw_data w).1
  = (Transform.transform Transform.OpenMeteoTransformer raw_data w').1.
Proof.
  rewrite !transform_run. destruct (hourly_arrays raw_data) as [[[a b] c]|e].
  - destruct (DataFrame_of_dict _) as [df|e]; [done|]. by destruct (isinstance_KeyError e).
  - by destruct (isinstance_KeyError e).
Qed.

Lemma load_value (repo : Transform.WeatherDataRepository) (w w' : world) :
  lookup_node (Transform.storage_path repo) w' = lookup_node (Transform.storage_path repo) w →
  (Transform.load repo w').1 = (Transform.load repo w).1.
Proof.
  intros Hlook. rewrite !load_run, Hlook.
  destruct (lookup_node _ w) as [[content|]|]; [|done..]. by destruct (json_loads content).
Qed.

(** The files [execute] leaves: those of the write of the processed file
    when a table was built, and the ones it found otherwise. *)
Lemma execute_files (to_csv_text : DataFrame → text) (repo : Transform.WeatherDataRepository)
    (w : world) :
  files (Transform.execute to_csv_text
           {| Transform.repository := repo;
              Transform.transformer := Transform.OpenMeteoTransformer |} w).2
  = match (Transform.load repo w).1 with
    | Raise _ => files w
    | Return raw_data =>
        match (Transform.transform Transform.OpenMeteoTransformer raw_data w).1 with
        | Return (Some df) =>
            files ((makedirs (dirname Transform.default_output_path) ;;
                    open_write Transform.default_output_path (to_csv_text df)) w).2
        | _ => files w
        end
    end.
Proof.
  rewrite execute_run. destruct (Transform.load repo w).1 as [raw_data|e]; [|done].
  pose proof (transform_keeps_files raw_data w) as Hfiles.
  destruct (Transform.transform _ raw_data w) as [[[df|]|e] w1]; cbn [fst snd] in *;
    [|done..].
  rewrite transform_save_run, <- (write_files_eq _ _ w1 w Hfiles).
  by destruct ((makedirs (dirname Transform.default_output_path) ;;
                open_write Transform.default_output_path (to_csv_text df)) w1)
    as [[[]|e] w2].
Qed.

(** X27: running the command again leaves the files of the first run, when
    the raw file is not the processed file itself: the second run loads
    the same document, builds the same table and writes the same text, or
    fails where the first run failed. *)
Theorem execute_again_same_files (to_csv_text : DataFrame → text)
    (repo : Transform.WeatherDataRepository) (w : world) :
  Transform.storage_path repo ≠ Transform.default_output_path →
  files (Transform.execute to_csv_text
           {| Transform.repository := repo;
              Transform.transformer := Transform.OpenMeteoTransformer |}
           (Transform.execute to_csv_text
              {| Transform.repository := repo;
                 Transform.transformer := Transform.OpenMeteoTransformer |} w).2).2
  = files (Transform.execute to_csv_text
             {| Transform.repository := repo;
                Transform.transformer := Transform.OpenMeteoTransformer |} w).2.
Proof.
  intros Hsp.
  pose proof (execute_files to_csv_text repo w) as Hw1.
  pose proof (execute_frame to_csv_text repo _ w Hsp) as [Hkeep _].
  remember (Transform.execute to_csv_text
              {| Transform.repository := repo;
                 Transform.transformer := Transform.OpenMeteoTransformer |} w).2 as w1.
  assert (Hlook : lookup_node (Transform.storage_path repo) w1
                  = lookup_node (Transform.storage_path repo) w).
  { destruct (lookup_node (Transform.storage_path repo) w) as [n|] eqn:Hn; [by apply Hkeep|].
    rewrite load_run, Hn in Hw1. cbn [fst] in Hw1. by rewrite (lookup_node_files _ w w1 Hw1). }
  rewrite execute_files, (load_value repo w w1 Hlook).
  destruct (Transform.load repo w).1 as [raw_data|e]; [|done].
  rewrite (transform_value_log raw_data w1 w).
  destruct (Transform.transform _ raw_data w).1 as [[df|]|e]; [|done..].
  rewrite (write_files_eq _ _ w1 _ Hw1), write_again. by rewrite Hw1.
Qed.

Lemma execute_again_same_files_witness :
  files (Transform.execute (λ _, txt "csv")
           {| Transform.repository := {| Transform.storage_path := Transform.default_storage_path |};
              Transform.transformer := Transform.OpenMeteoTransformer |}
           (Transform.execute (λ _, txt "csv")
              {| Transform.repository :=
                   {| Transform.storage_path := Transform.default_storage_path |};
                 Transform.transformer := Transform.OpenMeteoTransformer |} happy_world).2).2
  = files (Transform.execute (λ _, txt "csv")
             {| Transform.repository :=
                  {| Transform.storage_path := Transform.default_storage_path |};
                Transform.transformer := Transform.OpenMeteoTransformer |} happy_world).2.
Proof.
  apply (execute_again_same_files (λ _, txt "csv")
           {| Transform.storage_path := Transform.default_storage_path |} happy_world).
  discriminate.
Defined.
